(** * latebloom: a shallow embedding of [cfuncs.c] and [klookup.c]

    The kernel extension delays the PCIe bus enumeration loop of
    [IOPCIBridge::probeBus].  This development embeds

    - the symbol resolver of [klookup.c] ([FindSegment64], [SymbolLookup]),
    - the boot-args parser, the pattern scanner and the hook installer of
      [latebloom_start] in [cfuncs.c],
    - the hook code [latebloom_hook] (written in assembly in [cfuncs.c]),

    and proves properties of them.  Machine integers are [Z] with the
    wrap-around written out, memory is a function from addresses to bytes,
    C strings are lists of bytes, and the calls into the kernel ([printf],
    [IOSleep], [IOLog], ...) are recorded as a trace of events. *)

From Stdlib Require Import String Ascii ZArith List Bool Lia.
Import ListNotations.
Local Open Scope Z_scope.

(** ** Machine integers, bytes and memory *)

Definition wrap32 (x : Z) : Z := x mod 2 ^ 32.
Definition wrap64 (x : Z) : Z := x mod 2 ^ 64.

(** [movsx %eax,%rax]: the 32-bit value read as a signed number. *)
Definition sext32 (x : Z) : Z :=
  if wrap32 x <? 2 ^ 31 then wrap32 x else wrap32 x - 2 ^ 32.

(** A byte is a number in [0, 256); memory maps every address to a byte. *)
Definition byte := Z.
Definition mem := Z -> byte.

(** Little-endian loads (x86-64). *)
Definition load32 (m : mem) (a : Z) : Z :=
  m a + 2 ^ 8 * m (a + 1) + 2 ^ 16 * m (a + 2) + 2 ^ 24 * m (a + 3).

Definition load64 (m : mem) (a : Z) : Z :=
  load32 m a + 2 ^ 32 * load32 m (a + 4).

(** Stores: [store_bytes m a bs] writes [bs] at [a], [a+1], ... *)
Definition store8 (m : mem) (a : Z) (b : byte) : mem :=
  fun x => if x =? a then b else m x.

Fixpoint store_bytes (m : mem) (a : Z) (bs : list byte) : mem :=
  match bs with
  | [] => m
  | b :: bs' => store_bytes (store8 m a b) (a + 1) bs'
  end.

Definition le_bytes64 (v : Z) : list byte :=
  map (fun i => (wrap64 v / 2 ^ (8 * i)) mod 2 ^ 8) [0; 1; 2; 3; 4; 5; 6; 7].

Definition store64 (m : mem) (a : Z) (v : Z) : mem :=
  store_bytes m a (le_bytes64 v).

(** A memory whose first bytes (from address [base]) are [bs], zero elsewhere;
    used to build concrete images. *)
Definition mem_of_list (base : Z) (bs : list byte) : mem :=
  fun a => if (base <=? a) && (a <? base + Z.of_nat (length bs))
           then nth (Z.to_nat (a - base)) bs 0 else 0.

(** The bytes of a string literal (without the terminating NUL). *)
Definition str (s : string) : list byte :=
  map (fun c => Z.of_N (N_of_ascii c)) (list_ascii_of_string s).

(** [!strcmp((char * )a, s)] for a NUL-free [s]: the bytes of [s] are at [a]
    and a NUL follows them.  [strcmp] stops at the first difference, and the
    terminator of [s] is reached after [length s] bytes at the latest. *)
Fixpoint strcmp_eq (m : mem) (a : Z) (s : list byte) : bool :=
  match s with
  | [] => m a =? 0
  | c :: s' => (m a =? c) && strcmp_eq m (a + 1) s'
  end.

(** [!memcmp((void * )a, pat, sizeof pat)]. *)
Fixpoint memcmp_eq (m : mem) (a : Z) (pat : list byte) : bool :=
  match pat with
  | [] => true
  | b :: pat' => (m a =? b) && memcmp_eq m (a + 1) pat'
  end.

(** ** The trace of calls into the kernel *)

(** One constructor per message text of the sources. *)
Inductive message : Type :=
  | MsgVersionAbort      (* "OS major version == %d, aborting (HOOK NOT PLACED)." *)
  | MsgStarting          (* "Starting." *)
  | MsgSymbolFailed      (* "failed to locate '%s', aborting" *)
  | MsgBootArgs          (* "boot-args = %s" *)
  | MsgLatebloomZero     (* "latebloom=0, NOT INSTALLING HOOK" *)
  | MsgDebugSet          (* "lb_debug set to %ld" *)
  | MsgRangeSet          (* "lb_range set to %ld" *)
  | MsgDelay2Set         (* "lb_delay2 set to %ld" *)
  | MsgRange2Set         (* "lb_range2 set to %ld" *)
  | MsgLbloomZero        (* "lbloom=0, NOT INSTALLING HOOK" *)
  | MsgDefaultDelay      (* "latebloom boot-arg not set, Phase 1 using %lu ms default." *)
  | MsgPhase1Delay       (* "based on boot-args, Phase 1 using delay of %lu ms." *)
  | MsgPhase2Delay       (* "based on boot-args, Phase 2 using delay of %lu ms." *)
  | MsgNoPhase2Delay     (* "No Phase 2 delay specified, using Phase 1 delay of %lu ms." *)
  | MsgRangeTruncated    (* "lb_range larger than lb_sleep, truncating to %ld" *)
  | MsgPhase1Random      (* "Phase 1 delays will be random, between %lu and %lu ms." *)
  | MsgRange2Truncated   (* "lb_range2 larger than lb_delay2, truncating to %ld" *)
  | MsgPhase2Random      (* "Phase 2 delays will be random, between %lu and %lu ms." *)
  | MsgFirstTime         (* "Start - First time through, trying to place hook..." *)
  | MsgPatternNotFound   (* "Hook byte pattern not found, HOOK NOT PLACED." *)
  | MsgHookPlaced        (* "Hook placed successfully.  Count = %d :: %d,%d,%d,%d,%d" *)
  | MsgHookLoop          (* HookMessage: "PCI LOOP # %2ld %s delay %4ld ms (%08lx)" *)
  | MsgBadMagic          (* "Latebloom KLOOKUP: BAD MAGIC HEADER" *)
  | MsgNoLinkedit        (* "Latebloom KLOOKUP: __LINKEDIT NOT FOUND" *)
  | MsgNoSymtab          (* "Latebloom KLOOKUP: LC_SYMTAB NOT FOUND" *)
  | MsgSymbolNotFound.   (* "Latebloom KLOOKUP: SYMBOL '%s' NOT FOUND" *)

Inductive event : Type :=
  | Printf (msg : message) (args : list Z)
  | IOLog (msg : message)
  | IOSleep (ms : Z)
  | Unslide (addr : Z)                 (* vm_kernel_unslide_or_perm_external *)
  | CallBootArgs (fn : Z)              (* the call through the _PE_boot_args pointer *)
  | Cli
  | Sti
  | WriteCR0 (v : Z)
  | CdevswAdd (slot : Z)
  | DevfsMakeNode (dev : Z) (perm : Z).

Definition trace := list event.

(** ** Constants of [cfuncs.c] and [klookup.h] *)

Definition MILLISECONDS_PER_SECOND : Z := 1000.
Definition HOOK_WINDOW_SIZE : Z := 3144.
Definition MAX_ARG_DIGITS : nat := 4.
Definition DEFAULT_SLEEP : Z := 60.
Definition STARTING_DEVSW_SLOT : Z := -24.
Definition BIGSUR_XNU_MAJOR_VERSION : Z := 20.

(** ** The module variables of [cfuncs.c] *)

Record statics : Type := mkStatics {
  BootArgs : Z;
  lb_jump_address : Z;
  WhichPattern : Z;
  lb_PCI_counter : Z;
  ProbeAddress : Z;
  SleepValue : Z;          (* unsigned long *)
  lb_DebugLevel : Z;       (* long *)
  lb_RandRange : Z;        (* long *)
  CurrentThread : Z;
  lb_AltSleepValue : Z;    (* long, -1: no Phase 2 sleep specified *)
  lb_AltRandRange : Z;     (* long, -1: unset *)
  fBaseDev : Z;
  MajorDev : Z;
  fDeviceNode : Z
}.

(** The initializers of the source. *)
Definition initial_statics : statics :=
  {| BootArgs := 0; lb_jump_address := 0; WhichPattern := 0;
     lb_PCI_counter := 0; ProbeAddress := 0; SleepValue := 0;
     lb_DebugLevel := 0; lb_RandRange := 0; CurrentThread := 0;
     lb_AltSleepValue := -1; lb_AltRandRange := -1;
     fBaseDev := 0; MajorDev := 0; fDeviceNode := 0 |}.

Definition set_BootArgs (v : Z) (s : statics) : statics :=
  mkStatics v (lb_jump_address s) (WhichPattern s) (lb_PCI_counter s)
    (ProbeAddress s) (SleepValue s) (lb_DebugLevel s) (lb_RandRange s)
    (CurrentThread s) (lb_AltSleepValue s) (lb_AltRandRange s)
    (fBaseDev s) (MajorDev s) (fDeviceNode s).
Definition set_lb_jump_address (v : Z) (s : statics) : statics :=
  mkStatics (BootArgs s) v (WhichPattern s) (lb_PCI_counter s)
    (ProbeAddress s) (SleepValue s) (lb_DebugLevel s) (lb_RandRange s)
    (CurrentThread s) (lb_AltSleepValue s) (lb_AltRandRange s)
    (fBaseDev s) (MajorDev s) (fDeviceNode s).
Definition set_WhichPattern (v : Z) (s : statics) : statics :=
  mkStatics (BootArgs s) (lb_jump_address s) v (lb_PCI_counter s)
    (ProbeAddress s) (SleepValue s) (lb_DebugLevel s) (lb_RandRange s)
    (CurrentThread s) (lb_AltSleepValue s) (lb_AltRandRange s)
    (fBaseDev s) (MajorDev s) (fDeviceNode s).
Definition set_lb_PCI_counter (v : Z) (s : statics) : statics :=
  mkStatics (BootArgs s) (lb_jump_address s) (WhichPattern s) v
    (ProbeAddress s) (SleepValue s) (lb_DebugLevel s) (lb_RandRange s)
    (CurrentThread s) (lb_AltSleepValue s) (lb_AltRandRange s)
    (fBaseDev s) (MajorDev s) (fDeviceNode s).
Definition set_ProbeAddress (v : Z) (s : statics) : statics :=
  mkStatics (BootArgs s) (lb_jump_address s) (WhichPattern s) (lb_PCI_counter s)
    v (SleepValue s) (lb_DebugLevel s) (lb_RandRange s)
    (CurrentThread s) (lb_AltSleepValue s) (lb_AltRandRange s)
    (fBaseDev s) (MajorDev s) (fDeviceNode s).
Definition set_SleepValue (v : Z) (s : statics) : statics :=
  mkStatics (BootArgs s) (lb_jump_address s) (WhichPattern s) (lb_PCI_counter s)
    (ProbeAddress s) v (lb_DebugLevel s) (lb_RandRange s)
    (CurrentThread s) (lb_AltSleepValue s) (lb_AltRandRange s)
    (fBaseDev s) (MajorDev s) (fDeviceNode s).
Definition set_lb_DebugLevel (v : Z) (s : statics) : statics :=
  mkStatics (BootArgs s) (lb_jump_address s) (WhichPattern s) (lb_PCI_counter s)
    (ProbeAddress s) (SleepValue s) v (lb_RandRange s)
    (CurrentThread s) (lb_AltSleepValue s) (lb_AltRandRange s)
    (fBaseDev s) (MajorDev s) (fDeviceNode s).
Definition set_lb_RandRange (v : Z) (s : statics) : statics :=
  mkStatics (BootArgs s) (lb_jump_address s) (WhichPattern s) (lb_PCI_counter s)
    (ProbeAddress s) (SleepValue s) (lb_DebugLevel s) v
    (CurrentThread s) (lb_AltSleepValue s) (lb_AltRandRange s)
    (fBaseDev s) (MajorDev s) (fDeviceNode s).
Definition set_CurrentThread (v : Z) (s : statics) : statics :=
  mkStatics (BootArgs s) (lb_jump_address s) (WhichPattern s) (lb_PCI_counter s)
    (ProbeAddress s) (SleepValue s) (lb_DebugLevel s) (lb_RandRange s)
    v (lb_AltSleepValue s) (lb_AltRandRange s)
    (fBaseDev s) (MajorDev s) (fDeviceNode s).
Definition set_lb_AltSleepValue (v : Z) (s : statics) : statics :=
  mkStatics (BootArgs s) (lb_jump_address s) (WhichPattern s) (lb_PCI_counter s)
    (ProbeAddress s) (SleepValue s) (lb_DebugLevel s) (lb_RandRange s)
    (CurrentThread s) v (lb_AltRandRange s)
    (fBaseDev s) (MajorDev s) (fDeviceNode s).
Definition set_lb_AltRandRange (v : Z) (s : statics) : statics :=
  mkStatics (BootArgs s) (lb_jump_address s) (WhichPattern s) (lb_PCI_counter s)
    (ProbeAddress s) (SleepValue s) (lb_DebugLevel s) (lb_RandRange s)
    (CurrentThread s) (lb_AltSleepValue s) v
    (fBaseDev s) (MajorDev s) (fDeviceNode s).
Definition set_fBaseDev (v : Z) (s : statics) : statics :=
  mkStatics (BootArgs s) (lb_jump_address s) (WhichPattern s) (lb_PCI_counter s)
    (ProbeAddress s) (SleepValue s) (lb_DebugLevel s) (lb_RandRange s)
    (CurrentThread s) (lb_AltSleepValue s) (lb_AltRandRange s)
    v (MajorDev s) (fDeviceNode s).
Definition set_MajorDev (v : Z) (s : statics) : statics :=
  mkStatics (BootArgs s) (lb_jump_address s) (WhichPattern s) (lb_PCI_counter s)
    (ProbeAddress s) (SleepValue s) (lb_DebugLevel s) (lb_RandRange s)
    (CurrentThread s) (lb_AltSleepValue s) (lb_AltRandRange s)
    (fBaseDev s) v (fDeviceNode s).
Definition set_fDeviceNode (v : Z) (s : statics) : statics :=
  mkStatics (BootArgs s) (lb_jump_address s) (WhichPattern s) (lb_PCI_counter s)
    (ProbeAddress s) (SleepValue s) (lb_DebugLevel s) (lb_RandRange s)
    (CurrentThread s) (lb_AltSleepValue s) (lb_AltRandRange s)
    (fBaseDev s) (MajorDev s) v.

(** ** The hook code [latebloom_hook] *)

Module Trampoline.

(** [rdtsc] leaves the low 32 bits of the time-stamp counter in [%eax]; the
    hook clears [%edx] right after ("we only care about the low 32 bits"). *)
Definition rdtsc_eax (tsc : Z) : Z := wrap32 tsc.

(** The value of [%edi] at [LB_DoSleep], for a phase whose sleep value is
    [sleep] and whose range is [range]; [tsc1] and [tsc2] are the counter at
    the two [rdtsc] instructions.  Instruction by instruction:
<<
     movl  sleep,%edi ; cmpl $0,range ; jz LB_DoSleep
     rdtsc ; xorl %edx,%edx ; divl range      -- %edx = %eax mod range
     movl  %edx,%ebx ; rdtsc ; movl %ebx,%edx ; negl %edx
     testl $0x01,%eax ; cmovnel %edx,%ebx ; addl %ebx,%edi
>> *)
Definition hook_delay (sleep range tsc1 tsc2 : Z) : Z :=
  let edi := wrap32 sleep in
  if wrap32 range =? 0 then edi
  else
    let edx := rdtsc_eax tsc1 mod wrap32 range in
    let ebx := edx in
    let eax := rdtsc_eax tsc2 in
    let edx := wrap32 (- ebx) in
    let ebx := if Z.land eax 1 =? 0 then ebx else edx in
    wrap32 (edi + ebx).

(** What one invocation of the hook reads from the machine. *)
Record hook_input : Type := {
  gs_thread : Z;          (* %gs:0x10, current_thread() *)
  tsc1 : Z;               (* the counter at the first rdtsc *)
  tsc2 : Z;               (* the counter at the second rdtsc *)
  devfs_result : Z        (* what devfs_make_node would return *)
}.

(** [incl _lb_PCI_counter(%rip)]: a 32-bit increment of the low half of the
    64-bit variable. *)
Definition incl64 (v : Z) : Z :=
  (v / 2 ^ 32) * 2 ^ 32 + wrap32 (wrap32 v + 1).

(** From [LB_DoSleep] to [NoDebugOutput]. *)
Definition do_sleep (i : hook_input) (edi : Z) (s : statics) : statics * trace :=
  let s' := set_lb_PCI_counter (incl64 (lb_PCI_counter s)) s in
  let dbg :=
    if Z.land (wrap32 (lb_DebugLevel s)) 1 =? 0 then []
    else [Printf MsgHookLoop
            [wrap32 (lb_PCI_counter s');
             (if gs_thread i =? CurrentThread s then 1 else 2);
             edi;
             wrap32 (gs_thread i)]] in
  (s', IOSleep edi :: dbg).

(** One run of the hook, from [_latebloom_hook] to [_lb_hook_exit]. *)
Definition latebloom_hook (i : hook_input) (s : statics) : statics * trace :=
  (* movq _CurrentThread,%rax ; testq ; jnz CTloaded ; save %gs:0x10 *)
  let s := if CurrentThread s =? 0 then set_CurrentThread (gs_thread i) s else s in
  let rax := CurrentThread s in
  if rax =? gs_thread i then
    (* LB_Phase1 *)
    do_sleep i (hook_delay (SleepValue s) (lb_RandRange s) (tsc1 i) (tsc2 i)) s
  else
    (* Phase 2: try to create the device node until it exists *)
    let '(s, t) :=
      if fDeviceNode s =? 0
      then (set_fDeviceNode (devfs_result i) s,
            [DevfsMakeNode (wrap32 (fBaseDev s)) 256])
      else (s, []) in
    if wrap32 (lb_AltSleepValue s) =? 0 then (s, t)      (* jz NoDebugOutput *)
    else
      let '(s', t') :=
        do_sleep i (hook_delay (lb_AltSleepValue s) (lb_AltRandRange s)
                      (tsc1 i) (tsc2 i)) s in
      (s', t ++ t').

End Trampoline.

(** ** The symbol resolver of [klookup.c] *)

Module Klookup.

(** Constants and record layouts of [<mach-o/loader.h>] and [<mach-o/nlist.h>]
    (x86-64): the offsets of the fields the code reads. *)
Definition MH_MAGIC_64 : Z := 0xfeedfacf.
Definition LC_SEGMENT_64 : Z := 0x19.
Definition LC_SYMTAB : Z := 0x2.
Definition SEG_LINKEDIT : list byte := str "__LINKEDIT".
Definition sizeof_mach_header_64 : Z := 32.
Definition sizeof_segment_command_64 : Z := 72.
Definition sizeof_nlist_64 : Z := 16.
Definition off_magic : Z := 0.        (* mach_header_64.magic *)
Definition off_sizeofcmds : Z := 20.  (* mach_header_64.sizeofcmds *)
Definition off_cmd : Z := 0.          (* load_command.cmd *)
Definition off_cmdsize : Z := 4.      (* load_command.cmdsize *)
Definition off_segname : Z := 8.      (* segment_command_64.segname *)
Definition off_vmaddr : Z := 24.      (* segment_command_64.vmaddr *)
Definition off_fileoff : Z := 40.     (* segment_command_64.fileoff *)
Definition off_symoff : Z := 8.       (* symtab_command.symoff *)
Definition off_nsyms : Z := 12.       (* symtab_command.nsyms *)
Definition off_stroff : Z := 16.      (* symtab_command.stroff *)
Definition off_n_strx : Z := 0.       (* nlist_64.n_un.n_strx *)
Definition off_n_value : Z := 8.      (* nlist_64.n_value *)

(** Constants of [klookup.c]. *)
Definition KERNEL_BASE : Z := 0xffffff8000200000.
Definition LB_SEG_PRELINK_TEXT : list byte := str "__PRELINK_TEXT".

(** The [while] loop of [FindSegment64].  The loop runs as long as the
    command sizes say; [None] is "out of fuel", [Some 0] is [NULL]. *)
Fixpoint FindSegment64_loop (fuel : nat) (m : mem) (MachHeader : Z)
    (SegmentName : list byte) (LoadCommands : Z) : option Z :=
  match fuel with
  | O => None
  | S fuel' =>
      if LoadCommands <? wrap64 (MachHeader + load32 m (MachHeader + off_sizeofcmds))
      then
        if (load32 m (LoadCommands + off_cmd) =? LC_SEGMENT_64)
           && strcmp_eq m (LoadCommands + off_segname) SegmentName
        then Some LoadCommands
        else FindSegment64_loop fuel' m MachHeader SegmentName
               (wrap64 (LoadCommands + load32 m (LoadCommands + off_cmdsize)))
      else Some 0
  end.

Definition FindSegment64 (fuel : nat) (m : mem) (MachHeader : Z)
    (SegmentName : list byte) : option Z :=
  FindSegment64_loop fuel m MachHeader SegmentName
    (wrap64 (MachHeader + sizeof_mach_header_64)).

(** The [while] loop of [SymbolLookup] that looks for [LC_SYMTAB]. *)
Fixpoint symtab_loop (fuel : nat) (m : mem) (MachHeader : Z)
    (LoadCommands : Z) : option Z :=
  match fuel with
  | O => None
  | S fuel' =>
      if LoadCommands <? wrap64 (MachHeader + load32 m (MachHeader + off_sizeofcmds))
      then
        if load32 m (LoadCommands + off_cmd) =? LC_SYMTAB
        then Some LoadCommands
        else symtab_loop fuel' m MachHeader
               (wrap64 (LoadCommands + load32 m (LoadCommands + off_cmdsize)))
      else Some 0
  end.

(** The [for] loop over the name list: [n] entries are left, [tmpNameList]
    points at the current one.  Returns [Address]. *)
Fixpoint nlist_loop (n : nat) (m : mem) (StringTable : Z) (Symbol : list byte)
    (tmpNameList : Z) : Z :=
  match n with
  | O => 0
  | S n' =>
      let str := wrap64 (StringTable + load32 m (tmpNameList + off_n_strx)) in
      if strcmp_eq m str Symbol
      then load64 m (tmpNameList + off_n_value)
      else nlist_loop n' m StringTable Symbol (wrap64 (tmpNameList + sizeof_nlist_64))
  end.

(** The function-local statics of [SymbolLookup]. *)
Record ksyms : Type := mkKsyms {
  SymbolTable : Z;
  StringTable : Z;
  NameList : Z
}.

Definition initial_ksyms : ksyms :=
  {| SymbolTable := 0; StringTable := 0; NameList := 0 |}.

(** What [SymbolLookup] takes from the running kernel besides memory. *)
Record kernel : Type := mkKernel {
  version_major : Z;
  printf_addr : Z;           (* (void * )printf *)
  unslide : Z -> Z           (* what vm_kernel_unslide_or_perm_external stores *)
}.

(** The part of [SymbolLookup] after the [if]: the scan of the name list. *)
Definition lookup_scan (m : mem) (st : ksyms) (Symbol : list byte) : Z * trace :=
  let nsyms := load32 m (SymbolTable st + off_nsyms) in
  let Address := nlist_loop (Z.to_nat nsyms) m (StringTable st) Symbol (NameList st) in
  (Address,
   if Address =? 0 then [Printf MsgSymbolNotFound []; IOLog MsgSymbolNotFound]
   else []).

(** The body of the [if (SymbolTable == NULL || ...)]: [inl] is an early
    [return NULL], [inr] falls through to the scan. *)
Definition resolve (fuel : nat) (k : kernel) (m : mem) (st : ksyms)
  : option ((ksyms * trace) + (ksyms * trace)) :=
  let SlideAddress := unslide k (printf_addr k) in
  let Slide := wrap64 (printf_addr k - SlideAddress) in
  let MachHeader := wrap64 (Slide + KERNEL_BASE) in
  let t := [Unslide (printf_addr k)] in
  if negb (load32 m (MachHeader + off_magic) =? MH_MAGIC_64)
  then Some (inl (st, t ++ [Printf MsgBadMagic []; IOLog MsgBadMagic]))
  else
    match
      (if BIGSUR_XNU_MAJOR_VERSION <=? version_major k
       then
         match FindSegment64 fuel m MachHeader LB_SEG_PRELINK_TEXT with
         | None => None
         | Some LinkEdit =>
             Some (if LinkEdit =? 0 then MachHeader
                   else load64 m (LinkEdit + off_vmaddr))
         end
       else Some MachHeader)
    with
    | None => None
    | Some MachHeader =>
        match FindSegment64 fuel m MachHeader SEG_LINKEDIT with
        | None => None
        | Some LinkEdit =>
            if LinkEdit =? 0
            then Some (inl (st, t ++ [Printf MsgNoLinkedit []; IOLog MsgNoLinkedit]))
            else
              match symtab_loop fuel m MachHeader
                      (wrap64 (MachHeader + sizeof_mach_header_64)) with
              | None => None
              | Some SymTab =>
                  let st := mkKsyms SymTab (StringTable st) (NameList st) in
                  if SymTab =? 0
                  then Some (inl (st, t ++ [Printf MsgNoSymtab []; IOLog MsgNoSymtab]))
                  else
                    let delta :=
                      wrap64 (load64 m (LinkEdit + off_vmaddr)
                              - load64 m (LinkEdit + off_fileoff)) in
                    let st :=
                      mkKsyms SymTab
                        (wrap64 (delta + load32 m (SymTab + off_stroff)))
                        (wrap64 (delta + load32 m (SymTab + off_symoff))) in
                    Some (inr (st, t))
              end
        end
    end.

(** [SymbolLookup]: the returned address ([0] is [NULL]), the statics after
    the call, and the calls made.  [None] when the fuel runs out. *)
Definition SymbolLookup (fuel : nat) (k : kernel) (m : mem) (st : ksyms)
    (Symbol : list byte) : option (Z * ksyms * trace) :=
  if (SymbolTable st =? 0) || (StringTable st =? 0) || (NameList st =? 0)
  then
    match resolve fuel k m st with
    | None => None
    | Some (inl (st', t)) => Some (0, st', t)
    | Some (inr (st', t)) =>
        let '(Address, t') := lookup_scan m st' Symbol in
        Some (Address, st', t ++ t')
    end
  else
    let '(Address, t') := lookup_scan m st Symbol in
    Some (Address, st, t').

(** *** Vocabulary for the statements about the resolver *)

(** The C string [s] stands at address [a]. *)
Definition cstring_at (m : mem) (a : Z) (s : list byte) : Prop :=
  (forall j, (j < length s)%nat -> m (a + Z.of_nat j) = nth j s 0) /\
  m (a + Z.of_nat (length s)) = 0 /\
  Forall (fun c => c <> 0) s.

(** A load command as the resolver reads it: the two fields of
    [struct load_command] and, for a segment command, the name. *)
Record load_command : Type := mkCommand {
  cmd : Z;
  cmdsize : Z;
  segname : list byte
}.

Definition sizeof_load_command : Z := 8.

(** The records [cmds] stand one after the other from address [p] on, each
    [cmdsize] bytes after the one before.  The name of a segment command is
    the C string in its [segname] field, as [strcmp] reads it: for a name
    that fills all 16 bytes of the field the terminating NUL is the low byte
    of [vmaddr], which is 0 for an aligned segment. *)
Fixpoint commands_at (m : mem) (p : Z) (cmds : list load_command) : Prop :=
  match cmds with
  | [] => True
  | c :: rest =>
      load32 m (p + off_cmd) = cmd c /\
      load32 m (p + off_cmdsize) = cmdsize c /\
      (cmd c = LC_SEGMENT_64 -> cstring_at m (p + off_segname) (segname c)) /\
      commands_at m (p + cmdsize c) rest
  end.

Definition total_size (cmds : list load_command) : Z :=
  fold_right (fun c n => cmdsize c + n) 0 cmds.

(** A command has at least the size of its record. *)
Definition command_ok (c : load_command) : Prop :=
  sizeof_load_command <= cmdsize c /\
  (cmd c = LC_SEGMENT_64 -> sizeof_segment_command_64 <= cmdsize c).

(** A Mach-O image at [MachHeader] whose load commands are [cmds]: they
    follow the header and fill [sizeofcmds] bytes. *)
Definition image_at (m : mem) (MachHeader : Z) (cmds : list load_command) : Prop :=
  0 <= MachHeader /\
  MachHeader + sizeof_mach_header_64 + total_size cmds < 2 ^ 64 /\
  load32 m (MachHeader + off_sizeofcmds) = total_size cmds /\
  commands_at m (MachHeader + sizeof_mach_header_64) cmds /\
  Forall command_ok cmds.

(** [c] is a segment command named [name]. *)
Definition is_segment (name : list byte) (c : load_command) : Prop :=
  cmd c = LC_SEGMENT_64 /\ segname c = name.

(** An entry of the name list: its string-table offset, the string there,
    and its value. *)
Record symbol : Type := mkSymbol {
  n_strx : Z;
  n_name : list byte;
  n_value : Z
}.

(** The entries [entries] stand from address [p] on, their strings in the
    string table at [strtab]. *)
Fixpoint nlist_at (m : mem) (strtab : Z) (p : Z) (entries : list symbol) : Prop :=
  match entries with
  | [] => True
  | e :: rest =>
      load32 m (p + off_n_strx) = n_strx e /\
      cstring_at m (wrap64 (strtab + n_strx e)) (n_name e) /\
      load64 m (p + off_n_value) = n_value e /\
      nlist_at m strtab (p + sizeof_nlist_64) rest
  end.

(** The statics hold a resolved symbol table. *)
Definition populated (st : ksyms) : Prop :=
  SymbolTable st <> 0 /\ StringTable st <> 0 /\ NameList st <> 0.

(** The symbol table of [st] holds the entries [entries]. *)
Definition symtab_at (m : mem) (st : ksyms) (entries : list symbol) : Prop :=
  load32 m (SymbolTable st + off_nsyms) = Z.of_nat (length entries) /\
  0 <= NameList st /\
  NameList st + sizeof_nlist_64 * Z.of_nat (length entries) < 2 ^ 64 /\
  nlist_at m (StringTable st) (NameList st) entries.

(** A sequence of calls of [SymbolLookup], the statics going from one call
    to the next: the addresses returned, the statics at the end, and all the
    calls made. *)
Fixpoint lookups (fuel : nat) (k : kernel) (m : mem) (st : ksyms)
    (names : list (list byte)) : option (list Z * ksyms * trace) :=
  match names with
  | [] => Some ([], st, [])
  | name :: rest =>
      match SymbolLookup fuel k m st name with
      | None => None
      | Some (a, st1, t1) =>
          match lookups fuel k m st1 rest with
          | None => None
          | Some (addrs, st2, t2) => Some (a :: addrs, st2, t1 ++ t2)
          end
      end
  end.

Definition is_unslide (e : event) : bool :=
  match e with Unslide _ => true | _ => false end.

(** How often a trace goes into the resolution (its first step is the call
    of [vm_kernel_unslide_or_perm_external]). *)
Definition resolutions (t : trace) : nat := length (filter is_unslide t).

End Klookup.

(** ** The boot-args parser of [latebloom_start] *)

Module Config.

(** A pointer into the boot-args string is the list of the bytes from there
    on; the terminating NUL is read past its end. *)
Definition char_at (ptr : list byte) (j : nat) : byte := nth j ptr 0.

(** [c >= '0' && c <= '9'] *)
Definition is_digit (c : byte) : bool := (48 <=? c) && (c <=? 57).

(** [for (; j < MAX_ARG_DIGITS && ptr[j] >= '0' && ptr[j] <= '9'; ++j)
       lbval = (lbval * 10) + (ptr[j] - '0');]
    with [n = MAX_ARG_DIGITS - j] rounds left; returns [lbval] and [j]. *)
Fixpoint digit_loop (n : nat) (ptr : list byte) (j : nat) (lbval : Z) : Z * nat :=
  match n with
  | O => (lbval, j)
  | S n' =>
      if is_digit (char_at ptr j)
      then digit_loop n' ptr (S j) (lbval * 10 + (char_at ptr j - 48))
      else (lbval, j)
  end.

(** The loop of the [latebloom=] branch, which starts from [lbval = -1]. *)
Fixpoint latebloom_loop (n : nat) (ptr : list byte) (j : nat) (lbval : Z) : Z * nat :=
  match n with
  | O => (lbval, j)
  | S n' =>
      if is_digit (char_at ptr j)
      then
        let lbval := if lbval =? -1 then 0 else lbval in
        latebloom_loop n' ptr (S j) (lbval * 10 + (char_at ptr j - 48))
      else (lbval, j)
  end.

Definition ExtractArgValue (StartPos : list byte) : Z :=
  fst (digit_loop MAX_ARG_DIGITS StartPos 0 0).

(** [!strncmp(s, zstr, sizeof(zstr) - 1)] for a NUL-free [zstr]. *)
Fixpoint strncmp_eq (s zstr : list byte) {struct zstr} : bool :=
  match zstr with
  | [] => true
  | c :: z' =>
      match s with
      | [] => false
      | d :: s' => (d =? c) && strncmp_eq s' z'
      end
  end.

(** [BOOTARG_MATCH(zstr)] at [s = &BootArgs[i]]; [arglen] is [length zstr]. *)
Definition BOOTARG_MATCH (s : list byte) (zstr : string) : bool :=
  strncmp_eq s (str zstr).
Definition arglen (zstr : string) : nat := length (str zstr).

(** [EXTRACT_LBLOOM_VALUE]: [ptr += j + 1], then the digit loop from
    [lbval = 0]; gives the new [ptr], [j] and [lbval]. *)
Definition EXTRACT_LBLOOM_VALUE (ptr : list byte) (j : nat) : list byte * nat * Z :=
  let ptr := skipn (S j) ptr in
  let '(lbval, j) := digit_loop MAX_ARG_DIGITS ptr 0 0 in
  (ptr, j, lbval).

Definition comma : byte := 44.

(** How the parser ends: [Abort] is the early [return] of the [=0] cases. *)
Inductive outcome : Type :=
  | Proceed (st : statics) (t : trace)
  | Abort (st : statics) (t : trace).

Definition is_abort (o : outcome) : bool :=
  match o with Abort _ _ => true | Proceed _ _ => false end.

Definition abort_sleep : Z := 4 * MILLISECONDS_PER_SECOND.

(** The [lbloom=] branch; [ptr] is [&BootArgs[i + arglen]]. *)
Definition lbloom_branch (ptr : list byte) (st : statics) (t : trace) : outcome :=
  let st := set_lb_DebugLevel 0 (set_lb_RandRange 0 (set_SleepValue 0 st)) in
  let '(lbval, j) := digit_loop MAX_ARG_DIGITS ptr 0 0 in
  if lbval =? 0
  then Abort st (t ++ [Printf MsgLbloomZero []; IOSleep abort_sleep])
  else
    let st := set_SleepValue lbval st in
    (* lb_range *)
    let '(ptr, j, st) :=
      if char_at ptr j =? comma
      then let '(ptr, j, lbval) := EXTRACT_LBLOOM_VALUE ptr j in
           (ptr, j, set_lb_RandRange lbval st)
      else (ptr, j, st) in
    (* lb_debug *)
    let '(ptr, j, st) :=
      if char_at ptr j =? comma
      then let '(ptr, j, lbval) := EXTRACT_LBLOOM_VALUE ptr j in
           (ptr, j, set_lb_DebugLevel lbval st)
      else (ptr, j, st) in
    (* lb_delay2 *)
    let '(ptr, j, st) :=
      if char_at ptr j =? comma
      then let '(ptr, j, lbval) := EXTRACT_LBLOOM_VALUE ptr j in
           (ptr, j,
            set_lb_AltSleepValue (if Nat.eqb j 0 then SleepValue st else lbval) st)
      else (ptr, j, st) in
    (* lb_range2 *)
    let '(_, _, st) :=
      if char_at ptr j =? comma
      then let '(ptr, j, lbval) := EXTRACT_LBLOOM_VALUE ptr j in
           (ptr, j, set_lb_AltRandRange lbval st)
      else (ptr, j, st) in
    Proceed st t.

(** One round of [for (i = 0; BootArgs[i] != '\0'; ++i)]: the [if]/[else if]
    chain at [s = &BootArgs[i]]. *)
Definition scan_step (s : list byte) (st : statics) (t : trace) : outcome :=
  if BOOTARG_MATCH s "latebloom=" then
    let ptr := skipn (arglen "latebloom=") s in
    let '(lbval, _) := latebloom_loop MAX_ARG_DIGITS ptr 0 (-1) in
    if lbval <=? 0
    then Abort st (t ++ [Printf MsgLatebloomZero []; IOSleep abort_sleep])
    else Proceed (set_SleepValue lbval st) t
  else if BOOTARG_MATCH s "lb_debug=" then
    let v := ExtractArgValue (skipn (arglen "lb_debug=") s) in
    Proceed (set_lb_DebugLevel v st) (t ++ [Printf MsgDebugSet [v]])
  else if BOOTARG_MATCH s "lb_range=" then
    let v := ExtractArgValue (skipn (arglen "lb_range=") s) in
    Proceed (set_lb_RandRange v st) (t ++ [Printf MsgRangeSet [v]])
  else if BOOTARG_MATCH s "lb_delay2=" then
    let v := ExtractArgValue (skipn (arglen "lb_delay2=") s) in
    Proceed (set_lb_AltSleepValue v st) (t ++ [Printf MsgDelay2Set [v]])
  else if BOOTARG_MATCH s "lb_range2=" then
    let v := ExtractArgValue (skipn (arglen "lb_range2=") s) in
    Proceed (set_lb_AltRandRange v st) (t ++ [Printf MsgRange2Set [v]])
  else if BOOTARG_MATCH s "lbloom=" then
    lbloom_branch (skipn (arglen "lbloom=") s) st t
  else Proceed st t.

(** The whole [for] loop over the boot-args, from [s = &BootArgs[i]] on.  The
    string ends at its first NUL: at the end of the list, or at a 0 in it. *)
Fixpoint scan (s : list byte) (st : statics) (t : trace) : outcome :=
  match s with
  | [] => Proceed st t
  | c :: rest =>
      if c =? 0 then Proceed st t
      else
        match scan_step s st t with
        | Abort st' t' => Abort st' t'
        | Proceed st' t' => scan rest st' t'
        end
  end.

(** The defaults set after the loop.  [lb_RandRange > SleepValue] compares a
    [long] with an [unsigned long], hence as unsigned numbers; the Phase 2
    comparison is between two [long]s. *)
Definition defaults (st : statics) (t : trace) : statics * trace :=
  let '(st, t) :=
    if SleepValue st =? 0
    then (set_SleepValue DEFAULT_SLEEP st, t ++ [Printf MsgDefaultDelay [DEFAULT_SLEEP]])
    else (st, t ++ [Printf MsgPhase1Delay [SleepValue st]]) in
  let '(st, t) :=
    if negb (lb_AltSleepValue st =? -1)
    then (st, t ++ [Printf MsgPhase2Delay [wrap64 (lb_AltSleepValue st)]])
    else (set_lb_AltSleepValue (SleepValue st) st,
          t ++ [Printf MsgNoPhase2Delay [SleepValue st]]) in
  let '(st, t) :=
    if negb (lb_RandRange st =? 0)
    then
      let '(st, t) :=
        if wrap64 (lb_RandRange st) >? SleepValue st
        then (set_lb_RandRange (SleepValue st) st,
              t ++ [Printf MsgRangeTruncated [SleepValue st]])
        else (st, t) in
      (st, t ++ [Printf MsgPhase1Random
                   [wrap64 (SleepValue st - lb_RandRange st);
                    wrap64 (SleepValue st + lb_RandRange st)]])
    else (st, t) in
  if negb (lb_AltRandRange st =? 0)
  then
    let st :=
      if lb_AltRandRange st =? -1
      then set_lb_AltRandRange (lb_RandRange st) st else st in
    let '(st, t) :=
      if lb_AltRandRange st >? lb_AltSleepValue st
      then (set_lb_AltRandRange (lb_AltSleepValue st) st,
            t ++ [Printf MsgRange2Truncated [lb_AltSleepValue st]])
      else (st, t) in
    if negb (lb_AltRandRange st =? 0)
    then (st, t ++ [Printf MsgPhase2Random
                      [wrap64 (lb_AltSleepValue st - lb_AltRandRange st);
                       wrap64 (lb_AltSleepValue st + lb_AltRandRange st)]])
    else (st, t)
  else (st, t).

(** The parser as a whole: the scan of the boot-args [bootargs], then the
    defaults.  [t] is the trace so far. *)
Definition ParseConfig (bootargs : list byte) (st : statics) (t : trace) : outcome :=
  match scan bootargs st t with
  | Abort st' t' => Abort st' t'
  | Proceed st' t' => let '(st'', t'') := defaults st' t' in Proceed st'' t''
  end.

(** *** Vocabulary for the statements about the parser *)

(** [strlen]: the number of bytes before the first NUL. *)
Fixpoint strlen (s : list byte) : nat :=
  match s with
  | [] => O
  | c :: rest => if c =? 0 then O else S (strlen rest)
  end.

(** A delay key stands at [s] and its value reads as 0: [s] starts with
    [latebloom=] or with [lbloom=], and the digits behind the key (at most
    [MAX_ARG_DIGITS] of them are read, possibly none) make the number 0. *)
Definition delay_key_zero (s : list byte) : bool :=
  (BOOTARG_MATCH s "latebloom="
   && (ExtractArgValue (skipn (arglen "latebloom=") s) =? 0))
  || (BOOTARG_MATCH s "lbloom="
      && (ExtractArgValue (skipn (arglen "lbloom=") s) =? 0)).

(** A field of the composite key as it is written: decimal digits, at most
    [MAX_ARG_DIGITS] of them, possibly none. *)
Definition field (d : list byte) : Prop :=
  Forall (fun c => is_digit c = true) d /\ (length d <= MAX_ARG_DIGITS)%nat.

(** The number a field denotes; 0 for the empty field. *)
Definition number (d : list byte) : Z :=
  fold_left (fun v c => v * 10 + (c - 48)) d 0.

(** The field [d] ends where [rest] begins: [d] is full, or no digit
    follows. *)
Definition field_end (d rest : list byte) : Prop :=
  length d = MAX_ARG_DIGITS \/ is_digit (char_at rest 0) = false.

(** Fields written one after the other with commas between them. *)
Fixpoint join (fs : list (list byte)) : list byte :=
  match fs with
  | [] => []
  | [f] => f
  | f :: fs' => f ++ comma :: join fs'
  end.

(** Every value the keys set has at most [MAX_ARG_DIGITS] digits; the Phase 2
    variables may still hold their initial -1. *)
Definition ranged (st : statics) : Prop :=
  0 <= SleepValue st <= 9999 /\ 0 <= lb_RandRange st <= 9999 /\
  -1 <= lb_AltSleepValue st <= 9999 /\ -1 <= lb_AltRandRange st <= 9999.

End Config.

(** ** The pattern scan and the hook installer of [latebloom_start] *)

Module Hook.

Definition BytePattern113 : list byte :=
  [0x48; 0xc7; 0x45; 0xd0; 0x00; 0x00; 0x00; 0x00;
   0x49; 0x8b; 0x06;
   0x4c; 0x89; 0xf7].
Definition BytePattern115b2 : list byte :=
  [0x48; 0xc7; 0x45; 0xd0; 0x00; 0x00; 0x00; 0x00;
   0x49; 0x8b; 0x07;
   0x4c; 0x89; 0xff].
Definition BytePattern12b3 : list byte :=
  [0x48; 0xc7; 0x45; 0xc8; 0x00; 0x00; 0x00; 0x00;
   0x49; 0x8b; 0x07;
   0x4c; 0x89; 0xff].

(** The catalogue; the [{ NULL, 0 }] entry of the source is the end of the
    list, and every [size] is the length of its pattern. *)
Definition BytePatterns : list (list byte) :=
  [BytePattern113; BytePattern115b2; BytePattern12b3].

(** The inner loop
    [for (WhichPattern = 0; BytePatterns[WhichPattern].Pattern != NULL; ++WhichPattern)]
    at [ptr]; [pats] are the entries from [WhichPattern] on.  Returns
    [lb_jump_address] and [WhichPattern] after the loop. *)
Fixpoint pattern_loop (m : mem) (ptr : Z) (pats : list (list byte))
    (WhichPattern : Z) (lb_jump_address : Z) : Z * Z :=
  match pats with
  | [] => (lb_jump_address, WhichPattern)
  | pat :: pats' =>
      if memcmp_eq m ptr pat
      then (ptr, WhichPattern)                                   (* break *)
      else pattern_loop m ptr pats' (WhichPattern + 1) lb_jump_address
  end.

(** The outer loop
    [for (i = 0; i < HOOK_WINDOW_SIZE && lb_jump_address == 0; ++i, ++ptr)]
    with [n = HOOK_WINDOW_SIZE - i] rounds left. *)
Fixpoint scan_loop (n : nat) (m : mem) (ptr : Z)
    (lb_jump_address WhichPattern : Z) : Z * Z :=
  match n with
  | O => (lb_jump_address, WhichPattern)
  | S n' =>
      if lb_jump_address =? 0
      then
        let '(jump, which) := pattern_loop m ptr BytePatterns 0 lb_jump_address in
        scan_loop n' m (ptr + 1) jump which
      else (lb_jump_address, WhichPattern)
  end.

(** The scan from [ProbeAddress], entered with [lb_jump_address == 0]:
    [lb_jump_address] and [WhichPattern] after it. *)
Definition pattern_scan (m : mem) (ProbeAddress : Z) (WhichPattern : Z) : Z * Z :=
  scan_loop (Z.to_nat HOOK_WINDOW_SIZE) m ProbeAddress 0 WhichPattern.

(** No catalogue entry matches at [a]: every [memcmp] of the inner loop
    fails there. *)
Definition no_match (m : mem) (a : Z) : Prop :=
  forall pat, In pat BytePatterns -> memcmp_eq m a pat = false.

(** [jmp *(%rip)], written as the eight bytes of [$0x25ff]. *)
Definition jmp_rip : Z := 0x25ff.
Definition CR0_WP_MASK : Z := 0xfffffffffffeffff.

(** The patch: the jump at [lb_jump_address], the address of the hook code
    behind it, and the matched pattern copied over the NOPs at
    [lb_hook_exit]. *)
Definition write_hook (m : mem) (jump hook_addr exit_addr : Z) (pat : list byte) : mem :=
  let m := store64 m jump jmp_rip in
  let m := store64 m (wrap64 (jump + 6)) hook_addr in
  store_bytes m exit_addr pat.

End Hook.

(** ** [latebloom_start] *)

(** What [latebloom_start] takes from its surroundings. *)
Record env : Type := mkEnv {
  kern : Klookup.kernel;
  boot_args_ptr : Z;            (* the pointer PE_boot_args() returns *)
  boot_args : list byte;        (* the string at that pointer *)
  latebloom_hook_addr : Z;      (* &latebloom_hook *)
  lb_hook_exit_addr : Z;        (* &lb_hook_exit *)
  cr0 : Z;                      (* %cr0 on entry *)
  cdevsw_add_result : Z;        (* what cdevsw_add returns *)
  devfs_make_node_result : Z    (* what devfs_make_node returns *)
}.

(** Everything the function can change. *)
Record world : Type := mkWorld {
  vars : statics;
  syms : Klookup.ksyms;
  memory : mem;
  calls : trace
}.

(** [inl]: the function has returned; [inr]: it goes on. *)
Definition flow : Type := world + world.

Definition say (t : trace) (w : world) : world :=
  mkWorld (vars w) (syms w) (memory w) (calls w ++ t).

(** The block [if (SleepValue == 0) { ... }]. *)
Definition config_stage (fuel : nat) (e : env) (w : world) : option flow :=
  if SleepValue (vars w) =? 0 then
    (* GET_SYMBOL("_PE_boot_args", BootArgs) *)
    match Klookup.SymbolLookup fuel (kern e) (memory w) (syms w) (str "_PE_boot_args") with
    | None => None
    | Some (v, ks, t) =>
        let w := mkWorld (set_BootArgs v (vars w)) ks (memory w) (calls w ++ t) in
        if v =? 0
        then Some (inl (say [Printf MsgSymbolFailed [];
                             IOSleep (5 * MILLISECONDS_PER_SECOND)] w))
        else
          (* the call through BootArgs; BootArgs then points to the string *)
          let w := mkWorld (set_BootArgs (boot_args_ptr e) (vars w)) (syms w)
                     (memory w) (calls w ++ [CallBootArgs v; Printf MsgBootArgs []]) in
          match Config.ParseConfig (boot_args e) (vars w) (calls w) with
          | Config.Abort st t => Some (inl (mkWorld st (syms w) (memory w) t))
          | Config.Proceed st t => Some (inr (mkWorld st (syms w) (memory w) t))
          end
    end
  else Some (inr w).

(** [(int)v]. *)
Definition to_int (v : Z) : Z := sext32 v.

(** The block [if (lb_jump_address == 0) { ... }]. *)
Definition install_stage (e : env) (w : world) : world :=
  if lb_jump_address (vars w) =? 0 then
    let w := say [Printf MsgFirstTime []] w in
    (* ProbeAddress = the rel32 of the callq before the hook + &latebloom_hook *)
    let rel := sext32 (load32 (memory w) (latebloom_hook_addr e - 4)) in
    let probe := wrap64 (latebloom_hook_addr e + rel) in
    let st := set_ProbeAddress probe (vars w) in
    let '(jump, which) := Hook.pattern_scan (memory w) probe (WhichPattern st) in
    let st := set_WhichPattern which (set_lb_jump_address jump st) in
    if jump =? 0
    then mkWorld st (syms w) (memory w)
           (calls w ++ [Printf MsgPatternNotFound []; IOSleep (4 * MILLISECONDS_PER_SECOND)])
    else
      let m := Hook.write_hook (memory w) jump (latebloom_hook_addr e)
                 (lb_hook_exit_addr e) (nth (Z.to_nat which) Hook.BytePatterns []) in
      let st := set_lb_jump_address (wrap64 (jump + 14)) st in
      let t := calls w ++
               [Cli; WriteCR0 (Z.land (cr0 e) Hook.CR0_WP_MASK); WriteCR0 (cr0 e); Sti;
                Printf MsgHookPlaced
                  [to_int (lb_PCI_counter st); to_int (SleepValue st);
                   to_int (lb_RandRange st); to_int (lb_DebugLevel st);
                   to_int (lb_AltSleepValue st); to_int (lb_AltRandRange st)];
                CdevswAdd STARTING_DEVSW_SLOT] in
      let st := set_MajorDev (cdevsw_add_result e) st in
      if 0 <=? MajorDev st
      then
        (* makedev(MajorDev, 0) *)
        let st := set_fBaseDev (wrap32 (Z.shiftl (MajorDev st) 24)) st in
        let st := set_fDeviceNode (devfs_make_node_result e) st in
        mkWorld st (syms w) m (t ++ [DevfsMakeNode (fBaseDev st) 256])
      else mkWorld st (syms w) m t
  else w.

(** The function.  [None]: a loop of the symbol resolver ran out of fuel. *)
Definition latebloom_start (fuel : nat) (e : env) (w : world) : option world :=
  if Klookup.version_major (kern e) <? BIGSUR_XNU_MAJOR_VERSION
  then Some (say [Printf MsgVersionAbort [Klookup.version_major (kern e)];
                  IOSleep (4 * MILLISECONDS_PER_SECOND)] w)
  else
    let w := say [Printf MsgStarting []] w in
    let w := mkWorld (set_CurrentThread 0 (vars w)) (syms w) (memory w) (calls w) in
    match config_stage fuel e w with
    | None => None
    | Some (inl w') => Some w'
    | Some (inr w') => Some (install_stage e w')
    end.

(** The state at load time. *)
Definition initial_world (m : mem) : world :=
  mkWorld initial_statics Klookup.initial_ksyms m [].

(** ** A small kernel image, for the examples *)

Module Example.

Import Klookup.

Definition le_bytes32 (v : Z) : list byte :=
  map (fun i => (wrap32 v / 2 ^ (8 * i)) mod 2 ^ 8) [0; 1; 2; 3].

Definition zeros (n : nat) : list byte := repeat 0 n.

(** Where the image lies, and the value of the symbol looked up. *)
Definition base : Z := 0x4000.
Definition boot_args_fn : Z := 0x5000.

(** The header, then [LC_SYMTAB] (24 bytes) and the [__LINKEDIT] segment
    command (72 bytes), then two name-list entries and the string table. *)
Definition image : list byte :=
  (* mach_header_64: magic, ..., sizeofcmds at 20 *)
  le_bytes32 MH_MAGIC_64 ++ zeros 16 ++ le_bytes32 96 ++ zeros 8 ++
  (* symtab_command: cmd, cmdsize, symoff, nsyms, stroff, strsize *)
  le_bytes32 LC_SYMTAB ++ le_bytes32 24 ++
  le_bytes32 128 ++ le_bytes32 2 ++ le_bytes32 160 ++ le_bytes32 23 ++
  (* segment_command_64: cmd, cmdsize, segname[16], vmaddr, vmsize, fileoff, ... *)
  le_bytes32 LC_SEGMENT_64 ++ le_bytes32 72 ++ str "__LINKEDIT" ++ zeros 6 ++
  le_bytes64 base ++ le_bytes64 4096 ++ le_bytes64 0 ++ zeros 24 ++
  (* nlist_64: n_strx, n_type .. n_desc, n_value *)
  le_bytes32 1 ++ zeros 4 ++ le_bytes64 0x4800 ++
  le_bytes32 9 ++ zeros 4 ++ le_bytes64 boot_args_fn ++
  (* the string table *)
  [0] ++ str "_printf" ++ [0] ++ str "_PE_boot_args" ++ [0].

Definition memory : mem := mem_of_list base image.

Definition commands : list load_command :=
  [mkCommand LC_SYMTAB 24 []; mkCommand LC_SEGMENT_64 72 (str "__LINKEDIT")].

Definition symbols : list symbol :=
  [mkSymbol 1 (str "_printf") 0x4800; mkSymbol 9 (str "_PE_boot_args") boot_args_fn].

(** A kernel slid so that the header is found at [base]. *)
Definition kernel : Klookup.kernel :=
  mkKernel 20 0x4800 (fun a => a - (base - KERNEL_BASE)).

(** The statics once this image is resolved. *)
Definition resolved : ksyms :=
  mkKsyms (base + 32) (base + 160) (base + 128).

End Example.

(** ** A small machine around that image, for the examples *)

Module Machine.

(** [bs] placed at [base] over the memory [m]. *)
Definition place (base : Z) (bs : list byte) (m : mem) : mem :=
  fun a => if (base <=? a) && (a <? base + Z.of_nat (length bs))
           then nth (Z.to_nat (a - base)) bs 0 else m a.

(** The function to hook, at [probe]: some code, then the bytes of the
    second catalogue entry at offset 5. *)
Definition probe : Z := 0x6000.
Definition probe_code : list byte :=
  [0x55; 0x48; 0x89; 0xe5; 0x90] ++ Hook.BytePattern115b2 ++ [0xc3].

(** The kext: the [callq] of [latebloom_fake] (opcode [e8] and the offset
    of [probe] from the next instruction), then the hook code and its exit. *)
Definition hook_addr : Z := 0x7005.
Definition exit_addr : Z := 0x7100.
Definition kext_code : list byte :=
  0xe8 :: Example.le_bytes32 (probe - hook_addr).

Definition memory : mem :=
  place 0x7000 kext_code (place probe probe_code Example.memory).

Definition boot_env (args : string) : env :=
  {| kern := Example.kernel;
     boot_args_ptr := 0x8000;
     boot_args := str args;
     latebloom_hook_addr := hook_addr;
     lb_hook_exit_addr := exit_addr;
     cr0 := 0x80010033;
     cdevsw_add_result := 19;
     devfs_make_node_result := 0 |}.

(** The same machine with a kernel older than Big Sur. *)
Definition old_env (args : string) : env :=
  {| kern := Klookup.mkKernel 19 0x4800 (Klookup.unslide Example.kernel);
     boot_args_ptr := 0x8000;
     boot_args := str args;
     latebloom_hook_addr := hook_addr;
     lb_hook_exit_addr := exit_addr;
     cr0 := 0x80010033;
     cdevsw_add_result := 19;
     devfs_make_node_result := 0 |}.

(** The bytes of [m] from [a] on. *)
Definition bytes_at (m : mem) (a : Z) (n : nat) : list byte :=
  map (fun i => m (a + Z.of_nat i)) (seq 0 n).

End Machine.

(** ** Successive runs of the hook *)

Module Run.

(** The hook run once per element of [inputs], one run after the other,
    each to its end before the next begins, the variables going from one run
    to the next; the trace of each run is kept apart.  This is how the runs
    of one thread follow each other, as in Phase 1; in Phase 2 the runs of
    different threads may overlap, which this composition does not
    describe. *)
Fixpoint hook_run (inputs : list Trampoline.hook_input) (s : statics)
  : statics * list trace :=
  match inputs with
  | [] => (s, [])
  | i :: rest =>
      let '(s1, t) := Trampoline.latebloom_hook i s in
      let '(s2, ts) := hook_run rest s1 in
      (s2, t :: ts)
  end.

Definition is_sleep (e : event) : bool :=
  match e with IOSleep _ => true | _ => false end.
Definition is_printf (e : event) : bool :=
  match e with Printf _ _ => true | _ => false end.
Definition is_make_node (e : event) : bool :=
  match e with DevfsMakeNode _ _ => true | _ => false end.

(** How many events of a kind a trace holds. *)
Definition count (f : event -> bool) (t : trace) : nat := length (filter f t).

(** What the run of the hook with input [i] does when the first thread was
    [T] and the parser left [s0]: sleep for the Phase 1 delay on thread [T],
    for the Phase 2 delay on another thread, and not at all there when the
    Phase 2 delay is 0. *)
Definition phase_ok (s0 : statics) (T : Z) (i : Trampoline.hook_input) (t : trace) : Prop :=
  if Trampoline.gs_thread i =? T
  then exists t',
         t = IOSleep (Trampoline.hook_delay (SleepValue s0) (lb_RandRange s0)
                        (Trampoline.tsc1 i) (Trampoline.tsc2 i)) :: t'
  else if wrap32 (lb_AltSleepValue s0) =? 0
       then count is_sleep t = 0%nat
       else In (IOSleep (Trampoline.hook_delay (lb_AltSleepValue s0) (lb_AltRandRange s0)
                           (Trampoline.tsc1 i) (Trampoline.tsc2 i))) t.

(** The variables the parser sets and the installer's own: everything but
    [CurrentThread], [fDeviceNode] and [lb_PCI_counter]. *)
Definition same_config (s s' : statics) : Prop :=
  BootArgs s' = BootArgs s /\ lb_jump_address s' = lb_jump_address s /\
  WhichPattern s' = WhichPattern s /\ ProbeAddress s' = ProbeAddress s /\
  SleepValue s' = SleepValue s /\ lb_DebugLevel s' = lb_DebugLevel s /\
  lb_RandRange s' = lb_RandRange s /\ lb_AltSleepValue s' = lb_AltSleepValue s /\
  lb_AltRandRange s' = lb_AltRandRange s /\ fBaseDev s' = fBaseDev s /\
  MajorDev s' = MajorDev s.

End Run.

(** ** Vocabulary for the further properties of the parser *)

Module Keys.

(** One of the six keys stands at [s]. *)
Definition key_at (s : list byte) : bool :=
  Config.BOOTARG_MATCH s "latebloom=" || Config.BOOTARG_MATCH s "lb_debug=" ||
  Config.BOOTARG_MATCH s "lb_range=" || Config.BOOTARG_MATCH s "lb_delay2=" ||
  Config.BOOTARG_MATCH s "lb_range2=" || Config.BOOTARG_MATCH s "lbloom=".

(** The variables the parser does not set. *)
Definition same_rest (s s' : statics) : Prop :=
  BootArgs s' = BootArgs s /\ lb_jump_address s' = lb_jump_address s /\
  WhichPattern s' = WhichPattern s /\ lb_PCI_counter s' = lb_PCI_counter s /\
  ProbeAddress s' = ProbeAddress s /\ CurrentThread s' = CurrentThread s /\
  fBaseDev s' = fBaseDev s /\ MajorDev s' = MajorDev s /\
  fDeviceNode s' = fDeviceNode s.

Definition state_of (o : Config.outcome) : statics :=
  match o with Config.Proceed st _ | Config.Abort st _ => st end.

End Keys.

(** ** Vocabulary for the further properties of [latebloom_start] *)

Module Start.

(** The world in which a stage ends, whether the function returns there or
    goes on. *)
Definition landed (f : flow) : world :=
  match f with inl w | inr w => w end.

(** The variables of the installer and of the hook. *)
Definition same_install (s s' : statics) : Prop :=
  lb_jump_address s' = lb_jump_address s /\ WhichPattern s' = WhichPattern s /\
  ProbeAddress s' = ProbeAddress s /\ lb_PCI_counter s' = lb_PCI_counter s /\
  fBaseDev s' = fBaseDev s /\ MajorDev s' = MajorDev s /\
  fDeviceNode s' = fDeviceNode s.

(** The events that change the state of the processor: interrupts and
    [%cr0]. *)
Definition privileged (e : event) : bool :=
  match e with
  | Cli | Sti | WriteCR0 _ => true
  | _ => false
  end.

Definition trace_of (o : Config.outcome) : trace :=
  match o with Config.Proceed _ t | Config.Abort _ t => t end.

End Start.

(** ** Vocabulary for the span of the walks *)

Module Layout.

Import Klookup.


End Layout.

(** ** Vocabulary for the first call of [SymbolLookup] *)

Module Resolve.

Import Klookup.

(** The header from which the load commands are walked, [MachHeader] being
    the one found through the slide and [cmds0] its load commands: before Big
    Sur that header; from Big Sur on the [vmaddr] of its first
    [__PRELINK_TEXT] segment, and that header when it has no such segment. *)
Definition header_choice (k : kernel) (m : mem) (MachHeader : Z)
    (cmds0 : list load_command) (H : Z) : Prop :=
  if version_major k <? BIGSUR_XNU_MAJOR_VERSION
  then H = MachHeader
  else
    (Forall (fun c => ~ is_segment LB_SEG_PRELINK_TEXT c) cmds0 /\ H = MachHeader) \/
    (exists before p after,
        cmds0 = before ++ p :: after /\
        Forall (fun c => ~ is_segment LB_SEG_PRELINK_TEXT c) before /\
        is_segment LB_SEG_PRELINK_TEXT p /\
        H = load64 m (MachHeader + sizeof_mach_header_64 + total_size before
                      + off_vmaddr)).

(** The statics after the resolution, from the addresses of the
    [__LINKEDIT] segment command and of the [LC_SYMTAB] command. *)
Definition resolved (m : mem) (LinkEdit SymTab : Z) : ksyms :=
  let delta :=
    wrap64 (load64 m (LinkEdit + off_vmaddr) - load64 m (LinkEdit + off_fileoff)) in
  mkKsyms SymTab
    (wrap64 (delta + load32 m (SymTab + off_stroff)))
    (wrap64 (delta + load32 m (SymTab + off_symoff))).

End Resolve.

(** * Properties *)

(** ** Machine arithmetic *)

Lemma wrap32_small (x : Z) : 0 <= x < 2 ^ 32 -> wrap32 x = x.
Proof. intros H. unfold wrap32. apply Z.mod_small. exact H. Qed.

Lemma wrap32_neg (x : Z) : 0 < x < 2 ^ 32 -> wrap32 (- x) = 2 ^ 32 - x.
Proof.
  intros H. unfold wrap32.
  symmetry. apply (Z.mod_unique_pos _ _ (-1)); lia.
Qed.

Lemma wrap32_range (x : Z) : 0 <= wrap32 x < 2 ^ 32.
Proof. unfold wrap32. apply Z.mod_pos_bound. lia. Qed.

Lemma wrap64_small (x : Z) : 0 <= x < 2 ^ 64 -> wrap64 x = x.
Proof. intros H. unfold wrap64. apply Z.mod_small. exact H. Qed.

Lemma wrap64_range (x : Z) : 0 <= wrap64 x < 2 ^ 64.
Proof. unfold wrap64. apply Z.mod_pos_bound. lia. Qed.

(** ** The delay computed by the hook *)

Section HookDelay.

Import Trampoline.

Variables B R : Z.
Hypothesis range_le_base : 0 < R <= B.
Hypothesis fits : B + R <= 2 ^ 32.

Lemma offset_range (t : Z) : 0 <= rdtsc_eax t mod R < R.
Proof. apply Z.mod_pos_bound. lia. Qed.

(** An even counter at the second [rdtsc] adds the offset. *)
Lemma hook_delay_even (t1 t2 : Z) :
  Z.land (rdtsc_eax t2) 1 = 0 ->
  hook_delay B R t1 t2 = B + rdtsc_eax t1 mod R.
Proof.
  intros Hbit. pose proof (offset_range t1) as Ho.
  unfold hook_delay.
  rewrite (wrap32_small R) by lia. rewrite (wrap32_small B) by lia.
  destruct (R =? 0) eqn:ER; [apply Z.eqb_eq in ER; lia|].
  rewrite Hbit. cbn [Z.eqb]. apply wrap32_small. lia.
Qed.

(** An odd one subtracts it. *)
Lemma hook_delay_odd (t1 t2 : Z) :
  Z.land (rdtsc_eax t2) 1 <> 0 ->
  hook_delay B R t1 t2 = B - rdtsc_eax t1 mod R.
Proof.
  intros Hbit. pose proof (offset_range t1) as Ho.
  unfold hook_delay.
  rewrite (wrap32_small R) by lia. rewrite (wrap32_small B) by lia.
  destruct (R =? 0) eqn:ER; [apply Z.eqb_eq in ER; lia|].
  destruct (Z.land (rdtsc_eax t2) 1 =? 0) eqn:E; [apply Z.eqb_eq in E; lia|].
  destruct (Z.eq_dec (rdtsc_eax t1 mod R) 0) as [Hz|Hz].
  - rewrite Hz. cbn. rewrite Z.add_0_r, Z.sub_0_r. apply wrap32_small. lia.
  - rewrite wrap32_neg by lia.
    unfold wrap32. symmetry.
    apply (Z.mod_unique_pos _ _ 1); lia.
Qed.

End HookDelay.

(** The low bit of [%eax] after [rdtsc] is the low bit of the counter. *)
Lemma rdtsc_low_bit (t : Z) :
  Z.land (Trampoline.rdtsc_eax t) 1 = if Z.odd t then 1 else 0.
Proof.
  unfold Trampoline.rdtsc_eax, wrap32.
  change 1 with (Z.ones 1) at 1. rewrite Z.land_ones by lia.
  change (2 ^ 1) with 2.
  rewrite Z.mod_mod_divide by (exists (2 ^ 31); reflexivity).
  rewrite <- Z.bit0_mod, Z.bit0_odd. destruct (Z.odd t); reflexivity.
Qed.

(** C1.  For a base delay [B] and a range [R] with [0 < R <= B] that fit
    the 32-bit registers of the hook ([B + R <= 2^32]) and for every value
    of the time-stamp counter at the two [rdtsc] instructions, the offset is
    the low 32 bits of the first counter value modulo [R] (the hook keeps
    [%eax] and clears [%edx]), which lies in [0, R); the delay the hook
    sleeps for is [B] plus the offset when the second counter value is even
    and [B] minus the offset when it is odd; so the delay lies in
    [B - R, B + R] and is never negative. *)
Theorem hook_delay_within_range (B R tsc1 tsc2 : Z) :
  0 < R <= B ->
  B + R <= 2 ^ 32 ->
  let off := (tsc1 mod 2 ^ 32) mod R in
  let d := Trampoline.hook_delay B R tsc1 tsc2 in
  0 <= off < R /\
  d = (if Z.odd tsc2 then B - off else B + off) /\
  B - R <= d <= B + R /\
  0 <= d.
Proof.
  intros HR Hfit off d.
  assert (Ho : 0 <= off < R) by (apply Z.mod_pos_bound; lia).
  assert (Hoff : Trampoline.rdtsc_eax tsc1 mod R = off) by reflexivity.
  assert (Hd : d = if Z.odd tsc2 then B - off else B + off).
  { pose proof (rdtsc_low_bit tsc2) as Hbit. subst d.
    destruct (Z.odd tsc2).
    - rewrite <- Hoff. apply hook_delay_odd; try assumption. rewrite Hbit. lia.
    - rewrite <- Hoff. apply hook_delay_even; assumption. }
  split; [exact Ho|]. split; [exact Hd|].
  rewrite Hd. destruct (Z.odd tsc2); lia.
Qed.

Lemma hook_delay_within_range_witness :
  (0 < 20 <= 90 /\ 90 + 20 <= 2 ^ 32) /\
  (let off := (4294967303 mod 2 ^ 32) mod 20 in
   let d := Trampoline.hook_delay 90 20 4294967303 9 in
   0 <= off < 20 /\
   d = (if Z.odd 9 then 90 - off else 90 + off) /\
   90 - 20 <= d <= 90 + 20 /\ 0 <= d).
Proof.
  split; [lia | apply (hook_delay_within_range 90 20 4294967303 9); lia].
Defined.

(** C1 as it is written fails.  The offset is not the counter modulo [R]
    but its low 32 bits modulo [R]: at the counter value [2^32 + 7] and
    [R = 20] the hook sleeps [90 + 7] ms, while the counter modulo 20 is 3.
    And a base delay that does not leave room for the range in 32 bits
    wraps: [B = 2^32 - 6] with offset 7 gives a delay of 1 ms. *)
Lemma hook_delay_offset_not_counter_mod :
  Trampoline.hook_delay 90 20 4294967303 8 = 97 /\
  4294967303 mod 20 = 3 /\
  Trampoline.hook_delay 90 20 4294967303 8 <> 90 + 4294967303 mod 20 /\
  Trampoline.hook_delay 90 20 4294967303 8 <> 90 - 4294967303 mod 20 /\
  0 < 20 <= 4294967290 /\
  Trampoline.hook_delay 4294967290 20 7 8 = 1 /\
  ~ (4294967290 - 20 <= Trampoline.hook_delay 4294967290 20 7 8).
Proof.
  assert (E1 : Trampoline.hook_delay 90 20 4294967303 8 = 97) by (vm_compute; reflexivity).
  assert (E2 : Trampoline.hook_delay 4294967290 20 7 8 = 1) by (vm_compute; reflexivity).
  assert (E3 : 4294967303 mod 20 = 3) by reflexivity.
  rewrite E1, E2, E3. repeat split; lia.
Qed.

(** The hook sleeps for exactly that delay: in Phase 1 (the thread that ran
    the hook first) with the Phase 1 values. *)
Lemma latebloom_hook_phase1 (i : Trampoline.hook_input) (s : statics) :
  CurrentThread s = Trampoline.gs_thread i \/ CurrentThread s = 0 ->
  exists s' t,
    Trampoline.latebloom_hook i s =
      (s', IOSleep (Trampoline.hook_delay (SleepValue s) (lb_RandRange s)
                      (Trampoline.tsc1 i) (Trampoline.tsc2 i)) :: t).
Proof.
  intros H. unfold Trampoline.latebloom_hook.
  destruct (CurrentThread s =? 0) eqn:E0.
  - cbn [CurrentThread set_CurrentThread]. rewrite Z.eqb_refl.
    unfold Trampoline.do_sleep. cbn. eauto.
  - destruct H as [H|H]; [|apply Z.eqb_neq in E0; contradiction].
    rewrite H, Z.eqb_refl. unfold Trampoline.do_sleep. eauto.
Qed.

(** In Phase 2 (another thread) it sleeps for the delay computed from the
    Phase 2 values, unless the Phase 2 delay is 0: then it does not sleep. *)
Lemma latebloom_hook_phase2 (i : Trampoline.hook_input) (s : statics) :
  CurrentThread s <> 0 ->
  CurrentThread s <> Trampoline.gs_thread i ->
  let '(_, t) := Trampoline.latebloom_hook i s in
  if wrap32 (lb_AltSleepValue s) =? 0
  then forall ms, ~ In (IOSleep ms) t
  else In (IOSleep (Trampoline.hook_delay (lb_AltSleepValue s) (lb_AltRandRange s)
                      (Trampoline.tsc1 i) (Trampoline.tsc2 i))) t.
Proof.
  intros H0 Hgs. unfold Trampoline.latebloom_hook.
  apply Z.eqb_neq in H0, Hgs. rewrite H0, Hgs.
  destruct (fDeviceNode s =? 0);
    cbn [lb_AltSleepValue lb_AltRandRange set_fDeviceNode];
    destruct (wrap32 (lb_AltSleepValue s) =? 0); unfold Trampoline.do_sleep;
    cbn [In app fst snd].
  - intros ms [H|[]]. discriminate H.
  - right. left. reflexivity.
  - intros ms [].
  - left. reflexivity.
Qed.

(** ** The pattern scan *)

Section PatternScan.

Import Hook.

Variable m : mem.

Lemma memcmp_eq_spec (pat : list byte) (a : Z) :
  memcmp_eq m a pat = true <->
  (forall j, (j < length pat)%nat -> m (a + Z.of_nat j) = nth j pat 0).
Proof.
  revert a. induction pat as [|b pat IH]; intros a; cbn [memcmp_eq length].
  - split; [intros _ j Hj; lia | reflexivity].
  - rewrite andb_true_iff, Z.eqb_eq, IH. split.
    + intros [Hb Hrest] [|j] Hj.
      * cbn. rewrite Z.add_0_r. exact Hb.
      * cbn [nth]. rewrite <- (Hrest j) by lia. f_equal. lia.
    + intros H. split.
      * specialize (H 0%nat). cbn in H. rewrite Z.add_0_r in H. apply H. lia.
      * intros j Hj. specialize (H (S j)). cbn [nth] in H.
        rewrite <- H by lia. f_equal. lia.
Qed.

(** Two patterns of one length that match at the same place are equal. *)
Lemma memcmp_eq_same (p q : list byte) (a : Z) :
  length p = length q ->
  memcmp_eq m a p = true -> memcmp_eq m a q = true -> p = q.
Proof.
  revert q a. induction p as [|b p IH]; intros [|c q] a Hlen Hp Hq;
    cbn in Hlen; try discriminate; [reflexivity|].
  cbn [memcmp_eq] in Hp, Hq.
  apply andb_true_iff in Hp as [Hb Hp]. apply andb_true_iff in Hq as [Hc Hq].
  apply Z.eqb_eq in Hb, Hc. f_equal; [congruence|].
  apply (IH q (a + 1)); [lia | assumption | assumption].
Qed.

Lemma pattern_loop_none (a : Z) (pats : list (list byte)) (w j : Z) :
  (forall pat, In pat pats -> memcmp_eq m a pat = false) ->
  pattern_loop m a pats w j = (j, w + Z.of_nat (length pats)).
Proof.
  revert w. induction pats as [|p pats IH]; intros w H; cbn [pattern_loop length].
  - f_equal. lia.
  - rewrite (H p) by (left; reflexivity).
    rewrite IH by (intros q Hq; apply H; right; exact Hq).
    f_equal. lia.
Qed.

Lemma pattern_loop_first (a : Z) (pats : list (list byte)) (w j : Z)
    (idx : nat) (pat : list byte) :
  nth_error pats idx = Some pat ->
  memcmp_eq m a pat = true ->
  (forall k q, (k < idx)%nat -> nth_error pats k = Some q -> memcmp_eq m a q = false) ->
  pattern_loop m a pats w j = (a, w + Z.of_nat idx).
Proof.
  revert w idx. induction pats as [|p pats IH]; intros w idx Hnth Hm Hbefore.
  - destruct idx; discriminate.
  - cbn [pattern_loop]. destruct idx as [|idx].
    + cbn in Hnth. injection Hnth as ->. rewrite Hm. f_equal. lia.
    + rewrite (Hbefore 0%nat p) by (try lia; reflexivity).
      cbn in Hnth. rewrite (IH (w + 1) idx Hnth Hm).
      * f_equal. lia.
      * intros k q Hk Hq. apply (Hbefore (S k) q); [lia | exact Hq].
Qed.

Lemma catalogue_lengths (pat : list byte) :
  In pat BytePatterns -> length pat = 14%nat.
Proof.
  intros [<-|[<-|[<-|[]]]]; reflexivity.
Qed.

(** At one address at most one catalogue entry matches. *)
Lemma catalogue_unique (a : Z) (i j : nat) (p q : list byte) :
  nth_error BytePatterns i = Some p -> nth_error BytePatterns j = Some q ->
  memcmp_eq m a p = true -> memcmp_eq m a q = true -> i = j.
Proof.
  intros Hi Hj Hp Hq.
  assert (p = q) as <-.
  { apply (memcmp_eq_same p q a); try assumption.
    rewrite (catalogue_lengths p), (catalogue_lengths q);
      eauto using nth_error_In. }
  destruct i as [|[|[|i]]]; destruct j as [|[|[|j]]]; cbn in Hi, Hj;
    unfold BytePattern113, BytePattern115b2, BytePattern12b3 in Hi, Hj;
    try reflexivity; try congruence;
    try (destruct i; discriminate); try (destruct j; discriminate).
Qed.

Lemma scan_loop_found (n : nat) (a jump w : Z) :
  jump <> 0 -> scan_loop n m a jump w = (jump, w).
Proof.
  intros H. destruct n; cbn [scan_loop]; [reflexivity|].
  destruct (jump =? 0) eqn:E; [apply Z.eqb_eq in E; contradiction | reflexivity].
Qed.

Lemma scan_loop_none (n : nat) (a w : Z) :
  (forall k, (k < n)%nat -> no_match m (a + Z.of_nat k)) ->
  fst (scan_loop n m a 0 w) = 0.
Proof.
  revert a w. induction n as [|n IH]; intros a w H; cbn [scan_loop]; [reflexivity|].
  cbn [Z.eqb]. rewrite pattern_loop_none.
  - apply IH. intros k Hk. replace (a + 1 + Z.of_nat k) with (a + Z.of_nat (S k)) by lia.
    apply H. lia.
  - specialize (H 0%nat). rewrite Z.add_0_r in H. apply H. lia.
Qed.

Lemma scan_loop_first (n : nat) (a w : Z) (K idx : nat) (pat : list byte) :
  (K < n)%nat ->
  a + Z.of_nat K <> 0 ->
  nth_error BytePatterns idx = Some pat ->
  memcmp_eq m (a + Z.of_nat K) pat = true ->
  (forall k, (k < K)%nat -> no_match m (a + Z.of_nat k)) ->
  scan_loop n m a 0 w = (a + Z.of_nat K, Z.of_nat idx).
Proof.
  revert a w K. induction n as [|n IH]; intros a w K HK Hnz Hnth Hm Hbefore; [lia|].
  cbn [scan_loop Z.eqb]. destruct K as [|K].
  - rewrite Z.add_0_r in *.
    rewrite (pattern_loop_first a BytePatterns 0 0 idx pat Hnth Hm).
    + apply scan_loop_found. exact Hnz.
    + intros k q Hk Hq. destruct (memcmp_eq m a q) eqn:E; [|reflexivity].
      pose proof (catalogue_unique a k idx q pat Hq Hnth E Hm). lia.
  - rewrite pattern_loop_none.
    + replace (a + Z.of_nat (S K)) with (a + 1 + Z.of_nat K) in * by lia.
      apply IH; try assumption; try lia.
      intros k Hk. replace (a + 1 + Z.of_nat k) with (a + Z.of_nat (S k)) by lia.
      apply Hbefore. lia.
    + specialize (Hbefore 0%nat). rewrite Z.add_0_r in Hbefore. apply Hbefore. lia.
Qed.

End PatternScan.

(** C2.  The scan of the window of [HOOK_WINDOW_SIZE] bytes from the entry
    [Probe] of the target function goes through the offsets in order and at
    each offset through the catalogue in order.  The earliest offset at
    which an entry of the catalogue matches wins: when the bytes of entry
    [idx] stand at offset [K] of the window and nothing of the catalogue
    matches at an offset before [K] (the scan stops at the first success),
    the scan returns the address of offset [K] and the index [idx], whatever
    stands at the offsets behind [K]; at that offset no other entry of the
    catalogue matches, so that the order of the catalogue decides nothing.
    When no entry matches at any offset of the window, the scan finds
    nothing ([lb_jump_address] stays 0).  A match is the equality of all the
    bytes. *)
Theorem pattern_scan_correct (m : mem) (Probe w0 : Z) :
  0 < Probe ->
  (forall (K : Z) (idx : nat) (pat : list byte),
      0 <= K < HOOK_WINDOW_SIZE ->
      nth_error Hook.BytePatterns idx = Some pat ->
      (forall j, (j < length pat)%nat -> m (Probe + K + Z.of_nat j) = nth j pat 0) ->
      (forall K', 0 <= K' < K -> Hook.no_match m (Probe + K')) ->
      Hook.pattern_scan m Probe w0 = (Probe + K, Z.of_nat idx) /\
      (forall (i : nat) (q : list byte),
          nth_error Hook.BytePatterns i = Some q ->
          memcmp_eq m (Probe + K) q = true -> i = idx))
  /\
  ((forall K, 0 <= K < HOOK_WINDOW_SIZE -> Hook.no_match m (Probe + K)) ->
   fst (Hook.pattern_scan m Probe w0) = 0).
Proof.
  intros Hp. unfold Hook.pattern_scan. split.
  - intros K idx pat HK Hnth Hbytes Hbefore.
    assert (Hm : memcmp_eq m (Probe + K) pat = true)
      by (apply memcmp_eq_spec; exact Hbytes).
    split.
    + replace (Probe + K) with (Probe + Z.of_nat (Z.to_nat K)) in * by lia.
      apply (scan_loop_first m _ Probe w0 (Z.to_nat K) idx pat).
      * lia.
      * lia.
      * exact Hnth.
      * exact Hm.
      * intros k Hk. apply Hbefore. lia.
    + intros i q Hq Hmq.
      exact (catalogue_unique m (Probe + K) i idx q pat Hq Hnth Hmq Hm).
  - intros Hnone. apply scan_loop_none. intros k Hk. apply Hnone. lia.
Qed.

Lemma pattern_scan_correct_witness :
  let m := mem_of_list 1000 ([1; 2; 3; 4; 5] ++ Hook.BytePattern115b2 ++ [7; 7]) in
  (0 < 1000 /\
   (forall j, (j < length Hook.BytePattern115b2)%nat ->
              m (1000 + 5 + Z.of_nat j) = nth j Hook.BytePattern115b2 0) /\
   (forall K', 0 <= K' < 5 -> Hook.no_match m (1000 + K'))) /\
  Hook.pattern_scan m 1000 0 = (1000 + 5, Z.of_nat 1) /\
  (forall (i : nat) (q : list byte),
      nth_error Hook.BytePatterns i = Some q ->
      memcmp_eq m (1000 + 5) q = true -> i = 1%nat).
Proof.
  intros m.
  assert (Hbytes : forall j, (j < length Hook.BytePattern115b2)%nat ->
                     m (1000 + 5 + Z.of_nat j) = nth j Hook.BytePattern115b2 0).
  { intros j Hj. do 14 (destruct j as [|j]; [reflexivity|]). cbn in Hj. lia. }
  assert (Hbefore : forall K', 0 <= K' < 5 -> Hook.no_match m (1000 + K')).
  { intros K' HK pat Hpat.
    assert (HK' : K' = 0 \/ K' = 1 \/ K' = 2 \/ K' = 3 \/ K' = 4) by lia.
    destruct Hpat as [<-|[<-|[<-|[]]]];
      destruct HK' as [->|[->|[->|[->| ->]]]]; reflexivity. }
  split; [split; [lia | split; [exact Hbytes | exact Hbefore]]|].
  apply (proj1 (pattern_scan_correct m 1000 0 ltac:(lia)) 5 1%nat Hook.BytePattern115b2).
  - unfold HOOK_WINDOW_SIZE. lia.
  - reflexivity.
  - exact Hbytes.
  - exact Hbefore.
Defined.

(** C2 as it is written fails: it is not the first entry of the catalogue
    that matches at any offset that wins.  With the third entry at offset 3
    and the first entry at offset 40 of the window the scan returns offset 3
    and index 2. *)
Lemma pattern_scan_offset_before_catalogue :
  let m := mem_of_list 24576
             ([1; 2; 3] ++ Hook.BytePattern12b3 ++ repeat 0 23 ++ Hook.BytePattern113) in
  nth_error Hook.BytePatterns 0 = Some Hook.BytePattern113 /\
  memcmp_eq m (24576 + 40) Hook.BytePattern113 = true /\
  nth_error Hook.BytePatterns 2 = Some Hook.BytePattern12b3 /\
  memcmp_eq m (24576 + 3) Hook.BytePattern12b3 = true /\
  Hook.pattern_scan m 24576 0 = (24576 + 3, 2) /\
  Hook.pattern_scan m 24576 0 <> (24576 + 40, 0).
Proof.
  intros m.
  assert (E : Hook.pattern_scan m 24576 0 = (24579, 2)) by (vm_compute; reflexivity).
  split; [reflexivity|]. split; [vm_compute; reflexivity|].
  split; [reflexivity|]. split; [vm_compute; reflexivity|].
  rewrite E. split; [reflexivity | discriminate].
Qed.

(** When nothing matches, [latebloom_start] reports it and leaves the
    memory as it is. *)
Lemma install_stage_not_found (e : env) (w : world) :
  lb_jump_address (vars w) = 0 ->
  (forall probe w0, fst (Hook.pattern_scan (memory w) probe w0) = 0) ->
  memory (install_stage e w) = memory w /\
  calls (install_stage e w) =
    calls w ++ [Printf MsgFirstTime []; Printf MsgPatternNotFound [];
                IOSleep (4 * MILLISECONDS_PER_SECOND)].
Proof.
  intros Hj Hnone. unfold install_stage. rewrite Hj. cbn [Z.eqb].
  cbn [say memory calls vars].
  match goal with
  | |- context [Hook.pattern_scan ?m ?p ?x] =>
      pose proof (Hnone p x) as H; destruct (Hook.pattern_scan m p x) as [jump which]
  end.
  cbn [fst] in H. subst jump. cbn [Z.eqb memory calls].
  split; [reflexivity|]. rewrite <- app_assoc. reflexivity.
Qed.

(** ** The boot-args parser *)

Section DigitLoops.

Import Config.

Lemma is_digit_range (c : byte) : is_digit c = true -> 48 <= c <= 57.
Proof. unfold is_digit. rewrite andb_true_iff, !Z.leb_le. tauto. Qed.

Lemma char_at_app (d rest : list byte) (j : nat) :
  char_at (d ++ rest) (length d + j) = char_at rest j.
Proof.
  unfold char_at. rewrite app_nth2 by lia. f_equal. lia.
Qed.

Lemma char_at_app_l (d rest : list byte) (j : nat) :
  (j < length d)%nat -> char_at (d ++ rest) j = nth j d 0.
Proof. intros H. unfold char_at. apply app_nth1. exact H. Qed.

(** The digit loop over a run of digits [d] that starts at [ptr[j]]. *)
Lemma digit_loop_run (d pre rest : list byte) (n : nat) (v : Z) :
  Forall (fun c => is_digit c = true) d ->
  (length d <= n)%nat ->
  length d = n \/ is_digit (char_at rest 0) = false ->
  digit_loop n (pre ++ d ++ rest) (length pre) v =
    (fold_left (fun v c => v * 10 + (c - 48)) d v, (length pre + length d)%nat).
Proof.
  revert pre n v. induction d as [|c d IH]; intros pre n v Hd Hn Hend.
  - cbn [fold_left length app]. rewrite Nat.add_0_r.
    destruct n as [|n]; cbn [digit_loop]; [reflexivity|].
    destruct Hend as [Hend|Hend]; [discriminate|].
    replace (length pre) with (length pre + 0)%nat by lia.
    rewrite char_at_app, Hend. rewrite Nat.add_0_r. reflexivity.
  - destruct n as [|n]; cbn [length] in Hn; [lia|].
    cbn [digit_loop fold_left].
    assert (Hc : char_at (pre ++ (c :: d) ++ rest) (length pre) = c).
    { replace (length pre) with (length pre + 0)%nat by lia.
      rewrite char_at_app. reflexivity. }
    rewrite Hc. inversion Hd as [|? ? Hcd Hd']; subst. rewrite Hcd.
    replace (pre ++ (c :: d) ++ rest) with ((pre ++ [c]) ++ d ++ rest)
      by (rewrite <- app_assoc; reflexivity).
    replace (S (length pre)) with (length (pre ++ [c]))
      by (rewrite length_app; cbn; lia).
    rewrite IH; try assumption; try lia.
    + rewrite length_app. cbn [length]. f_equal. lia.
    + cbn [length] in Hend. destruct Hend as [Hend|Hend]; [left; lia | right; exact Hend].
Qed.

Lemma digit_loop_field (d rest : list byte) :
  field d -> field_end d rest ->
  digit_loop MAX_ARG_DIGITS (d ++ rest) 0 0 = (number d, length d).
Proof.
  intros [Hd Hlen] Hend.
  apply (digit_loop_run d [] rest MAX_ARG_DIGITS 0 Hd Hlen Hend).
Qed.

(** The value the loop computes is a number of at most [n] digits. *)
Lemma digit_loop_bounds (n : nat) (ptr : list byte) (j : nat) (v : Z) :
  0 <= v ->
  v <= fst (digit_loop n ptr j v) < (v + 1) * 10 ^ Z.of_nat n.
Proof.
  revert j v. induction n as [|n IH]; intros j v Hv.
  - cbn. lia.
  - cbn [digit_loop]. rewrite Nat2Z.inj_succ, Z.pow_succ_r by lia.
    assert (0 < 10 ^ Z.of_nat n) by (apply Z.pow_pos_nonneg; lia).
    destruct (is_digit (char_at ptr j)) eqn:E.
    + apply is_digit_range in E.
      set (d := char_at ptr j - 48) in *.
      specialize (IH (S j) (v * 10 + d) ltac:(lia)).
      assert ((v * 10 + d + 1) * 10 ^ Z.of_nat n <= (10 * (v + 1)) * 10 ^ Z.of_nat n)
        by (apply Z.mul_le_mono_nonneg_r; lia).
      lia.
    + cbn [fst]. nia.
Qed.

Lemma ExtractArgValue_bounds (s : list byte) : 0 <= ExtractArgValue s <= 9999.
Proof.
  unfold ExtractArgValue.
  pose proof (digit_loop_bounds MAX_ARG_DIGITS s 0 0 ltac:(lia)) as H.
  change ((0 + 1) * 10 ^ Z.of_nat MAX_ARG_DIGITS) with 10000 in H. lia.
Qed.

(** Once [lbval] has left -1 the loop of [latebloom=] is the plain one. *)
Lemma latebloom_loop_nonneg (n : nat) (ptr : list byte) (j : nat) (v : Z) :
  0 <= v -> latebloom_loop n ptr j v = digit_loop n ptr j v.
Proof.
  revert j v. induction n as [|n IH]; intros j v Hv; cbn [latebloom_loop digit_loop].
  - reflexivity.
  - destruct (is_digit (char_at ptr j)) eqn:E; [|reflexivity].
    apply is_digit_range in E.
    destruct (v =? -1) eqn:E1; [apply Z.eqb_eq in E1; lia|].
    apply IH. lia.
Qed.

Lemma latebloom_loop_first (n : nat) (ptr : list byte) :
  latebloom_loop (S n) ptr 0 (-1) =
    if is_digit (char_at ptr 0)
    then digit_loop n ptr 1 (0 * 10 + (char_at ptr 0 - 48))
    else (-1, 0%nat).
Proof.
  cbn [latebloom_loop Z.eqb]. destruct (is_digit (char_at ptr 0)) eqn:E; [|reflexivity].
  apply latebloom_loop_nonneg. apply is_digit_range in E. lia.
Qed.

(** [latebloom=] aborts exactly when its digits read as 0 (or are missing). *)
Lemma latebloom_loop_zero (ptr : list byte) :
  (fst (latebloom_loop MAX_ARG_DIGITS ptr 0 (-1)) <=? 0) =
  (ExtractArgValue ptr =? 0).
Proof.
  unfold ExtractArgValue, MAX_ARG_DIGITS. rewrite latebloom_loop_first.
  change (digit_loop 4 ptr 0 0) with
    (if is_digit (char_at ptr 0)
     then digit_loop 3 ptr 1 (0 * 10 + (char_at ptr 0 - 48)) else (0, 0%nat)).
  destruct (is_digit (char_at ptr 0)) eqn:E; [|reflexivity].
  apply is_digit_range in E.
  pose proof (digit_loop_bounds 3 ptr 1 (0 * 10 + (char_at ptr 0 - 48))
                ltac:(lia)) as H.
  destruct (fst _ <=? 0) eqn:E1; destruct (fst _ =? 0) eqn:E2;
    try reflexivity; rewrite ?Z.leb_le, ?Z.leb_gt, ?Z.eqb_eq, ?Z.eqb_neq in *; lia.
Qed.

End DigitLoops.

Section ScanStep.

Import Config.

(** The first bytes of a string tell [lbloom=] from the other keys. *)
Ltac first_bytes s H1 H2 :=
  unfold BOOTARG_MATCH in H1, H2;
  destruct s as [|?a [|?b [|?c ?s]]]; cbn in H1, H2; try discriminate;
  repeat match goal with
         | H : _ && _ = true |- _ => apply andb_true_iff in H; destruct H
         | H : (_ =? _) = true |- _ => apply Z.eqb_eq in H
         end; lia.

Lemma lbloom_not_latebloom (s : list byte) :
  BOOTARG_MATCH s "lbloom=" = true -> BOOTARG_MATCH s "latebloom=" = false.
Proof.
  intros H1. destruct (BOOTARG_MATCH s "latebloom=") eqn:H2; [|reflexivity].
  exfalso. first_bytes s H1 H2.
Qed.

Lemma lbloom_not_lb_ (s : list byte) :
  BOOTARG_MATCH s "lbloom=" = true ->
  BOOTARG_MATCH s "lb_debug=" = false /\ BOOTARG_MATCH s "lb_range=" = false /\
  BOOTARG_MATCH s "lb_delay2=" = false /\ BOOTARG_MATCH s "lb_range2=" = false.
Proof.
  intros H1. repeat split.
  - destruct (BOOTARG_MATCH s "lb_debug=") eqn:H2; [|reflexivity].
    exfalso. first_bytes s H1 H2.
  - destruct (BOOTARG_MATCH s "lb_range=") eqn:H2; [|reflexivity].
    exfalso. first_bytes s H1 H2.
  - destruct (BOOTARG_MATCH s "lb_delay2=") eqn:H2; [|reflexivity].
    exfalso. first_bytes s H1 H2.
  - destruct (BOOTARG_MATCH s "lb_range2=") eqn:H2; [|reflexivity].
    exfalso. first_bytes s H1 H2.
Qed.

(** The composite key aborts exactly when its first field reads as 0. *)
Lemma lbloom_branch_abort (ptr : list byte) (st : statics) (t : trace) :
  is_abort (lbloom_branch ptr st t) = (ExtractArgValue ptr =? 0).
Proof.
  unfold lbloom_branch, ExtractArgValue.
  destruct (digit_loop MAX_ARG_DIGITS ptr 0 0) as [lbval j]. cbn [fst].
  destruct (lbval =? 0); [reflexivity|].
  repeat match goal with
         | |- context [if ?b then _ else _] => destruct b
         | |- context [EXTRACT_LBLOOM_VALUE ?p ?k] =>
             destruct (EXTRACT_LBLOOM_VALUE p k) as [[? ?] ?]
         end; reflexivity.
Qed.

(** One round of the scan aborts exactly at a delay key that reads as 0. *)
Lemma scan_step_abort (s : list byte) (st : statics) (t : trace) :
  is_abort (scan_step s st t) = delay_key_zero s.
Proof.
  unfold scan_step, delay_key_zero.
  destruct (BOOTARG_MATCH s "latebloom=") eqn:E1.
  - destruct (BOOTARG_MATCH s "lbloom=") eqn:E2.
    + apply lbloom_not_latebloom in E2. congruence.
    + rewrite <- latebloom_loop_zero.
      destruct (latebloom_loop _ _ _ _) as [lbval j]. cbn [fst andb orb].
      rewrite orb_false_r. destruct (lbval <=? 0); reflexivity.
  - cbn [andb orb].
    destruct (BOOTARG_MATCH s "lbloom=") eqn:E2.
    + destruct (lbloom_not_lb_ s E2) as (-> & -> & -> & ->).
      cbn [andb]. apply lbloom_branch_abort.
    + repeat match goal with
             | |- context [if ?b then _ else _] => destruct b
             end; reflexivity.
Qed.

End ScanStep.

Section Scan.

Import Config.

(** The scan aborts exactly when some position before the end of the string
    holds a delay key that reads as 0. *)
Lemma scan_abort (s : list byte) (st : statics) (t : trace) :
  is_abort (scan s st t) = true <->
  exists i, (i < strlen s)%nat /\ delay_key_zero (skipn i s) = true.
Proof.
  revert st t. induction s as [|c rest IH]; intros st t.
  - cbn. split; [discriminate | intros (i & Hi & _); lia].
  - cbn [scan strlen]. destruct (c =? 0) eqn:Ec.
    + cbn. split; [discriminate | intros (i & Hi & _); lia].
    + pose proof (scan_step_abort (c :: rest) st t) as Hstep.
      destruct (scan_step (c :: rest) st t) as [st' t'|st' t']; cbn [is_abort] in *.
      * rewrite IH. split.
        -- intros (i & Hi & Hz). exists (S i). split; [lia | exact Hz].
        -- intros ([|i] & Hi & Hz).
           ++ cbn [skipn] in Hz. congruence.
           ++ exists i. split; [lia | exact Hz].
      * split; [|reflexivity]. intros _. exists 0%nat. split; [lia|].
        cbn [skipn]. congruence.
Qed.

Lemma ParseConfig_is_abort (s : list byte) (st : statics) (t : trace) :
  is_abort (ParseConfig s st t) = is_abort (scan s st t).
Proof.
  unfold ParseConfig. destruct (scan s st t) as [st' t'|st' t']; [|reflexivity].
  destruct (defaults st' t'). reflexivity.
Qed.

(** *** What the scan leaves in the variables *)

Lemma digit_loop_field_bounds (ptr : list byte) :
  0 <= fst (digit_loop MAX_ARG_DIGITS ptr 0 0) <= 9999.
Proof. exact (ExtractArgValue_bounds ptr). Qed.

Lemma latebloom_loop_bounds (ptr : list byte) :
  -1 <= fst (latebloom_loop MAX_ARG_DIGITS ptr 0 (-1)) <= 9999.
Proof.
  unfold MAX_ARG_DIGITS. rewrite latebloom_loop_first.
  destruct (is_digit (char_at ptr 0)) eqn:E; [|cbn; lia].
  apply is_digit_range in E.
  pose proof (digit_loop_bounds 3 ptr 1 (0 * 10 + (char_at ptr 0 - 48)) ltac:(lia)) as H.
  change (10 ^ Z.of_nat 3) with 1000 in H. lia.
Qed.

Lemma EXTRACT_bounds (ptr : list byte) (j : nat) :
  0 <= snd (EXTRACT_LBLOOM_VALUE ptr j) <= 9999.
Proof.
  unfold EXTRACT_LBLOOM_VALUE.
  pose proof (digit_loop_field_bounds (skipn (S j) ptr)) as H.
  destruct (digit_loop _ _ _ _). exact H.
Qed.

Lemma lbloom_branch_ranged (ptr : list byte) (st st' : statics) (t t' : trace) :
  ranged st -> lbloom_branch ptr st t = Proceed st' t' -> ranged st'.
Proof.
  unfold lbloom_branch. intros (HS & HR & HAS & HAR).
  pose proof (digit_loop_field_bounds ptr) as H1.
  destruct (digit_loop MAX_ARG_DIGITS ptr 0 0) as [v1 j1]. cbn [fst] in H1.
  destruct (v1 =? 0); [discriminate|].
  repeat match goal with
         | |- context [if ?b then _ else _] => destruct b
         | |- context [EXTRACT_LBLOOM_VALUE ?p ?k] =>
             let H := fresh "Hx" in
             pose proof (EXTRACT_bounds p k) as H;
             destruct (EXTRACT_LBLOOM_VALUE p k) as [[? ?] ?]; cbn [snd] in H
         end;
    intros [= <- <-]; unfold ranged; cbn; lia.
Qed.

Lemma scan_step_ranged (s : list byte) (st st' : statics) (t t' : trace) :
  ranged st -> scan_step s st t = Proceed st' t' -> ranged st'.
Proof.
  intros Hr. pose proof Hr as (HS & HR & HAS & HAR). unfold scan_step.
  destruct (BOOTARG_MATCH s "latebloom=").
  { pose proof (latebloom_loop_bounds (skipn (arglen "latebloom=") s)) as H.
    destruct (latebloom_loop _ _ _ _) as [v j]. cbn [fst] in H.
    destruct (v <=? 0) eqn:E; [discriminate|]. apply Z.leb_gt in E.
    intros [= <- <-]. unfold ranged. cbn. lia. }
  destruct (BOOTARG_MATCH s "lb_debug=").
  { intros [= <- <-]. unfold ranged. cbn. lia. }
  destruct (BOOTARG_MATCH s "lb_range=").
  { generalize (ExtractArgValue_bounds (skipn (arglen "lb_range=") s)).
    generalize (ExtractArgValue (skipn (arglen "lb_range=") s)).
    intros v Hv [= <- <-]. unfold ranged. cbn. lia. }
  destruct (BOOTARG_MATCH s "lb_delay2=").
  { generalize (ExtractArgValue_bounds (skipn (arglen "lb_delay2=") s)).
    generalize (ExtractArgValue (skipn (arglen "lb_delay2=") s)).
    intros v Hv [= <- <-]. unfold ranged. cbn. lia. }
  destruct (BOOTARG_MATCH s "lb_range2=").
  { generalize (ExtractArgValue_bounds (skipn (arglen "lb_range2=") s)).
    generalize (ExtractArgValue (skipn (arglen "lb_range2=") s)).
    intros v Hv [= <- <-]. unfold ranged. cbn. lia. }
  destruct (BOOTARG_MATCH s "lbloom=").
  { apply lbloom_branch_ranged. exact Hr. }
  intros [= <- <-]. exact Hr.
Qed.

Lemma scan_ranged (s : list byte) (st st' : statics) (t t' : trace) :
  ranged st -> scan s st t = Proceed st' t' -> ranged st'.
Proof.
  revert st t. induction s as [|c rest IH]; intros st t Hr; cbn [scan].
  - intros [= <- <-]. exact Hr.
  - destruct (c =? 0); [intros [= <- <-]; exact Hr|].
    destruct (scan_step (c :: rest) st t) as [st1 t1|st1 t1] eqn:E; [|discriminate].
    apply IH. exact (scan_step_ranged _ _ _ _ _ Hr E).
Qed.

Lemma initial_ranged : ranged initial_statics.
Proof. unfold ranged. cbn. lia. Qed.

End Scan.

Section Defaults.

Import Config.

Ltac simpl_statics :=
  cbn [SleepValue lb_RandRange lb_DebugLevel lb_AltSleepValue lb_AltRandRange
       set_SleepValue set_lb_RandRange set_lb_DebugLevel set_lb_AltSleepValue
       set_lb_AltRandRange negb fst snd] in *.

Ltac to_props :=
  repeat match goal with
         | H : negb _ = true |- _ => apply negb_true_iff in H
         | H : negb _ = false |- _ => apply negb_false_iff in H
         | H : (_ =? _) = true |- _ => apply Z.eqb_eq in H
         | H : (_ =? _) = false |- _ => apply Z.eqb_neq in H
         | H : (wrap64 ?x >? _) = _ |- _ => rewrite (wrap64_small x) in H by lia
         | H : (_ >? _) = true |- _ => rewrite Z.gtb_ltb in H; apply Z.ltb_lt in H
         | H : (_ >? _) = false |- _ => rewrite Z.gtb_ltb in H; apply Z.ltb_ge in H
         end.

(** The defaults, as equations between the variables before and after. *)
Lemma defaults_spec (st st' : statics) (t t' : trace) :
  ranged st ->
  defaults st t = (st', t') ->
  SleepValue st' = (if SleepValue st =? 0 then DEFAULT_SLEEP else SleepValue st) /\
  lb_AltSleepValue st' =
    (if lb_AltSleepValue st =? -1 then SleepValue st' else lb_AltSleepValue st) /\
  lb_RandRange st' = Z.min (lb_RandRange st) (SleepValue st') /\
  lb_AltRandRange st' =
    Z.min (if lb_AltRandRange st =? -1 then lb_RandRange st' else lb_AltRandRange st)
          (lb_AltSleepValue st') /\
  lb_DebugLevel st' = lb_DebugLevel st.
Proof.
  intros (HS & HR & HAS & HAR). unfold defaults, DEFAULT_SLEEP.
  repeat (simpl_statics;
          match goal with
          | |- context [if ?b then _ else _] =>
              let E := fresh "E" in destruct b eqn:E; to_props
          end);
    simpl_statics; intros [= <- <-]; simpl_statics;
    repeat match goal with
           | |- context [if ?b then _ else _] =>
               let E := fresh "E" in destruct b eqn:E; to_props
           end;
    repeat split; try reflexivity; lia.
Qed.


End Defaults.

Section Lbloom.

Import Config.

Lemma char_at_end (d rest : list byte) :
  char_at (d ++ rest) (length d) = char_at rest 0.
Proof.
  rewrite <- (char_at_app d rest 0). f_equal. lia.
Qed.

Lemma EXTRACT_field (d f rest : list byte) :
  field f -> field_end f rest ->
  EXTRACT_LBLOOM_VALUE (d ++ comma :: f ++ rest) (length d) =
    (f ++ rest, length f, number f).
Proof.
  intros Hf Hend. unfold EXTRACT_LBLOOM_VALUE.
  replace (skipn (S (length d)) (d ++ comma :: f ++ rest)) with (f ++ rest).
  - rewrite digit_loop_field by assumption. reflexivity.
  - replace (d ++ comma :: f ++ rest) with ((d ++ [comma]) ++ f ++ rest)
      by (rewrite <- app_assoc; reflexivity).
    replace (S (length d)) with (length (d ++ [comma]))
      by (rewrite length_app; cbn; lia).
    rewrite skipn_app, skipn_all, Nat.sub_diag. reflexivity.
Qed.

Lemma join_cons_app (f g : list byte) (fs : list (list byte)) (rest : list byte) :
  join (f :: g :: fs) ++ rest = f ++ comma :: (join (g :: fs) ++ rest).
Proof. cbn [join]. rewrite <- app_assoc. reflexivity. Qed.

Lemma field_end_comma (d rest : list byte) : field_end d (comma :: rest).
Proof. right. reflexivity. Qed.

(** The composite key, field by field.  [fs] are the fields as written (one
    to five of them, with commas between), [rest] is what follows the last
    one.  The first field is the delay and must not read as 0. *)
Lemma lbloom_branch_fields (fs : list (list byte)) (rest : list byte)
    (st : statics) (t : trace) :
  (1 <= length fs <= 5)%nat ->
  Forall field fs ->
  field_end (last fs []) rest ->
  ((length fs < 5)%nat -> char_at rest 0 <> comma) ->
  number (nth 0 fs []) <> 0 ->
  exists st',
    lbloom_branch (join fs ++ rest) st t = Proceed st' t /\
    SleepValue st' = number (nth 0 fs []) /\
    lb_RandRange st' = number (nth 1 fs []) /\
    lb_DebugLevel st' = number (nth 2 fs []) /\
    lb_AltSleepValue st' =
      match nth_error fs 3 with
      | None => lb_AltSleepValue st
      | Some [] => number (nth 0 fs [])
      | Some d => number d
      end /\
    lb_AltRandRange st' =
      match nth_error fs 4 with
      | None => lb_AltRandRange st
      | Some d => number d
      end.
Proof.
  intros Hlen Hfs Hend Hnc Hnz.
  assert (Hstop : (length fs < 5)%nat -> (char_at rest 0 =? comma) = false)
    by (intros H; apply Z.eqb_neq; auto).
  destruct fs as [|f1 [|f2 [|f3 [|f4 [|f5 [|f6 fs]]]]]]; cbn [length] in Hlen, Hstop;
    try lia; cbn [last nth] in Hend, Hnz;
    repeat match goal with
           | H : Forall field (_ :: _) |- _ => inversion H; subst; clear H
           end;
    rewrite ?join_cons_app; cbn [join];
    unfold lbloom_branch;
    rewrite digit_loop_field by (auto using field_end_comma);
    cbv beta iota zeta;
    apply Z.eqb_neq in Hnz; rewrite Hnz;
    repeat (rewrite char_at_end;
            first [ rewrite Hstop by lia
                  | cbn [char_at nth]; rewrite Z.eqb_refl;
                    rewrite EXTRACT_field by (auto using field_end_comma) ];
            cbv beta iota zeta);
    (eexists; split; [reflexivity|]); cbn; repeat split; try reflexivity.
  - destruct f4; reflexivity.
  - destruct f4; reflexivity.
Qed.

End Lbloom.

Section ParserClaims.

Import Config.

Lemma scan_step_lbloom (v : list byte) (st : statics) (t : trace) :
  scan_step (str "lbloom=" ++ v) st t = lbloom_branch v st t.
Proof.
  assert (E : BOOTARG_MATCH (str "lbloom=" ++ v) "lbloom=" = true)
    by (vm_compute; reflexivity).
  unfold scan_step.
  rewrite (lbloom_not_latebloom _ E).
  destruct (lbloom_not_lb_ _ E) as (-> & -> & -> & ->).
  rewrite E. reflexivity.
Qed.

Lemma join_head (f1 : list byte) (more : list (list byte)) (rest : list byte) :
  field_end (last (f1 :: more) []) rest ->
  exists rest', join (f1 :: more) ++ rest = f1 ++ rest' /\ field_end f1 rest'.
Proof.
  intros Hend. destruct more as [|f2 more].
  - exists rest. split; [reflexivity | exact Hend].
  - exists (comma :: (join (f2 :: more) ++ rest)).
    split; [apply join_cons_app | apply field_end_comma].
Qed.

End ParserClaims.

(** C3, as amended.  [ParseConfig] returns [Abort] exactly when, at some
    position before the end of the boot-args, the key [latebloom=] or the key
    [lbloom=] stands with a value (a delay field) that reads as 0: the digits
    read (at most four) make the number 0, or there is no digit at all.
    In every other case the parser produces the configuration. *)
Theorem ParseConfig_abort_iff (bootargs : list byte) (st : statics) (t : trace) :
  ((exists st' t', Config.ParseConfig bootargs st t = Config.Abort st' t') <->
   (exists i, (i < Config.strlen bootargs)%nat /\
              Config.delay_key_zero (skipn i bootargs) = true))
  /\
  ((forall i, (i < Config.strlen bootargs)%nat ->
              Config.delay_key_zero (skipn i bootargs) = false) ->
   exists st' t', Config.ParseConfig bootargs st t = Config.Proceed st' t').
Proof.
  pose proof (ParseConfig_is_abort bootargs st t) as Hp.
  pose proof (scan_abort bootargs st t) as Hs.
  split; [split|].
  - intros (st' & t' & H). apply Hs. rewrite <- Hp, H. reflexivity.
  - intros H. apply Hs in H. rewrite <- Hp in H.
    destruct (Config.ParseConfig bootargs st t) as [? ?|st' t']; [discriminate|].
    exists st', t'. reflexivity.
  - intros Hnone.
    destruct (Config.ParseConfig bootargs st t) as [st' t'|st' t'] eqn:E.
    + exists st', t'. reflexivity.
    + exfalso. cbn in Hp. symmetry in Hp. apply Hs in Hp as (i & Hi & Hz).
      rewrite (Hnone i Hi) in Hz. discriminate.
Qed.

(** C3 as it is written fails: a delay key without any digit aborts as well,
    though no 0 is written anywhere in the boot-args. *)
Lemma ParseConfig_abort_without_zero :
  (exists st t, Config.ParseConfig (str "latebloom=") initial_statics [] = Config.Abort st t)
  /\ ~ In 48 (str "latebloom=")
  /\ (exists st t, Config.ParseConfig (str "lbloom=,,1") initial_statics [] = Config.Abort st t)
  /\ ~ In 48 (str "lbloom=,,1").
Proof.
  split; [|split; [|split]].
  - eexists. eexists. vm_compute. reflexivity.
  - vm_compute. intros H.
    repeat (destruct H as [H|H]; [discriminate H|]). exact H.
  - eexists. eexists. vm_compute. reflexivity.
  - vm_compute. intros H.
    repeat (destruct H as [H|H]; [discriminate H|]). exact H.
Qed.

(** C4.  With all five fields written, the composite key assigns them in
    the order delay, range, debug, delay2, range2; so for
    [lbloom=90,20,1,30,5]. *)
Theorem lbloom_five_fields (f1 f2 f3 f4 f5 rest : list byte) (st : statics) (t : trace) :
  Forall Config.field [f1; f2; f3; f4; f5] ->
  Config.number f1 <> 0 ->
  f4 <> [] ->
  Config.field_end f5 rest ->
  (exists st',
     Config.scan_step (str "lbloom=" ++ Config.join [f1; f2; f3; f4; f5] ++ rest) st t
       = Config.Proceed st' t /\
     SleepValue st' = Config.number f1 /\
     lb_RandRange st' = Config.number f2 /\
     lb_DebugLevel st' = Config.number f3 /\
     lb_AltSleepValue st' = Config.number f4 /\
     lb_AltRandRange st' = Config.number f5)
  /\
  (exists st' t',
     Config.ParseConfig (str "lbloom=90,20,1,30,5") initial_statics [] = Config.Proceed st' t' /\
     SleepValue st' = 90 /\ lb_RandRange st' = 20 /\ lb_DebugLevel st' = 1 /\
     lb_AltSleepValue st' = 30 /\ lb_AltRandRange st' = 5).
Proof.
  intros Hf Hnz H4 Hend. split.
  - rewrite scan_step_lbloom.
    destruct (lbloom_branch_fields [f1; f2; f3; f4; f5] rest st t)
      as (st' & Hrun & HS & HR & HD & HAS & HAR);
      try assumption; cbn [length]; try lia.
    exists st'. cbn [nth nth_error] in *.
    repeat split; try assumption.
    destruct f4; [contradiction | exact HAS].
  - eexists. eexists. vm_compute. repeat split.
Qed.

Lemma lbloom_five_fields_witness :
  (Forall Config.field [str "90"; str "20"; str "1"; str "30"; str "5"] /\
   Config.number (str "90") <> 0 /\ str "30" <> [] /\
   Config.field_end (str "5") (str " -v")) /\
  (exists st',
     Config.scan_step (str "lbloom=" ++
                       Config.join [str "90"; str "20"; str "1"; str "30"; str "5"] ++
                       str " -v") initial_statics []
       = Config.Proceed st' [] /\
     SleepValue st' = Config.number (str "90") /\
     lb_RandRange st' = Config.number (str "20") /\
     lb_DebugLevel st' = Config.number (str "1") /\
     lb_AltSleepValue st' = Config.number (str "30") /\
     lb_AltRandRange st' = Config.number (str "5")).
Proof.
  assert (H : Forall Config.field [str "90"; str "20"; str "1"; str "30"; str "5"] /\
              Config.number (str "90") <> 0 /\ str "30" <> [] /\
              Config.field_end (str "5") (str " -v")).
  { split; [|split; [|split]].
    - repeat constructor; cbn; lia.
    - vm_compute. discriminate.
    - vm_compute. discriminate.
    - right. reflexivity. }
  split; [exact H|].
  destruct H as (Hf & Hn & H4 & He).
  exact (proj1 (lbloom_five_fields _ _ _ _ _ _ initial_statics [] Hf Hn H4 He)).
Defined.

(** C5, as amended.  [fs] are the fields of the composite key as written
    (one to five, with commas between), [rest] what follows.  A delay field
    that reads as 0 (also an empty one) aborts.  Otherwise the range and the
    debug field are 0 when absent or empty, and the range2 field is 0 when it
    is written empty; an empty delay2 field takes the value of the delay
    field; delay2 and range2 fields that are absent leave their variables as
    they were. *)
Theorem lbloom_blank_fields (fs : list (list byte)) (rest : list byte)
    (st : statics) (t : trace) :
  (1 <= length fs <= 5)%nat ->
  Forall Config.field fs ->
  Config.field_end (last fs []) rest ->
  ((length fs < 5)%nat -> Config.char_at rest 0 <> Config.comma) ->
  let run := Config.scan_step (str "lbloom=" ++ Config.join fs ++ rest) st t in
  (Config.number (nth 0 fs []) = 0 -> Config.is_abort run = true) /\
  (Config.number (nth 0 fs []) <> 0 ->
   exists st',
     run = Config.Proceed st' t /\
     lb_RandRange st' =
       match nth_error fs 1 with
       | Some (c :: d) => Config.number (c :: d)
       | Some [] | None => 0
       end /\
     lb_DebugLevel st' =
       match nth_error fs 2 with
       | Some (c :: d) => Config.number (c :: d)
       | Some [] | None => 0
       end /\
     lb_AltSleepValue st' =
       match nth_error fs 3 with
       | Some (c :: d) => Config.number (c :: d)
       | Some [] => SleepValue st'
       | None => lb_AltSleepValue st
       end /\
     lb_AltRandRange st' =
       match nth_error fs 4 with
       | Some (c :: d) => Config.number (c :: d)
       | Some [] => 0
       | None => lb_AltRandRange st
       end).
Proof.
  intros Hlen Hfs Hend Hnc run. subst run. rewrite scan_step_lbloom. split.
  - intros Hz. rewrite lbloom_branch_abort. apply Z.eqb_eq.
    destruct fs as [|f1 more]; [cbn in Hlen; lia|].
    destruct (join_head f1 more rest Hend) as (rest' & -> & Hend').
    unfold Config.ExtractArgValue.
    rewrite digit_loop_field; [exact Hz | | exact Hend'].
    inversion Hfs; assumption.
  - intros Hnz.
    destruct (lbloom_branch_fields fs rest st t Hlen Hfs Hend Hnc Hnz)
      as (st' & Hrun & HS & HR & HD & HAS & HAR).
    exists st'. split; [exact Hrun|].
    rewrite HR, HD, HAS, HAR, HS. clear.
    repeat split.
    + destruct fs as [|? [|[|? ?] ?]]; reflexivity.
    + destruct fs as [|? [|? [|[|? ?] ?]]]; reflexivity.
    + destruct fs as [|? [|? [|? [|[|? ?] ?]]]]; reflexivity.
    + destruct fs as [|? [|? [|? [|? [|[|? ?] ?]]]]]; reflexivity.
Qed.

Lemma lbloom_blank_fields_witness :
  ((1 <= length [str "90"; []; str "1"; []] <= 5)%nat /\
   Forall Config.field [str "90"; []; str "1"; []] /\
   Config.field_end (last [str "90"; []; str "1"; []] []) (str " -v") /\
   ((length [str "90"; []; str "1"; []] < 5)%nat ->
    Config.char_at (str " -v") 0 <> Config.comma) /\
   Config.number (str "90") <> 0) /\
  (exists st',
     Config.scan_step
       (str "lbloom=" ++ Config.join [str "90"; []; str "1"; []] ++ str " -v")
       initial_statics [] = Config.Proceed st' [] /\
     lb_RandRange st' = 0 /\ lb_DebugLevel st' = Config.number (str "1") /\
     lb_AltSleepValue st' = SleepValue st' /\ lb_AltRandRange st' = -1).
Proof.
  assert (Hl : (1 <= length [str "90"; []; str "1"; []] <= 5)%nat) by (cbn; lia).
  assert (Hf : Forall Config.field [str "90"; []; str "1"; []])
    by (repeat constructor; cbn; lia).
  assert (He : Config.field_end (last [str "90"; []; str "1"; []] []) (str " -v"))
    by (right; reflexivity).
  assert (Hc : (length [str "90"; []; str "1"; []] < 5)%nat ->
               Config.char_at (str " -v") 0 <> Config.comma)
    by (intros _; vm_compute; discriminate).
  assert (Hn : Config.number (str "90") <> 0) by (vm_compute; discriminate).
  split; [exact (conj Hl (conj Hf (conj He (conj Hc Hn))))|].
  exact (proj2 (lbloom_blank_fields _ _ initial_statics [] Hl Hf He Hc) Hn).
Defined.

(** C5 as it is written fails: a blank delay2 field does not read as 0 but
    as the delay, and an absent range2 field ends as the range. *)
Lemma lbloom_blank_delay2_not_zero :
  (exists st t,
     Config.scan (str "lbloom=90,20,1,,5") initial_statics [] = Config.Proceed st t /\
     lb_AltSleepValue st = 90) /\
  (exists st t,
     Config.ParseConfig (str "lbloom=90,20,1,,5") initial_statics [] = Config.Proceed st t /\
     lb_AltSleepValue st = 90) /\
  (exists st t,
     Config.ParseConfig (str "lbloom=90,20,1") initial_statics [] = Config.Proceed st t /\
     lb_AltRandRange st = 20).
Proof.
  repeat split; eexists; eexists; vm_compute; split; reflexivity.
Qed.




(** ** The symbol resolver *)

Section Resolver.

Import Klookup.

Variable m : mem.

(** [strcmp] against a C string in memory decides equality of the strings. *)
Lemma strcmp_eq_spec (name s : list byte) (a : Z) :
  cstring_at m a s ->
  Forall (fun c => c <> 0) name ->
  (strcmp_eq m a name = true <-> s = name).
Proof.
  revert s a. induction name as [|n name IH]; intros s a (Hb & Hz & Hnz) Hname.
  - cbn [strcmp_eq]. rewrite Z.eqb_eq. destruct s as [|c s].
    + cbn in Hz. rewrite Z.add_0_r in Hz. tauto.
    + specialize (Hb 0%nat ltac:(cbn; lia)). cbn in Hb. rewrite Z.add_0_r in Hb.
      inversion Hnz; subst. split; [intros; congruence | discriminate].
  - cbn [strcmp_eq]. inversion Hname as [|? ? Hn Hname']; subst.
    rewrite andb_true_iff, Z.eqb_eq. destruct s as [|c s].
    + cbn in Hz. rewrite Z.add_0_r in Hz.
      split; [intros [H _]; congruence | discriminate].
    + assert (Hc : m a = c).
      { specialize (Hb 0%nat ltac:(cbn; lia)). cbn in Hb.
        rewrite Z.add_0_r in Hb. exact Hb. }
      assert (Hs : cstring_at m (a + 1) s).
      { inversion Hnz; subst. repeat split; try assumption.
        - intros j Hj. specialize (Hb (S j) ltac:(cbn; lia)). cbn [nth] in Hb.
          rewrite <- Hb. f_equal. lia.
        - cbn [length] in Hz. rewrite <- Hz. f_equal. lia. }
      rewrite (IH s (a + 1) Hs Hname'). split.
      * intros [H1 H2]. congruence.
      * intros [= -> ->]. split; [exact Hc | reflexivity].
Qed.

Lemma total_size_nonneg (cmds : list load_command) :
  Forall command_ok cmds -> 0 <= total_size cmds.
Proof.
  induction 1 as [|c cmds [Hc _] _ IH];
    unfold total_size, sizeof_load_command in *; cbn [fold_right]; lia.
Qed.

Lemma total_size_cons (c : load_command) (cs : list load_command) :
  total_size (c :: cs) = cmdsize c + total_size cs.
Proof. reflexivity. Qed.

Lemma total_size_app (xs ys : list load_command) :
  total_size (xs ++ ys) = total_size xs + total_size ys.
Proof.
  induction xs as [|c xs IH]; cbn [app]; rewrite ?total_size_cons; [reflexivity | lia].
Qed.

Section Walk.

Variables (MachHeader : Z) (name : list byte).
Hypothesis name_ok : Forall (fun c => c <> 0) name.

(** The end of the load commands. *)
Variable cmds_end : Z.
Hypothesis header_ok : 0 <= MachHeader.
Hypothesis end_ok : cmds_end < 2 ^ 64.
Hypothesis sizeofcmds_ok :
  MachHeader + sizeof_mach_header_64 + load32 m (MachHeader + off_sizeofcmds) = cmds_end.

Ltac sizes :=
  unfold sizeof_segment_command_64, sizeof_mach_header_64, sizeof_load_command in *;
  repeat first [rewrite total_size_app in * | rewrite total_size_cons in *];
  change (total_size []) with 0 in *.

(** A command that is not the segment looked for fails the test of the loop. *)
Lemma miss (c : load_command) (p : Z) :
  load32 m (p + off_cmd) = cmd c ->
  (cmd c = LC_SEGMENT_64 -> cstring_at m (p + off_segname) (segname c)) ->
  ~ is_segment name c ->
  (load32 m (p + off_cmd) =? LC_SEGMENT_64) && strcmp_eq m (p + off_segname) name = false.
Proof.
  intros Hcmd Hname Hn.
  rewrite Hcmd. destruct (cmd c =? LC_SEGMENT_64) eqn:Es; [|reflexivity].
  apply Z.eqb_eq in Es. cbn [andb].
  destruct (strcmp_eq m (p + off_segname) name) eqn:Ec; [|reflexivity].
  apply (strcmp_eq_spec name (segname c) _ (Hname Es) name_ok) in Ec.
  exfalso. apply Hn. split; assumption.
Qed.

Lemma hit (c : load_command) (p : Z) :
  load32 m (p + off_cmd) = cmd c ->
  (cmd c = LC_SEGMENT_64 -> cstring_at m (p + off_segname) (segname c)) ->
  is_segment name c ->
  (load32 m (p + off_cmd) =? LC_SEGMENT_64) && strcmp_eq m (p + off_segname) name = true.
Proof.
  intros Hcmd Hname [Hseg Hn].
  rewrite Hcmd, Hseg, Z.eqb_refl. cbn [andb].
  apply (strcmp_eq_spec name (segname c) _ (Hname Hseg) name_ok). exact Hn.
Qed.

(** The loop from a command boundary [p] on when none of the commands left
    is the segment looked for. *)
Lemma FindSegment64_loop_none (cs : list load_command) (p : Z) (fuel : nat) :
  0 <= p ->
  p + total_size cs = cmds_end ->
  0 <= load32 m (MachHeader + off_sizeofcmds) ->
  commands_at m p cs ->
  Forall command_ok cs ->
  Forall (fun c => ~ is_segment name c) cs ->
  (length cs < fuel)%nat ->
  FindSegment64_loop fuel m MachHeader name p = Some 0.
Proof.
  revert p fuel. induction cs as [|c cs IH]; intros p fuel Hp Hend Hsz Hat Hok Hno Hfuel;
    (destruct fuel as [|fuel]; [cbn in Hfuel; lia|]); cbn [FindSegment64_loop];
    sizes; rewrite wrap64_small by lia.
  - destruct (p <? _) eqn:E; [apply Z.ltb_lt in E; lia | reflexivity].
  - destruct (p <? _) eqn:E; [|reflexivity].
    cbn [commands_at] in Hat. destruct Hat as (Hcmd & Hsize & Hname & Hrest).
    inversion Hok as [|? ? Hc Hok']; subst. inversion Hno as [|? ? Hn Hno']; subst.
    rewrite (miss c p Hcmd Hname Hn), Hsize.
    pose proof (total_size_nonneg cs Hok').
    destruct Hc as [Hc _]. sizes.
    rewrite wrap64_small by lia.
    apply IH; try assumption; try lia. cbn in Hfuel. lia.
Qed.

(** The loop from a command boundary [p] on when [c] is the first segment
    of that name among the commands left. *)
Lemma FindSegment64_loop_first (before : list load_command) (c : load_command)
    (after : list load_command) (p : Z) (fuel : nat) :
  0 <= p ->
  p + total_size (before ++ c :: after) = cmds_end ->
  commands_at m p (before ++ c :: after) ->
  Forall command_ok (before ++ c :: after) ->
  Forall (fun c => ~ is_segment name c) before ->
  is_segment name c ->
  (length before < fuel)%nat ->
  FindSegment64_loop fuel m MachHeader name p = Some (p + total_size before).
Proof.
  revert p fuel. induction before as [|b before IH];
    intros p fuel Hp Hend Hat Hok Hno Hseg Hfuel;
    (destruct fuel as [|fuel]; [cbn in Hfuel; lia|]); cbn [FindSegment64_loop];
    cbn [app] in Hend, Hat, Hok; cbn [commands_at] in Hat;
    destruct Hat as (Hcmd & Hsize & Hname & Hrest).
  - inversion Hok as [|? ? Hc Hok']; subst.
    pose proof (total_size_nonneg _ Hok').
    destruct Hc as [_ Hc]. specialize (Hc (proj1 Hseg)).
    sizes. rewrite wrap64_small by lia.
    destruct (p <? _) eqn:E; [|apply Z.ltb_ge in E; lia].
    rewrite (hit c p Hcmd Hname Hseg). f_equal. lia.
  - inversion Hok as [|? ? Hb Hok']; subst.
    inversion Hno as [|? ? Hn Hno']; subst.
    apply Forall_app in Hok' as [Hbefore Hafter].
    pose proof (total_size_nonneg _ Hbefore).
    inversion Hafter as [|? ? Hc Hafter']; subst.
    pose proof (total_size_nonneg _ Hafter').
    destruct Hc as [_ Hc]. specialize (Hc (proj1 Hseg)). destruct Hb as [Hb _].
    sizes. rewrite wrap64_small by lia.
    destruct (p <? _) eqn:E; [|apply Z.ltb_ge in E; lia].
    rewrite (miss b p Hcmd Hname Hn), Hsize. rewrite wrap64_small by lia.
    rewrite (IH (p + cmdsize b) fuel); try assumption; try lia.
    + f_equal. lia.
    + apply Forall_app. split; [assumption | constructor; [|assumption]].
      split; [unfold sizeof_load_command; lia | intros _; exact Hc].
    + cbn in Hfuel. lia.
Qed.

End Walk.

End Resolver.

Section Span.

Import Klookup Layout.

Variables (m : mem) (MachHeader : Z) (name : list byte).
Hypothesis name_ok : Forall (fun c => c <> 0) name.

(** The address at which the loop of [FindSegment64] ends. *)
Variable limit : Z.
Hypothesis limit_at :
  wrap64 (MachHeader + load32 m (MachHeader + off_sizeofcmds)) = limit.





End Span.


(** The example image is an image in the sense of [image_at], and its
    symbol table holds the two example symbols. *)
Lemma example_cstring (a : Z) (s : string) :
  forallb (fun j => Example.memory (a + Z.of_nat j) =? nth j (str s) 0)
          (seq 0 (length (str s))) = true ->
  Example.memory (a + Z.of_nat (length (str s))) = 0 ->
  forallb (fun c => negb (c =? 0)) (str s) = true ->
  Klookup.cstring_at Example.memory a (str s).
Proof.
  intros Hb Hz Hnz. split; [|split].
  - intros j Hj. rewrite forallb_forall in Hb.
    apply Z.eqb_eq. apply Hb. apply in_seq. lia.
  - exact Hz.
  - apply Forall_forall. intros c Hc. rewrite forallb_forall in Hnz.
    specialize (Hnz c Hc). apply negb_true_iff, Z.eqb_neq in Hnz. exact Hnz.
Qed.

Lemma example_image_at :
  Klookup.image_at Example.memory Example.base Example.commands.
Proof.
  unfold Klookup.image_at. split; [|split; [|split; [|split]]].
  - vm_compute. discriminate.
  - vm_compute. reflexivity.
  - vm_compute. reflexivity.
  - cbn [Klookup.commands_at Example.commands].
    split; [vm_compute; reflexivity|].
    split; [vm_compute; reflexivity|].
    split; [intros H; vm_compute in H; discriminate H|].
    split; [vm_compute; reflexivity|].
    split; [vm_compute; reflexivity|].
    split; [|exact I].
    intros _. apply (example_cstring _ "__LINKEDIT"); vm_compute; reflexivity.
  - constructor; [|constructor; [|constructor]]; split.
    + vm_compute. discriminate.
    + intros H. vm_compute in H. discriminate H.
    + vm_compute. discriminate.
    + intros _. vm_compute. discriminate.
Qed.

Lemma nonzero_bytes (s : string) :
  forallb (fun c => negb (c =? 0)) (str s) = true ->
  Forall (fun c => c <> 0) (str s).
Proof.
  intros H. apply Forall_forall. intros c Hc. rewrite forallb_forall in H.
  specialize (H c Hc). apply negb_true_iff, Z.eqb_neq in H. exact H.
Qed.




Section NameList.

Import Klookup.

Variables (m : mem) (strtab : Z) (Symbol : list byte).
Hypothesis Symbol_ok : Forall (fun c => c <> 0) Symbol.

(** The loop over entries of which none has the name looked for. *)
Lemma nlist_loop_none (entries : list symbol) (p : Z) :
  0 <= p ->
  p + sizeof_nlist_64 * Z.of_nat (length entries) < 2 ^ 64 ->
  nlist_at m strtab p entries ->
  Forall (fun e => n_name e <> Symbol) entries ->
  nlist_loop (length entries) m strtab Symbol p = 0.
Proof.
  revert p. induction entries as [|e entries IH]; intros p Hp Hend Hat Hno;
    cbn [length nlist_loop]; [reflexivity|].
  cbn [nlist_at] in Hat. destruct Hat as (Hx & Hs & Hv & Hrest).
  inversion Hno as [|? ? Hn Hno']; subst.
  rewrite Hx.
  destruct (strcmp_eq m (wrap64 (strtab + n_strx e)) Symbol) eqn:E.
  - apply (strcmp_eq_spec m Symbol (n_name e) _ Hs Symbol_ok) in E. contradiction.
  - cbn [length] in Hend. unfold sizeof_nlist_64 in *.
    rewrite wrap64_small by lia. apply IH; try assumption; lia.
Qed.

(** The loop up to the first entry with the name looked for. *)
Lemma nlist_loop_first (before : list symbol) (e : symbol) (after : list symbol) (p : Z) :
  0 <= p ->
  p + sizeof_nlist_64 * Z.of_nat (length (before ++ e :: after)) < 2 ^ 64 ->
  nlist_at m strtab p (before ++ e :: after) ->
  Forall (fun e => n_name e <> Symbol) before ->
  n_name e = Symbol ->
  nlist_loop (length (before ++ e :: after)) m strtab Symbol p = n_value e.
Proof.
  revert p. induction before as [|b before IH]; intros p Hp Hend Hat Hno Hn;
    cbn [app length nlist_loop] in *; cbn [nlist_at] in Hat;
    destruct Hat as (Hx & Hs & Hv & Hrest); rewrite Hx.
  - rewrite (proj2 (strcmp_eq_spec m Symbol (n_name e) _ Hs Symbol_ok) Hn). exact Hv.
  - inversion Hno as [|? ? Hb Hno']; subst.
    destruct (strcmp_eq m (wrap64 (strtab + n_strx b)) (n_name e)) eqn:E.
    + apply (strcmp_eq_spec m (n_name e) (n_name b) _ Hs Symbol_ok) in E. contradiction.
    + unfold sizeof_nlist_64 in *. rewrite wrap64_small by lia.
      apply IH; try assumption; try reflexivity; lia.
Qed.

End NameList.

Section OneCall.

Import Klookup.

Lemma resolutions_app (t1 t2 : trace) :
  resolutions (t1 ++ t2) = (resolutions t1 + resolutions t2)%nat.
Proof. unfold resolutions. rewrite filter_app, length_app. reflexivity. Qed.

Lemma lookup_scan_resolutions (m : mem) (st : ksyms) (Symbol : list byte) :
  resolutions (snd (lookup_scan m st Symbol)) = 0%nat.
Proof. unfold lookup_scan. cbn [snd]. destruct (_ =? 0); reflexivity. Qed.

(** The resolution block calls the unslide function once, however it ends. *)
Lemma resolve_resolutions (fuel : nat) (k : kernel) (m : mem) (st : ksyms)
    (r : (ksyms * trace) + (ksyms * trace)) :
  resolve fuel k m st = Some r ->
  resolutions (match r with inl (_, t) | inr (_, t) => t end) = 1%nat.
Proof.
  unfold resolve. intros H.
  repeat match type of H with
         | context [match ?x with _ => _ end] => destruct x
         end;
    try discriminate H; injection H as <-; reflexivity.
Qed.

(** One call goes into the resolution at most once. *)
Lemma SymbolLookup_resolutions (fuel : nat) (k : kernel) (m : mem) (st st' : ksyms)
    (Symbol : list byte) (a : Z) (t : trace) :
  SymbolLookup fuel k m st Symbol = Some (a, st', t) ->
  (resolutions t <= 1)%nat.
Proof.
  unfold SymbolLookup.
  destruct ((SymbolTable st =? 0) || (StringTable st =? 0) || (NameList st =? 0)).
  - destruct (resolve fuel k m st) as [[[st1 t1]|[st1 t1]]|] eqn:E; try discriminate.
    + intros [= <- <- <-]. rewrite (resolve_resolutions _ _ _ _ _ E). lia.
    + pose proof (lookup_scan_resolutions m st1 Symbol) as Hs.
      destruct (lookup_scan m st1 Symbol) as [a1 t2]. cbn [snd] in Hs.
      intros [= <- <- <-]. rewrite resolutions_app, Hs.
      rewrite (resolve_resolutions _ _ _ _ _ E). lia.
  - pose proof (lookup_scan_resolutions m st Symbol) as Hs.
    destruct (lookup_scan m st Symbol) as [a1 t2]. cbn [snd] in Hs.
    intros [= <- <- <-]. lia.
Qed.

End OneCall.

Section Cached.

Import Klookup.

Variables (m : mem) (st : ksyms).
Hypothesis st_populated : populated st.

(** With the statics populated a call is the scan of the name list and
    nothing else, whatever the fuel and the kernel parameters. *)
Lemma SymbolLookup_populated (fuel : nat) (k : kernel) (Symbol : list byte) :
  SymbolLookup fuel k m st Symbol =
    Some (fst (lookup_scan m st Symbol), st, snd (lookup_scan m st Symbol)).
Proof.
  destruct st_populated as (H1 & H2 & H3). unfold SymbolLookup.
  apply Z.eqb_neq in H1, H2, H3. rewrite H1, H2, H3. cbn [orb].
  destruct (lookup_scan m st Symbol). reflexivity.
Qed.

Lemma lookups_populated (fuel : nat) (k : kernel) (names : list (list byte)) :
  exists t,
    lookups fuel k m st names =
      Some (map (fun name => fst (lookup_scan m st name)) names, st, t) /\
    resolutions t = 0%nat.
Proof.
  induction names as [|name names (t & IH & Ht)]; cbn [lookups map].
  - exists []. split; reflexivity.
  - rewrite SymbolLookup_populated, IH.
    exists (snd (lookup_scan m st name) ++ t). split; [reflexivity|].
    rewrite resolutions_app, lookup_scan_resolutions, Ht. reflexivity.
Qed.

End Cached.

(** C8.  With the symbol table resolved (the statics populated, the name
    list [entries] in memory), [SymbolLookup] goes through the entries in
    order, compares the string of each with [Symbol], and returns the value
    of the first entry whose string is [Symbol]; when no entry has that
    string it returns [NULL] and reports the symbol as not found. *)
Theorem SymbolLookup_linear_scan (m : mem) (k : Klookup.kernel) (st : Klookup.ksyms)
    (entries : list Klookup.symbol) (Symbol : list byte) (fuel : nat) :
  Klookup.populated st ->
  Klookup.symtab_at m st entries ->
  Forall (fun c => c <> 0) Symbol ->
  (forall before e after,
      entries = before ++ e :: after ->
      Forall (fun x => Klookup.n_name x <> Symbol) before ->
      Klookup.n_name e = Symbol ->
      exists t, Klookup.SymbolLookup fuel k m st Symbol = Some (Klookup.n_value e, st, t))
  /\
  (Forall (fun x => Klookup.n_name x <> Symbol) entries ->
   Klookup.SymbolLookup fuel k m st Symbol =
     Some (0, st, [Printf MsgSymbolNotFound []; IOLog MsgSymbolNotFound])).
Proof.
  intros Hpop (Hn & Hp & Hend & Hat) Hsym.
  rewrite (SymbolLookup_populated m st Hpop).
  unfold Klookup.lookup_scan. rewrite Hn, Nat2Z.id. cbn [fst snd]. split.
  - intros before e after -> Hno He.
    rewrite (nlist_loop_first m _ Symbol Hsym before e after); try assumption.
    eexists. reflexivity.
  - intros Hno.
    rewrite (nlist_loop_none m _ Symbol Hsym entries); try assumption.
    reflexivity.
Qed.

(** C9.  Once the statics are populated, any further calls of
    [SymbolLookup] leave them as they are and do not go through the load
    commands again (no call of [vm_kernel_unslide_or_perm_external], the
    first step of the resolution; the result does not depend on the fuel of
    the walks either), and the address returned for a name is a function of
    the name: looking a name up again gives the same address.  So a run of
    calls whose first call populates the statics goes into the resolution at
    most once. *)
Theorem SymbolLookup_resolves_once (m : mem) (st : Klookup.ksyms) :
  Klookup.populated st ->
  forall (fuel : nat) (k : Klookup.kernel) (names : list (list byte)),
  (exists (addrs : list Z) (t : trace),
     Klookup.lookups fuel k m st names = Some (addrs, st, t) /\
     Klookup.resolutions t = 0%nat /\
     addrs = map (fun name => fst (Klookup.lookup_scan m st name)) names /\
     (forall i j, nth_error names i = nth_error names j ->
                  nth_error addrs i = nth_error addrs j))
  /\
  (forall (st0 : Klookup.ksyms) (first : list byte) (a : Z) (t0 : trace),
     Klookup.SymbolLookup fuel k m st0 first = Some (a, st, t0) ->
     exists (addrs : list Z) (t : trace),
       Klookup.lookups fuel k m st0 (first :: names) = Some (a :: addrs, st, t) /\
       (Klookup.resolutions t <= 1)%nat).
Proof.
  intros Hpop fuel k names.
  destruct (lookups_populated m st Hpop fuel k names) as (t & Hrun & Hres).
  split.
  - eexists. exists t. split; [exact Hrun|]. split; [exact Hres|].
    split; [reflexivity|].
    intros i j Hij. rewrite !nth_error_map, Hij. reflexivity.
  - intros st0 first a t0 Hfirst.
    eexists. exists (t0 ++ t). split.
    + cbn [Klookup.lookups]. rewrite Hfirst, Hrun. reflexivity.
    + rewrite resolutions_app, Hres.
      pose proof (SymbolLookup_resolutions _ _ _ _ _ _ _ _ Hfirst). lia.
Qed.

Lemma example_populated : Klookup.populated Example.resolved.
Proof. repeat split; vm_compute; discriminate. Qed.

Lemma example_symtab_at :
  Klookup.symtab_at Example.memory Example.resolved Example.symbols.
Proof.
  unfold Klookup.symtab_at. split; [|split; [|split]].
  - vm_compute. reflexivity.
  - vm_compute. discriminate.
  - vm_compute. reflexivity.
  - cbn [Klookup.nlist_at Example.symbols].
    split; [vm_compute; reflexivity|].
    split; [apply (example_cstring _ "_printf"); vm_compute; reflexivity|].
    split; [vm_compute; reflexivity|].
    split; [vm_compute; reflexivity|].
    split; [apply (example_cstring _ "_PE_boot_args"); vm_compute; reflexivity|].
    split; [vm_compute; reflexivity | exact I].
Qed.

Lemma SymbolLookup_linear_scan_witness :
  (Klookup.populated Example.resolved /\
   Klookup.symtab_at Example.memory Example.resolved Example.symbols /\
   Forall (fun c => c <> 0) (str "_PE_boot_args")) /\
  (exists t,
     Klookup.SymbolLookup 0 Example.kernel Example.memory Example.resolved
       (str "_PE_boot_args") = Some (Example.boot_args_fn, Example.resolved, t)).
Proof.
  pose proof example_populated as Hp.
  pose proof example_symtab_at as Hs.
  assert (Hn : Forall (fun c => c <> 0) (str "_PE_boot_args"))
    by (apply nonzero_bytes; vm_compute; reflexivity).
  split; [exact (conj Hp (conj Hs Hn))|].
  apply (proj1 (SymbolLookup_linear_scan Example.memory Example.kernel Example.resolved
                  Example.symbols (str "_PE_boot_args") 0 Hp Hs Hn)
           [Klookup.mkSymbol 1 (str "_printf") 0x4800]
           (Klookup.mkSymbol 9 (str "_PE_boot_args") Example.boot_args_fn) []).
  - reflexivity.
  - constructor; [|constructor]. intros H. vm_compute in H. discriminate H.
  - reflexivity.
Defined.

Lemma SymbolLookup_resolves_once_witness :
  Klookup.populated Example.resolved /\
  (exists (addrs : list Z) (t : trace),
     Klookup.lookups 0 Example.kernel Example.memory Example.resolved
       [str "_PE_boot_args"; str "_printf"; str "_PE_boot_args"]
       = Some (addrs, Example.resolved, t) /\
     Klookup.resolutions t = 0%nat /\
     addrs = map (fun name => fst (Klookup.lookup_scan Example.memory Example.resolved name))
               [str "_PE_boot_args"; str "_printf"; str "_PE_boot_args"] /\
     (forall i j,
         nth_error [str "_PE_boot_args"; str "_printf"; str "_PE_boot_args"] i =
         nth_error [str "_PE_boot_args"; str "_printf"; str "_PE_boot_args"] j ->
         nth_error addrs i = nth_error addrs j)).
Proof.
  split; [exact example_populated|].
  exact (proj1 (SymbolLookup_resolves_once Example.memory Example.resolved
                  example_populated 0 Example.kernel
                  [str "_PE_boot_args"; str "_printf"; str "_PE_boot_args"])).
Defined.

(** From the statics of load time the first call resolves the example image
    (one call of the unslide function); the later calls do not. *)
Example lookups_from_load_time :
  Klookup.lookups 3 Example.kernel Example.memory Klookup.initial_ksyms
    [str "_PE_boot_args"; str "_printf"; str "_PE_boot_args"; str "_nosuch"] =
  Some ([Example.boot_args_fn; 0x4800; Example.boot_args_fn; 0],
        Example.resolved,
        [Unslide 0x4800; Printf MsgSymbolNotFound []; IOLog MsgSymbolNotFound]).
Proof. vm_compute. reflexivity. Qed.

(** ** [latebloom_start] *)

(** C10.  On a kernel older than Big Sur [latebloom_start] prints its
    message, sleeps four seconds and returns: the module variables, the
    statics of the resolver and the memory are as before, and the two calls
    are all it does (no resolution, no call for the boot-args, no patch, no
    device). *)
Theorem latebloom_start_old_kernel (fuel : nat) (e : env) (w : world) :
  Klookup.version_major (kern e) < BIGSUR_XNU_MAJOR_VERSION ->
  exists w',
    latebloom_start fuel e w = Some w' /\
    vars w' = vars w /\
    syms w' = syms w /\
    memory w' = memory w /\
    calls w' = calls w ++ [Printf MsgVersionAbort [Klookup.version_major (kern e)];
                           IOSleep (4 * MILLISECONDS_PER_SECOND)].
Proof.
  intros Hv. unfold latebloom_start.
  apply Z.ltb_lt in Hv. rewrite Hv.
  eexists. split; [reflexivity|]. cbn. repeat split.
Qed.

Lemma latebloom_start_old_kernel_witness :
  Klookup.version_major (kern (Machine.old_env "lbloom=90")) < BIGSUR_XNU_MAJOR_VERSION /\
  (exists w',
     latebloom_start 3 (Machine.old_env "lbloom=90") (initial_world Machine.memory) = Some w' /\
     vars w' = initial_statics /\
     syms w' = Klookup.initial_ksyms /\
     memory w' = Machine.memory /\
     calls w' = [Printf MsgVersionAbort [19]; IOSleep 4000]).
Proof.
  split; [vm_compute; reflexivity|].
  apply (latebloom_start_old_kernel 3 (Machine.old_env "lbloom=90")
           (initial_world Machine.memory)).
  vm_compute. reflexivity.
Defined.

(** The same machine on Big Sur: the boot-args are read and the hook is
    placed at the pattern found at offset 5 of the target function. *)
Example latebloom_start_big_sur :
  option_map
    (fun w' =>
       (SleepValue (vars w'), lb_RandRange (vars w'), lb_DebugLevel (vars w'),
        lb_AltSleepValue (vars w'), lb_AltRandRange (vars w'),
        ProbeAddress (vars w'), WhichPattern (vars w'), lb_jump_address (vars w'),
        Machine.bytes_at (memory w') (Machine.probe + 5) 14,
        Machine.bytes_at (memory w') Machine.exit_addr 14))
    (latebloom_start 3 (Machine.boot_env "-v lbloom=90,20,1,30,5")
       (initial_world Machine.memory)) =
  Some (90, 20, 1, 30, 5,
        Machine.probe, 1, Machine.probe + 5 + 14,
        [0xff; 0x25; 0; 0; 0; 0] ++ le_bytes64 Machine.hook_addr,
        Hook.BytePattern115b2).
Proof. vm_compute. reflexivity. Qed.

(** ** The parser and the hook together *)

(** What the parser hands to the hook: delays of at most four digits, the
    Phase 1 delay not 0, every range between 0 and its delay. *)
Lemma ParseConfig_ranges (bootargs : list byte) (st : statics) (t : trace) :
  Config.ParseConfig bootargs initial_statics [] = Config.Proceed st t ->
  0 < SleepValue st <= 9999 /\ 0 <= lb_RandRange st <= SleepValue st /\
  0 <= lb_AltSleepValue st <= 9999 /\ 0 <= lb_AltRandRange st <= lb_AltSleepValue st.
Proof.
  unfold Config.ParseConfig.
  destruct (Config.scan bootargs initial_statics []) as [st1 t1|] eqn:Hscan; [|discriminate].
  destruct (Config.defaults st1 t1) as [st2 t2] eqn:Hd. intros [= <- <-].
  pose proof (scan_ranged _ _ _ _ _ initial_ranged Hscan) as Hr.
  destruct (defaults_spec _ _ _ _ Hr Hd) as (HS & HAS & HR & HAR & _).
  destruct Hr as (R1 & R2 & R3 & R4). unfold DEFAULT_SLEEP in *.
  destruct (SleepValue st1 =? 0) eqn:E1;
    destruct (lb_AltSleepValue st1 =? -1) eqn:E2;
    destruct (lb_AltRandRange st1 =? -1) eqn:E3;
    rewrite ?Z.eqb_eq, ?Z.eqb_neq in *; lia.
Qed.

(** So for the values the parser produces the delay of either phase stays
    within its range around the base, without any assumption on them. *)
Lemma hook_delay_after_ParseConfig (bootargs : list byte) (st : statics) (t : trace)
    (tsc1 tsc2 : Z) :
  Config.ParseConfig bootargs initial_statics [] = Config.Proceed st t ->
  (let d := Trampoline.hook_delay (SleepValue st) (lb_RandRange st) tsc1 tsc2 in
   SleepValue st - lb_RandRange st <= d <= SleepValue st + lb_RandRange st /\ 0 <= d) /\
  (let d := Trampoline.hook_delay (lb_AltSleepValue st) (lb_AltRandRange st) tsc1 tsc2 in
   lb_AltSleepValue st - lb_AltRandRange st <= d <= lb_AltSleepValue st + lb_AltRandRange st
   /\ 0 <= d).
Proof.
  intros H. apply ParseConfig_ranges in H as (HS & HR & HAS & HAR).
  assert (Hgen : forall B R, 0 <= R <= B -> B <= 9999 ->
            let d := Trampoline.hook_delay B R tsc1 tsc2 in
            B - R <= d <= B + R /\ 0 <= d).
  { intros B R HRB HB d. subst d.
    destruct (Z.eq_dec R 0) as [->|Hnz].
    - unfold Trampoline.hook_delay. change (wrap32 0 =? 0) with true. cbv iota.
      rewrite wrap32_small by lia. lia.
    - pose proof (offset_range B R ltac:(lia) tsc1).
      destruct (Z.eq_dec (Z.land (Trampoline.rdtsc_eax tsc2) 1) 0) as [E|E].
      + rewrite hook_delay_even by (try assumption; lia). lia.
      + rewrite hook_delay_odd by (try assumption; lia). lia. }
  split; apply Hgen; lia.
Qed.

(** ** The end test of the two walks over the load commands *)

(** Both walks stop at [MachHeader + sizeofcmds]: a command that begins at
    or behind that address is not looked at. *)
Lemma FindSegment64_loop_end (fuel : nat) (m : mem) (MachHeader : Z)
    (name : list byte) (p : Z) :
  wrap64 (MachHeader + load32 m (MachHeader + Klookup.off_sizeofcmds)) <= p ->
  Klookup.FindSegment64_loop (S fuel) m MachHeader name p = Some 0.
Proof.
  intros H. cbn [Klookup.FindSegment64_loop].
  destruct (p <? _) eqn:E; [apply Z.ltb_lt in E; lia | reflexivity].
Qed.

Lemma symtab_loop_end (fuel : nat) (m : mem) (MachHeader p : Z) :
  wrap64 (MachHeader + load32 m (MachHeader + Klookup.off_sizeofcmds)) <= p ->
  Klookup.symtab_loop (S fuel) m MachHeader p = Some 0.
Proof.
  intros H. cbn [Klookup.symtab_loop].
  destruct (p <? _) eqn:E; [apply Z.ltb_lt in E; lia | reflexivity].
Qed.

(** * Further properties of the code *)

(** ** The hook over many runs *)

Section HookRuns.

Import Trampoline Run.

Lemma do_sleep_config (i : hook_input) (edi : Z) (s : statics) :
  same_config s (fst (do_sleep i edi s)) /\
  CurrentThread (fst (do_sleep i edi s)) = CurrentThread s /\
  fDeviceNode (fst (do_sleep i edi s)) = fDeviceNode s.
Proof. unfold do_sleep, same_config. cbn. repeat split. Qed.

Lemma latebloom_hook_config (i : hook_input) (s : statics) :
  same_config s (fst (latebloom_hook i s)).
Proof.
  unfold latebloom_hook, do_sleep, same_config. cbv zeta.
  repeat (match goal with
          | |- context [if ?b then _ else _] => destruct b
          end; cbn);
    repeat split.
Qed.

Lemma latebloom_hook_thread (i : hook_input) (s : statics) :
  CurrentThread (fst (latebloom_hook i s)) =
    if CurrentThread s =? 0 then gs_thread i else CurrentThread s.
Proof.
  unfold latebloom_hook, do_sleep. cbv zeta.
  destruct (CurrentThread s =? 0) eqn:E0; cbn;
    repeat (match goal with
            | |- context [if ?b then _ else _] => destruct b
            end; cbn);
    reflexivity.
Qed.

Lemma same_config_trans (a b c : statics) :
  same_config a b -> same_config b c -> same_config a c.
Proof. unfold same_config. intuition congruence. Qed.

Lemma same_config_refl (a : statics) : same_config a a.
Proof. unfold same_config. repeat split. Qed.

(** One run of the hook with the first thread already stored. *)
Lemma latebloom_hook_phase (i : hook_input) (s s0 : statics) (T : Z) :
  T <> 0 -> CurrentThread s = T -> same_config s0 s ->
  phase_ok s0 T i (snd (latebloom_hook i s)).
Proof.
  intros HT Hc (_ & _ & _ & _ & HS & _ & HR & HAS & HAR & _).
  unfold phase_ok, latebloom_hook. rewrite Hc.
  destruct (T =? 0) eqn:E0; [apply Z.eqb_eq in E0; contradiction|].
  rewrite Hc. rewrite (Z.eqb_sym T (gs_thread i)).
  destruct (gs_thread i =? T) eqn:Eg.
  - unfold do_sleep. cbn [snd]. rewrite HS, HR. eexists. reflexivity.
  - rewrite <- HAS, <- HAR.
    destruct (fDeviceNode s =? 0); cbn [lb_AltSleepValue lb_AltRandRange set_fDeviceNode];
      destruct (wrap32 (lb_AltSleepValue s) =? 0); unfold do_sleep; cbn [snd app In];
      try reflexivity; auto.
Qed.

Lemma hook_run_phases (inputs : list hook_input) (s s0 : statics) (T : Z) :
  T <> 0 -> CurrentThread s = T -> same_config s0 s ->
  Forall2 (phase_ok s0 T) inputs (snd (hook_run inputs s)) /\
  CurrentThread (fst (hook_run inputs s)) = T /\
  same_config s0 (fst (hook_run inputs s)).
Proof.
  intros HT. revert s. induction inputs as [|i rest IH]; intros s Hc Hcfg; cbn [hook_run].
  - cbn [fst snd]. split; [constructor | split; assumption].
  - pose proof (latebloom_hook_phase i s s0 T HT Hc Hcfg) as Hp.
    pose proof (latebloom_hook_thread i s) as Ht.
    pose proof (latebloom_hook_config i s) as Hk.
    destruct (latebloom_hook i s) as [s1 t]. cbn [fst snd] in *.
    rewrite Hc in Ht. destruct (T =? 0) eqn:E0; [apply Z.eqb_eq in E0; contradiction|].
    destruct (IH s1 Ht (same_config_trans _ _ _ Hcfg Hk)) as (H1 & H2 & H3).
    destruct (hook_run rest s1) as [s2 ts]. cbn [fst snd] in *.
    split; [constructor; assumption | split; assumption].
Qed.

End HookRuns.

(** X1.  Over any number of runs of the hook the variables set by the parser
    and the installer stay as they were: the hook writes only
    [CurrentThread], [fDeviceNode] and [lb_PCI_counter]. *)
Theorem hook_run_keeps_config (inputs : list Trampoline.hook_input) (s : statics) :
  Run.same_config s (fst (Run.hook_run inputs s)).
Proof.
  revert s. induction inputs as [|i rest IH]; intros s; cbn [Run.hook_run].
  - apply same_config_refl.
  - pose proof (latebloom_hook_config i s) as Hk.
    destruct (Trampoline.latebloom_hook i s) as [s1 t]. cbn [fst] in Hk.
    specialize (IH s1). destruct (Run.hook_run rest s1) as [s2 ts]. cbn [fst] in *.
    exact (same_config_trans _ _ _ Hk IH).
Qed.

(** X2.  The thread of the first run is stored and kept: from then on a run
    sleeps for the Phase 1 delay exactly when it is on that thread; on any
    other thread it sleeps for the Phase 2 delay, or not at all when the
    Phase 2 delay is 0. *)
Theorem hook_run_phase_by_first_thread (i0 : Trampoline.hook_input)
    (rest : list Trampoline.hook_input) (s : statics) :
  CurrentThread s = 0 ->
  Trampoline.gs_thread i0 <> 0 ->
  CurrentThread (fst (Run.hook_run (i0 :: rest) s)) = Trampoline.gs_thread i0 /\
  Forall2 (Run.phase_ok s (Trampoline.gs_thread i0)) (i0 :: rest)
    (snd (Run.hook_run (i0 :: rest) s)).
Proof.
  intros H0 HT. cbn [Run.hook_run].
  pose proof (latebloom_hook_thread i0 s) as Ht.
  pose proof (latebloom_hook_config i0 s) as Hk.
  destruct (latebloom_hook_phase1 i0 s (or_intror H0)) as (s1' & t' & Hrun).
  destruct (Trampoline.latebloom_hook i0 s) as [s1 t]. cbn [fst] in *.
  rewrite H0 in Ht. cbn [Z.eqb] in Ht.
  destruct (hook_run_phases rest s1 s _ HT Ht Hk) as (H1 & H2 & _).
  destruct (Run.hook_run rest s1) as [s2 ts]. cbn [fst snd] in *.
  split; [exact H2|]. constructor; [|exact H1].
  unfold Run.phase_ok. rewrite Z.eqb_refl.
  injection Hrun as _ ->. eexists. reflexivity.
Qed.

Lemma hook_run_phase_by_first_thread_witness :
  let i1 := Trampoline.Build_hook_input 7 1234567 8 0 in
  let i2 := Trampoline.Build_hook_input 9 1234567 9 0 in
  let s := set_lb_AltRandRange 5 (set_lb_AltSleepValue 30
             (set_lb_RandRange 20 (set_SleepValue 90 initial_statics))) in
  (CurrentThread s = 0 /\ Trampoline.gs_thread i1 <> 0) /\
  CurrentThread (fst (Run.hook_run [i1; i2; i1] s)) = 7 /\
  Forall2 (Run.phase_ok s 7) [i1; i2; i1] (snd (Run.hook_run [i1; i2; i1] s)).
Proof.
  intros i1 i2 s.
  assert (H0 : CurrentThread s = 0) by reflexivity.
  assert (HT : Trampoline.gs_thread i1 <> 0) by (cbn; lia).
  split; [exact (conj H0 HT)|].
  exact (hook_run_phase_by_first_thread i1 [i2; i1] s H0 HT).
Defined.

Section HookEffects.

Import Trampoline Run.

Lemma count_app (f : event -> bool) (t1 t2 : trace) :
  count f (t1 ++ t2) = (count f t1 + count f t2)%nat.
Proof. unfold count. rewrite filter_app, length_app. reflexivity. Qed.

(** The node, the attempts and the sleeps of one run of the hook. *)
Lemma latebloom_hook_node (i : hook_input) (s : statics) :
  let phase2 := negb (CurrentThread s =? 0) && negb (CurrentThread s =? gs_thread i) in
  let try_it := phase2 && (fDeviceNode s =? 0) in
  fDeviceNode (fst (latebloom_hook i s)) =
    (if try_it then devfs_result i else fDeviceNode s) /\
  filter is_make_node (snd (latebloom_hook i s)) =
    (if try_it then [DevfsMakeNode (wrap32 (fBaseDev s)) 256] else []).
Proof.
  unfold latebloom_hook, do_sleep. cbv zeta.
  destruct (CurrentThread s =? 0) eqn:E0; cbn [CurrentThread set_CurrentThread negb andb].
  - rewrite Z.eqb_refl. cbn. destruct (Z.land _ _ =? 0); split; reflexivity.
  - destruct (CurrentThread s =? gs_thread i) eqn:Eg; cbn [negb andb].
    + cbn. destruct (Z.land _ _ =? 0); split; reflexivity.
    + destruct (fDeviceNode s =? 0) eqn:Ed;
        cbn [lb_AltSleepValue set_fDeviceNode fBaseDev];
        destruct (wrap32 (lb_AltSleepValue s) =? 0); cbn;
        try (destruct (Z.land _ _ =? 0)); split; reflexivity.
Qed.

Lemma incl64_small (c : Z) : 0 <= c < 2 ^ 32 - 1 -> incl64 c = c + 1.
Proof.
  intros H. unfold incl64. rewrite (Z.div_small c) by lia.
  rewrite (wrap32_small c) by lia. rewrite wrap32_small by lia. lia.
Qed.

Lemma latebloom_hook_counter (i : hook_input) (s : statics) :
  let n := count is_sleep (snd (latebloom_hook i s)) in
  (n <= 1)%nat /\
  lb_PCI_counter (fst (latebloom_hook i s)) =
    (if Nat.eqb n 0 then lb_PCI_counter s else incl64 (lb_PCI_counter s)).
Proof.
  unfold latebloom_hook, do_sleep, count. cbv zeta.
  destruct (CurrentThread s =? 0); cbn;
    repeat (match goal with
            | |- context [if ?b then _ else _] => destruct b
            end; cbn);
    split; try reflexivity; lia.
Qed.

End HookEffects.

(** X3.  The hook makes the device node only in Phase 2 and only while
    there is none.  A run on another thread than the first that finds
    [fDeviceNode] [NULL] calls [devfs_make_node(fBaseDev, ..., 0400, ...)]
    once and stores what it returns; a run on the first thread never calls
    it; and a run that finds the node there does not call it and leaves
    [fDeviceNode] as it is.  (Each part is about one run, from its test of
    [fDeviceNode] to its end.) *)
Theorem hook_device_node_once (i : Trampoline.hook_input) (s : statics) :
  (CurrentThread s <> 0 -> CurrentThread s <> Trampoline.gs_thread i ->
   fDeviceNode s = 0 ->
   fDeviceNode (fst (Trampoline.latebloom_hook i s)) = Trampoline.devfs_result i /\
   filter Run.is_make_node (snd (Trampoline.latebloom_hook i s)) =
     [DevfsMakeNode (wrap32 (fBaseDev s)) 256])
  /\
  (CurrentThread s = 0 \/ CurrentThread s = Trampoline.gs_thread i ->
   fDeviceNode (fst (Trampoline.latebloom_hook i s)) = fDeviceNode s /\
   filter Run.is_make_node (snd (Trampoline.latebloom_hook i s)) = [])
  /\
  (fDeviceNode s <> 0 ->
   fDeviceNode (fst (Trampoline.latebloom_hook i s)) = fDeviceNode s /\
   filter Run.is_make_node (snd (Trampoline.latebloom_hook i s)) = []).
Proof.
  split; [|split].
  - intros H0 Hg Hd. destruct (latebloom_hook_node i s) as [H1 H2].
    apply Z.eqb_neq in H0, Hg. rewrite H0, Hg, Hd in H1, H2. cbn in H1, H2. tauto.
  - intros H. destruct (latebloom_hook_node i s) as [H1 H2].
    destruct (CurrentThread s =? 0) eqn:E0; cbn [negb andb] in H1, H2; [tauto|].
    destruct H as [H|H]; [apply Z.eqb_neq in E0; contradiction|].
    rewrite H, Z.eqb_refl in H1, H2. cbn [negb andb] in H1, H2. tauto.
  - intros Hd. destruct (latebloom_hook_node i s) as [H1 H2].
    apply Z.eqb_neq in Hd. rewrite Hd, andb_false_r in H1, H2. tauto.
Qed.

Lemma hook_device_node_once_witness :
  let i := Trampoline.Build_hook_input 9 1234567 8 0x55 in
  let s := set_CurrentThread 7 (set_fBaseDev 0x13000000
             (set_lb_AltSleepValue 30 (set_SleepValue 90 initial_statics))) in
  (CurrentThread s <> 0 /\ CurrentThread s <> Trampoline.gs_thread i /\
   fDeviceNode s = 0) /\
  fDeviceNode (fst (Trampoline.latebloom_hook i s)) = Trampoline.devfs_result i /\
  filter Run.is_make_node (snd (Trampoline.latebloom_hook i s)) =
    [DevfsMakeNode (wrap32 (fBaseDev s)) 256].
Proof.
  intros i s.
  assert (H1 : CurrentThread s <> 0) by (cbn; lia).
  assert (H2 : CurrentThread s <> Trampoline.gs_thread i) by (cbn; lia).
  assert (H3 : fDeviceNode s = 0) by reflexivity.
  split; [exact (conj H1 (conj H2 H3))|].
  exact (proj1 (hook_device_node_once i s) H1 H2 H3).
Defined.

(** X4.  [lb_PCI_counter] counts the sleeps.  In one run of the hook the
    low 32 bits of the counter are incremented once exactly when the run
    sleeps, and a run sleeps at most once.  Over the runs of Phase 1, which
    are all on the first thread [T] and so come one after the other, every
    run sleeps once and the counter grows by the number of runs (as long as
    it stays below 2^32). *)
Theorem hook_run_counts_sleeps (inputs : list Trampoline.hook_input) (s : statics)
    (T : Z) :
  (forall i s0,
      let n := Run.count Run.is_sleep (snd (Trampoline.latebloom_hook i s0)) in
      (n <= 1)%nat /\
      lb_PCI_counter (fst (Trampoline.latebloom_hook i s0)) =
        if Nat.eqb n 0 then lb_PCI_counter s0
        else (lb_PCI_counter s0 / 2 ^ 32) * 2 ^ 32
             + (lb_PCI_counter s0 mod 2 ^ 32 + 1) mod 2 ^ 32)
  /\
  (T <> 0 ->
   CurrentThread s = 0 \/ CurrentThread s = T ->
   Forall (fun i => Trampoline.gs_thread i = T) inputs ->
   0 <= lb_PCI_counter s ->
   lb_PCI_counter s + Z.of_nat (length inputs) < 2 ^ 32 ->
   lb_PCI_counter (fst (Run.hook_run inputs s)) =
     lb_PCI_counter s + Z.of_nat (length inputs) /\
   Forall (fun t => Run.count Run.is_sleep t = 1%nat) (snd (Run.hook_run inputs s))).
Proof.
  split.
  - intros i s0. exact (latebloom_hook_counter i s0).
  - intros HT. revert s.
    induction inputs as [|i rest IH]; intros s Hc Hall H0 Hlt; cbn [Run.hook_run].
    + cbn. split; [lia | constructor].
    + apply Forall_cons_iff in Hall as [Hi Hall]. cbn [length] in Hlt.
      destruct (latebloom_hook_phase1 i s) as (s' & t & E);
        [rewrite Hi; destruct Hc; [right|left]; assumption|].
      destruct (latebloom_hook_counter i s) as [H1 H2].
      pose proof (latebloom_hook_thread i s) as Hth.
      rewrite E in H1, H2, Hth. cbn [fst snd] in H1, H2, Hth. rewrite E.
      assert (Hn : Run.count Run.is_sleep
                     (IOSleep (Trampoline.hook_delay (SleepValue s) (lb_RandRange s)
                                 (Trampoline.tsc1 i) (Trampoline.tsc2 i)) :: t) = 1%nat).
      { unfold Run.count in *. cbn [filter Run.is_sleep length] in *. lia. }
      rewrite Hn in H2. cbn [Nat.eqb] in H2.
      rewrite incl64_small in H2 by lia.
      assert (Hc' : CurrentThread s' = 0 \/ CurrentThread s' = T).
      { right. rewrite Hth. destruct (CurrentThread s =? 0) eqn:E0; [exact Hi|].
        apply Z.eqb_neq in E0. destruct Hc; [contradiction | assumption]. }
      destruct (IH s' Hc' Hall ltac:(lia) ltac:(lia)) as [IH1 IH2].
      destruct (Run.hook_run rest s') as [s2 ts]. cbn [fst snd length] in *.
      split; [lia|]. constructor; [exact Hn | exact IH2].
Qed.

Lemma hook_run_counts_sleeps_witness :
  let i1 := Trampoline.Build_hook_input 7 1234567 8 0 in
  let i2 := Trampoline.Build_hook_input 7 7654321 9 0 in
  let s := set_lb_RandRange 20 (set_SleepValue 90 initial_statics) in
  (7 <> 0 /\
   (CurrentThread s = 0 \/ CurrentThread s = 7) /\
   Forall (fun i => Trampoline.gs_thread i = 7) [i1; i2; i1] /\
   0 <= lb_PCI_counter s /\
   lb_PCI_counter s + Z.of_nat (length [i1; i2; i1]) < 2 ^ 32) /\
  lb_PCI_counter (fst (Run.hook_run [i1; i2; i1] s)) =
    lb_PCI_counter s + Z.of_nat (length [i1; i2; i1]) /\
  Forall (fun t => Run.count Run.is_sleep t = 1%nat) (snd (Run.hook_run [i1; i2; i1] s)).
Proof.
  intros i1 i2 s.
  assert (H1 : 7 <> 0) by lia.
  assert (H2 : CurrentThread s = 0 \/ CurrentThread s = 7) by (left; reflexivity).
  assert (H3 : Forall (fun i => Trampoline.gs_thread i = 7) [i1; i2; i1])
    by (repeat constructor).
  assert (H4 : 0 <= lb_PCI_counter s) by (cbn; lia).
  assert (H5 : lb_PCI_counter s + Z.of_nat (length [i1; i2; i1]) < 2 ^ 32)
    by (cbn; lia).
  split; [exact (conj H1 (conj H2 (conj H3 (conj H4 H5))))|].
  exact (proj2 (hook_run_counts_sleeps [i1; i2; i1] s 7) H1 H2 H3 H4 H5).
Defined.

(** X5.  The hook prints its line for a run exactly when the run sleeps and
    [lb_DebugLevel] is odd: it tests bit 0, so [lb_debug=2] prints nothing. *)
Theorem hook_prints_iff_odd_debug (i : Trampoline.hook_input) (s : statics) :
  existsb Run.is_printf (snd (Trampoline.latebloom_hook i s)) =
    existsb Run.is_sleep (snd (Trampoline.latebloom_hook i s))
    && Z.odd (lb_DebugLevel s).
Proof.
  assert (Hbit : (Z.land (wrap32 (lb_DebugLevel s)) 1 =? 0) = negb (Z.odd (lb_DebugLevel s))).
  { change 1 with (Z.ones 1). rewrite Z.land_ones by lia. unfold wrap32.
    change (2 ^ 1) with 2.
    rewrite Z.mod_mod_divide by (exists (2 ^ 31); reflexivity).
    rewrite Zmod_odd. destruct (Z.odd (lb_DebugLevel s)); reflexivity. }
  unfold Trampoline.latebloom_hook, Trampoline.do_sleep. cbv zeta.
  destruct (CurrentThread s =? 0);
    cbn -[Z.land wrap32 Trampoline.hook_delay Trampoline.incl64 Z.odd Z.eqb];
    repeat (match goal with
            | |- context [if ?b then _ else _] =>
                lazymatch b with
                | (Z.land _ _ =? 0) => fail
                | _ => destruct b
                end
            end;
            cbn -[Z.land wrap32 Trampoline.hook_delay Trampoline.incl64 Z.odd Z.eqb]);
    rewrite ?Hbit; destruct (Z.odd (lb_DebugLevel s)); reflexivity.
Qed.

(** ** The parser: digits, missing keys, what it leaves alone *)

(** X6.  [ExtractArgValue] reads at most four digits: for digits [d] (at most
    four) that end where [rest] begins (no digit follows, or [d] is full) it
    returns the number [d] denotes, which is 0 for no digit and at most 9999;
    what follows a fourth digit is not read. *)
Theorem ExtractArgValue_reads_field (d rest : list byte) :
  Config.field d ->
  Config.field_end d rest ->
  Config.ExtractArgValue (d ++ rest) = Config.number d /\
  0 <= Config.number d <= 9999 /\
  (d = [] -> Config.ExtractArgValue (d ++ rest) = 0).
Proof.
  intros Hf He.
  assert (H : Config.ExtractArgValue (d ++ rest) = Config.number d).
  { unfold Config.ExtractArgValue. rewrite digit_loop_field by assumption. reflexivity. }
  split; [exact H|]. split.
  - rewrite <- H. apply ExtractArgValue_bounds.
  - intros ->. rewrite H. reflexivity.
Qed.

Lemma ExtractArgValue_reads_field_witness :
  (Config.field (str "1234") /\ Config.field_end (str "1234") (str "5,90")) /\
  Config.ExtractArgValue (str "1234" ++ str "5,90") = 1234.
Proof.
  assert (Hf : Config.field (str "1234")) by (repeat constructor; cbn; lia).
  assert (He : Config.field_end (str "1234") (str "5,90")) by (left; reflexivity).
  split; [exact (conj Hf He)|].
  exact (proj1 (ExtractArgValue_reads_field _ _ Hf He)).
Defined.

Section NoKeys.

Import Config Keys.

Lemma scan_step_no_key (s : list byte) (st : statics) (t : trace) :
  key_at s = false -> scan_step s st t = Proceed st t.
Proof.
  unfold key_at, scan_step. intros H.
  repeat (apply orb_false_iff in H; destruct H as [H ?]).
  repeat match goal with E : BOOTARG_MATCH _ _ = false |- _ => rewrite E; clear E end.
  reflexivity.
Qed.

Lemma scan_no_key (s : list byte) (st : statics) (t : trace) :
  (forall i, (i < strlen s)%nat -> key_at (skipn i s) = false) ->
  scan s st t = Proceed st t.
Proof.
  induction s as [|c rest IH]; intros H; cbn [scan]; [reflexivity|].
  destruct (c =? 0) eqn:Ec; [reflexivity|].
  rewrite scan_step_no_key.
  - apply IH. intros i Hi. apply (H (S i)). cbn [strlen]. rewrite Ec. lia.
  - apply (H 0%nat). cbn [strlen]. rewrite Ec. lia.
Qed.

Ltac frame_tac :=
  unfold same_rest; cbn; repeat split.

Lemma lbloom_branch_rest (ptr : list byte) (st : statics) (t : trace) :
  same_rest st (state_of (lbloom_branch ptr st t)).
Proof.
  unfold lbloom_branch.
  destruct (digit_loop MAX_ARG_DIGITS ptr 0 0) as [lbval j].
  destruct (lbval =? 0); [frame_tac|].
  repeat match goal with
         | |- context [if ?b then _ else _] => destruct b
         | |- context [EXTRACT_LBLOOM_VALUE ?p ?k] =>
             destruct (EXTRACT_LBLOOM_VALUE p k) as [[? ?] ?]
         end; frame_tac.
Qed.

Lemma scan_step_rest (s : list byte) (st : statics) (t : trace) :
  same_rest st (state_of (scan_step s st t)).
Proof.
  unfold scan_step.
  destruct (BOOTARG_MATCH s "latebloom=").
  { destruct (latebloom_loop _ _ _ _) as [v j]. destruct (v <=? 0); frame_tac. }
  destruct (BOOTARG_MATCH s "lb_debug="); [frame_tac|].
  destruct (BOOTARG_MATCH s "lb_range="); [frame_tac|].
  destruct (BOOTARG_MATCH s "lb_delay2="); [frame_tac|].
  destruct (BOOTARG_MATCH s "lb_range2="); [frame_tac|].
  destruct (BOOTARG_MATCH s "lbloom="); [apply lbloom_branch_rest | frame_tac].
Qed.

Lemma same_rest_trans (a b c : statics) :
  same_rest a b -> same_rest b c -> same_rest a c.
Proof. unfold same_rest. intuition congruence. Qed.

Lemma same_rest_refl (a : statics) : same_rest a a.
Proof. unfold same_rest. repeat split. Qed.

Lemma scan_rest (s : list byte) (st : statics) (t : trace) :
  same_rest st (state_of (scan s st t)).
Proof.
  revert st t. induction s as [|c rest IH]; intros st t; cbn [scan].
  - apply same_rest_refl.
  - destruct (c =? 0); [apply same_rest_refl|].
    pose proof (scan_step_rest (c :: rest) st t) as H.
    destruct (scan_step (c :: rest) st t) as [st1 t1|st1 t1]; cbn [state_of] in *.
    + exact (same_rest_trans _ _ _ H (IH st1 t1)).
    + exact H.
Qed.

Lemma defaults_rest (st : statics) (t : trace) :
  same_rest st (fst (defaults st t)).
Proof.
  unfold defaults.
  repeat (cbn [SleepValue lb_RandRange lb_AltSleepValue lb_AltRandRange
               set_SleepValue set_lb_RandRange set_lb_AltSleepValue
               set_lb_AltRandRange negb];
          match goal with
          | |- context [if ?b then _ else _] => destruct b
          end);
    frame_tac.
Qed.

End NoKeys.

(** X7.  Boot-args without any of the six keys (also empty ones) do not
    abort: the parser leaves the defaults, 60 ms for both phases and no
    random range, and reports them. *)
Theorem ParseConfig_without_keys (bootargs : list byte) :
  (forall i, (i < Config.strlen bootargs)%nat -> Keys.key_at (skipn i bootargs) = false) ->
  Config.ParseConfig bootargs initial_statics [] =
    Config.Proceed
      (set_lb_AltRandRange 0
         (set_lb_AltSleepValue DEFAULT_SLEEP (set_SleepValue DEFAULT_SLEEP initial_statics)))
      [Printf MsgDefaultDelay [DEFAULT_SLEEP]; Printf MsgNoPhase2Delay [DEFAULT_SLEEP]].
Proof.
  intros H. unfold Config.ParseConfig. rewrite scan_no_key by exact H. reflexivity.
Qed.

Lemma ParseConfig_without_keys_witness :
  (forall i, (i < Config.strlen (str "-v keepsyms=1"))%nat ->
             Keys.key_at (skipn i (str "-v keepsyms=1")) = false) /\
  Config.ParseConfig (str "-v keepsyms=1") initial_statics [] =
    Config.Proceed
      (set_lb_AltRandRange 0
         (set_lb_AltSleepValue DEFAULT_SLEEP (set_SleepValue DEFAULT_SLEEP initial_statics)))
      [Printf MsgDefaultDelay [DEFAULT_SLEEP]; Printf MsgNoPhase2Delay [DEFAULT_SLEEP]].
Proof.
  assert (H : forall i, (i < Config.strlen (str "-v keepsyms=1"))%nat ->
                        Keys.key_at (skipn i (str "-v keepsyms=1")) = false).
  { intros i Hi. do 13 (destruct i as [|i]; [reflexivity|]).
    exfalso. vm_compute in Hi. lia. }
  split; [exact H|].
  exact (ParseConfig_without_keys _ H).
Defined.

(** X8.  A delay of more than four digits in the composite key ends the
    key: its first four digits are the delay, the fields behind it are not
    read, range and debug level are 0 and the Phase 2 variables stay as they
    were ([lbloom=12345,90,1] is read as 1234, 0, 0). *)
Theorem lbloom_overlong_delay (d : list byte) (c : byte) (rest : list byte)
    (st : statics) (t : trace) :
  Forall (fun x => Config.is_digit x = true) d ->
  length d = MAX_ARG_DIGITS ->
  Config.is_digit c = true ->
  Config.number d <> 0 ->
  exists st',
    Config.scan_step (str "lbloom=" ++ d ++ c :: rest) st t = Config.Proceed st' t /\
    SleepValue st' = Config.number d /\
    lb_RandRange st' = 0 /\ lb_DebugLevel st' = 0 /\
    lb_AltSleepValue st' = lb_AltSleepValue st /\
    lb_AltRandRange st' = lb_AltRandRange st.
Proof.
  intros Hd Hlen Hc Hnz. rewrite scan_step_lbloom.
  destruct (lbloom_branch_fields [d] (c :: rest) st t)
    as (st' & Hrun & HS & HR & HD & HAS & HAR).
  - cbn. lia.
  - constructor; [|constructor]. split; [exact Hd | lia].
  - left. exact Hlen.
  - intros _. cbn. intros ->. discriminate Hc.
  - exact Hnz.
  - exists st'. cbn [Config.join nth nth_error] in *. repeat split; assumption.
Qed.

Lemma lbloom_overlong_delay_witness :
  (Forall (fun x => Config.is_digit x = true) (str "1234") /\
   length (str "1234") = MAX_ARG_DIGITS /\
   Config.is_digit 53 = true /\ Config.number (str "1234") <> 0) /\
  (exists st',
     Config.scan_step (str "lbloom=" ++ str "1234" ++ 53 :: str ",90,1")
       initial_statics [] = Config.Proceed st' [] /\
     SleepValue st' = Config.number (str "1234") /\
     lb_RandRange st' = 0 /\ lb_DebugLevel st' = 0 /\
     lb_AltSleepValue st' = -1 /\ lb_AltRandRange st' = -1).
Proof.
  assert (Hd : Forall (fun x => Config.is_digit x = true) (str "1234"))
    by (repeat constructor).
  assert (Hl : length (str "1234") = MAX_ARG_DIGITS) by reflexivity.
  assert (Hc : Config.is_digit 53 = true) by reflexivity.
  assert (Hn : Config.number (str "1234") <> 0) by (vm_compute; discriminate).
  split; [exact (conj Hd (conj Hl (conj Hc Hn)))|].
  exact (lbloom_overlong_delay _ 53 (str ",90,1") initial_statics [] Hd Hl Hc Hn).
Defined.

(** X9.  Whatever the boot-args and however it ends, the parser changes
    only [SleepValue], [lb_RandRange], [lb_DebugLevel], [lb_AltSleepValue] and
    [lb_AltRandRange]. *)
Theorem ParseConfig_changes_only_config (bootargs : list byte) (st : statics) (t : trace) :
  Keys.same_rest st (Keys.state_of (Config.ParseConfig bootargs st t)).
Proof.
  unfold Config.ParseConfig.
  pose proof (scan_rest bootargs st t) as H.
  destruct (Config.scan bootargs st t) as [st1 t1|st1 t1]; cbn [Keys.state_of] in *.
  - pose proof (defaults_rest st1 t1) as Hd.
    destruct (Config.defaults st1 t1) as [st2 t2]. cbn [fst Keys.state_of] in *.
    exact (same_rest_trans _ _ _ H Hd).
  - exact H.
Qed.

(** ** From the boot-args to the sleeps *)

Lemma latebloom_hook_sleeps (i : Trampoline.hook_input) (s : statics) (ms : Z) :
  In (IOSleep ms) (snd (Trampoline.latebloom_hook i s)) ->
  ms = Trampoline.hook_delay (SleepValue s) (lb_RandRange s)
         (Trampoline.tsc1 i) (Trampoline.tsc2 i) \/
  ms = Trampoline.hook_delay (lb_AltSleepValue s) (lb_AltRandRange s)
         (Trampoline.tsc1 i) (Trampoline.tsc2 i).
Proof.
  unfold Trampoline.latebloom_hook, Trampoline.do_sleep. cbv zeta.
  destruct (CurrentThread s =? 0);
    cbn -[Z.land wrap32 Trampoline.hook_delay Trampoline.incl64 Z.eqb];
    repeat (match goal with
            | |- context [if ?b then _ else _] => destruct b
            end;
            cbn -[Z.land wrap32 Trampoline.hook_delay Trampoline.incl64 Z.eqb]);
    intros H;
    repeat match goal with
           | H : _ \/ _ |- _ => destruct H
           | H : False |- _ => destruct H
           | H : IOSleep _ = IOSleep _ |- _ => injection H as <-
           | H : _ = IOSleep _ |- _ => discriminate H
           end; auto.
Qed.

(** ** The pattern scan: what a result means *)

Section ScanSound.

Import Hook.

Variable m : mem.

Lemma pattern_loop_result (a : Z) (pats : list (list byte)) (w j : Z) :
  (pattern_loop m a pats w j = (j, w + Z.of_nat (length pats)) /\
   forall pat, In pat pats -> memcmp_eq m a pat = false)
  \/
  (exists idx pat,
      nth_error pats idx = Some pat /\ memcmp_eq m a pat = true /\
      pattern_loop m a pats w j = (a, w + Z.of_nat idx)).
Proof.
  revert w. induction pats as [|p pats IH]; intros w; cbn [pattern_loop length].
  - left. split; [f_equal; lia | intros pat []].
  - destruct (memcmp_eq m a p) eqn:E.
    + right. exists 0%nat, p. repeat split; [exact E | f_equal; lia].
    + destruct (IH (w + 1)) as [[H1 H2]|(idx & pat & H1 & H2 & H3)].
      * left. split; [rewrite H1; f_equal; lia|].
        intros pat [<-|Hin]; [exact E | exact (H2 pat Hin)].
      * right. exists (S idx), pat. repeat split; try assumption.
        rewrite H3. f_equal. lia.
Qed.

(** The loop from a code address [a] on: nothing found and nothing there to
    find, or the first offset with a match. *)
Lemma scan_loop_result (n : nat) (a w : Z) :
  0 < a ->
  (fst (scan_loop n m a 0 w) = 0 /\
   forall k, (k < n)%nat -> no_match m (a + Z.of_nat k))
  \/
  (exists (K idx : nat) (pat : list byte),
      (K < n)%nat /\ nth_error BytePatterns idx = Some pat /\
      memcmp_eq m (a + Z.of_nat K) pat = true /\
      (forall k, (k < K)%nat -> no_match m (a + Z.of_nat k)) /\
      scan_loop n m a 0 w = (a + Z.of_nat K, Z.of_nat idx)).
Proof.
  revert a w. induction n as [|n IH]; intros a w Ha; cbn [scan_loop Z.eqb].
  - left. split; [reflexivity | intros k Hk; lia].
  - destruct (pattern_loop_result a BytePatterns 0 0) as [[H1 H2]|(idx & pat & H1 & H2 & H3)].
    + rewrite H1.
      destruct (IH (a + 1) (0 + Z.of_nat (length BytePatterns)) ltac:(lia))
        as [[H Hn]|(K & idx & pat & HK & Hn & Hm & Hb & Hr)].
      * left. split; [exact H|].
        intros [|k] Hk pat' Hin.
        -- rewrite Z.add_0_r. exact (H2 pat' Hin).
        -- replace (a + Z.of_nat (S k)) with (a + 1 + Z.of_nat k) by lia.
           apply (Hn k); [lia | exact Hin].
      * right. exists (S K), idx, pat.
        replace (a + Z.of_nat (S K)) with (a + 1 + Z.of_nat K) by lia.
        split; [lia|]. split; [exact Hn|]. split; [exact Hm|]. split; [|exact Hr].
        intros [|k] Hk pat' Hin.
        -- rewrite Z.add_0_r. exact (H2 pat' Hin).
        -- replace (a + Z.of_nat (S k)) with (a + 1 + Z.of_nat k) by lia.
           apply (Hb k); [lia | exact Hin].
    + rewrite H3. right. exists 0%nat, idx, pat. rewrite Z.add_0_r.
      split; [lia|]. split; [exact H1|]. split; [exact H2|]. split.
      * intros k Hk. lia.
      * rewrite scan_loop_found by lia. f_equal.
Qed.

End ScanSound.

(** X11.  What the scan returns is what is there: a result other than 0 is
    the address of an offset inside the window at which the catalogue entry
    of the returned index matches byte for byte, with no match at any offset
    before it; the result 0 comes with the index 3 of the end of the
    catalogue and means that no entry matches at any offset of the window. *)
Theorem pattern_scan_sound (m : mem) (Probe w0 : Z) :
  0 < Probe ->
  let '(jump, which) := Hook.pattern_scan m Probe w0 in
  if jump =? 0
  then forall K, 0 <= K < HOOK_WINDOW_SIZE -> Hook.no_match m (Probe + K)
  else
    Probe <= jump < Probe + HOOK_WINDOW_SIZE /\
    0 <= which < 3 /\
    memcmp_eq m jump (nth (Z.to_nat which) Hook.BytePatterns []) = true /\
    (forall j, (j < 14)%nat ->
               m (jump + Z.of_nat j) = nth j (nth (Z.to_nat which) Hook.BytePatterns []) 0) /\
    (forall K, Probe <= K < jump -> Hook.no_match m K).
Proof.
  intros Hp. unfold Hook.pattern_scan.
  destruct (scan_loop_result m (Z.to_nat HOOK_WINDOW_SIZE) Probe w0 Hp)
    as [[H Hn]|(K & idx & pat & HK & Hnth & Hm & Hb & Hr)].
  - destruct (Hook.scan_loop _ _ _ _ _) as [jump which]. cbn [fst] in H. subst jump.
    cbn [Z.eqb]. intros K HK.
    replace (Probe + K) with (Probe + Z.of_nat (Z.to_nat K)) by lia.
    apply Hn. lia.
  - rewrite Hr.
    destruct (Probe + Z.of_nat K =? 0) eqn:E; [apply Z.eqb_eq in E; lia|].
    assert (Hidx : (idx < 3)%nat).
    { assert (H : nth_error Hook.BytePatterns idx <> None) by congruence.
      apply nth_error_Some in H. exact H. }
    assert (Hpat : nth (Z.to_nat (Z.of_nat idx)) Hook.BytePatterns [] = pat).
    { rewrite Nat2Z.id. apply nth_error_nth. exact Hnth. }
    rewrite Hpat.
    pose proof (catalogue_lengths pat (nth_error_In _ _ Hnth)) as Hlen.
    unfold HOOK_WINDOW_SIZE in *.
    split; [lia|]. split; [lia|]. split; [exact Hm|]. split.
    + intros j Hj. apply (proj1 (memcmp_eq_spec m pat _) Hm). lia.
    + intros A HA. replace A with (Probe + Z.of_nat (Z.to_nat (A - Probe))) by lia.
      apply Hb. lia.
Qed.

Lemma pattern_scan_sound_witness :
  let m := mem_of_list 1000 ([1; 2; 3; 4; 5] ++ Hook.BytePattern115b2 ++ [7; 7]) in
  0 < 1000 /\
  (1000 <= 1005 < 1000 + HOOK_WINDOW_SIZE /\
   0 <= 1 < 3 /\
   memcmp_eq m 1005 (nth (Z.to_nat 1) Hook.BytePatterns []) = true /\
   (forall j, (j < 14)%nat ->
              m (1005 + Z.of_nat j) = nth j (nth (Z.to_nat 1) Hook.BytePatterns []) 0) /\
   (forall K, 1000 <= K < 1005 -> Hook.no_match m K)).
Proof.
  intros m. split; [lia|].
  pose proof (pattern_scan_sound m 1000 0 ltac:(lia)) as H.
  assert (E : Hook.pattern_scan m 1000 0 = (1005, 1)) by (vm_compute; reflexivity).
  rewrite E in H. exact H.
Defined.

(** ** The patch *)

Section Patch.

Lemma store_bytes_spec (bs : list byte) (m : mem) (p a : Z) :
  store_bytes m p bs a =
    if (p <=? a) && (a <? p + Z.of_nat (length bs))
    then nth (Z.to_nat (a - p)) bs 0 else m a.
Proof.
  revert m p. induction bs as [|b bs IH]; intros m p; cbn [store_bytes length].
  - destruct (p <=? a) eqn:E1; destruct (a <? p + Z.of_nat 0) eqn:E2; cbn [andb];
      try reflexivity. apply Z.leb_le in E1. apply Z.ltb_lt in E2. lia.
  - rewrite IH. unfold store8.
    destruct (p + 1 <=? a) eqn:E1; destruct (a <? p + 1 + Z.of_nat (length bs)) eqn:E2;
      destruct (p <=? a) eqn:E3; destruct (a <? p + Z.of_nat (S (length bs))) eqn:E4;
      destruct (a =? p) eqn:E5; cbn [andb];
      rewrite ?Z.leb_le, ?Z.leb_gt, ?Z.ltb_lt, ?Z.ltb_ge, ?Z.eqb_eq, ?Z.eqb_neq in *;
      try lia; try reflexivity.
    + replace (Z.to_nat (a - p)) with (S (Z.to_nat (a - (p + 1)))) by lia. reflexivity.
    + subst a. rewrite Z.sub_diag. reflexivity.
Qed.

Lemma bytes_at_nth (m : mem) (a : Z) (n k : nat) :
  (k < n)%nat -> nth k (Machine.bytes_at m a n) 0 = m (a + Z.of_nat k).
Proof.
  intros Hk. unfold Machine.bytes_at.
  rewrite nth_indep with (d' := m (a + Z.of_nat 0))
    by (rewrite length_map, length_seq; exact Hk).
  rewrite (map_nth (fun i => m (a + Z.of_nat i)) (seq 0 n) 0%nat k).
  rewrite seq_nth by exact Hk. reflexivity.
Qed.

Lemma bytes_at_ext (m : mem) (a : Z) (l : list byte) :
  (forall k, (k < length l)%nat -> m (a + Z.of_nat k) = nth k l 0) ->
  Machine.bytes_at m a (length l) = l.
Proof.
  intros H. apply (nth_ext _ _ 0 0).
  - unfold Machine.bytes_at. rewrite length_map, length_seq. reflexivity.
  - intros k Hk. unfold Machine.bytes_at in Hk. rewrite length_map, length_seq in Hk.
    rewrite bytes_at_nth by exact Hk. apply H. exact Hk.
Qed.

Lemma le_bytes64_length (v : Z) : length (le_bytes64 v) = 8%nat.
Proof. reflexivity. Qed.

(** The eight bytes written for a 64-bit value read back as that value. *)
Lemma load64_le_bytes64 (m : mem) (a v : Z) :
  (forall k, (k < 8)%nat -> m (a + Z.of_nat k) = nth k (le_bytes64 v) 0) ->
  load64 m a = wrap64 v.
Proof.
  intros H. unfold load64, load32.
  pose proof (H 0%nat ltac:(lia)) as H0. pose proof (H 1%nat ltac:(lia)) as H1.
  pose proof (H 2%nat ltac:(lia)) as H2. pose proof (H 3%nat ltac:(lia)) as H3.
  pose proof (H 4%nat ltac:(lia)) as H4. pose proof (H 5%nat ltac:(lia)) as H5.
  pose proof (H 6%nat ltac:(lia)) as H6. pose proof (H 7%nat ltac:(lia)) as H7.
  cbn [Z.of_nat Pos.of_succ_nat Pos.succ] in *.
  rewrite Z.add_0_r in H0.
  replace (a + 4 + 1) with (a + 5) by lia. replace (a + 4 + 2) with (a + 6) by lia.
  replace (a + 4 + 3) with (a + 7) by lia.
  rewrite H0, H1, H2, H3, H4, H5, H6, H7.
  clear H H0 H1 H2 H3 H4 H5 H6 H7.
  pose proof (wrap64_range v) as Hr. unfold le_bytes64. cbn [map nth].
  generalize dependent (wrap64 v). intros x Hr.
  change (8 * 0) with 0. change (8 * 1) with 8. change (8 * 2) with 16.
  change (8 * 3) with 24. change (8 * 4) with 32. change (8 * 5) with 40.
  change (8 * 6) with 48. change (8 * 7) with 56.
  change (2 ^ 0) with 1. change (2 ^ 8) with 256. change (2 ^ 16) with 65536.
  change (2 ^ 24) with 16777216. change (2 ^ 32) with 4294967296.
  change (2 ^ 40) with 1099511627776. change (2 ^ 48) with 281474976710656.
  change (2 ^ 56) with 72057594037927936.
  change (2 ^ 64) with 18446744073709551616 in Hr.
  Z.div_mod_to_equations. lia.
Qed.

Variables (m : mem) (jump hook_addr exit_addr : Z) (pat : list byte).
Hypothesis jump_ok : 0 <= jump.
Hypothesis no_wrap : jump + 14 <= 2 ^ 64.
Hypothesis pat_length : length pat = 14%nat.
Hypothesis apart : exit_addr + 14 <= jump \/ jump + 14 <= exit_addr.

Lemma write_hook_at (a : Z) :
  Hook.write_hook m jump hook_addr exit_addr pat a =
    if (exit_addr <=? a) && (a <? exit_addr + 14)
    then nth (Z.to_nat (a - exit_addr)) pat 0
    else if (jump + 6 <=? a) && (a <? jump + 14)
    then nth (Z.to_nat (a - (jump + 6))) (le_bytes64 hook_addr) 0
    else if (jump <=? a) && (a <? jump + 6)
    then nth (Z.to_nat (a - jump)) [0xff; 0x25; 0; 0; 0; 0] 0
    else m a.
Proof.
  unfold Hook.write_hook, store64.
  rewrite (wrap64_small (jump + 6)) by lia.
  rewrite !store_bytes_spec, pat_length, !le_bytes64_length.
  change (Z.of_nat 14) with 14. change (Z.of_nat 8) with 8.
  replace (jump + 6 + 8) with (jump + 14) by lia.
  destruct ((exit_addr <=? a) && (a <? exit_addr + 14)); [reflexivity|].
  destruct ((jump + 6 <=? a) && (a <? jump + 14)) eqn:E2; [reflexivity|].
  destruct (jump <=? a) eqn:E3; destruct (a <? jump + 8) eqn:E4;
    destruct (a <? jump + 6) eqn:E5; cbn [andb]; try reflexivity;
    rewrite ?andb_false_iff, ?Z.leb_le, ?Z.leb_gt, ?Z.ltb_lt, ?Z.ltb_ge in *; try lia.
  assert (Ha : a - jump = 0 \/ a - jump = 1 \/ a - jump = 2 \/ a - jump = 3 \/
               a - jump = 4 \/ a - jump = 5) by lia.
  destruct Ha as [->|[->|[->|[->|[->| ->]]]]]; reflexivity.
Qed.

(** What the patch leaves in memory. *)
Lemma write_hook_spec :
  let m' := Hook.write_hook m jump hook_addr exit_addr pat in
  Machine.bytes_at m' jump 6 = [0xff; 0x25; 0; 0; 0; 0] /\
  load64 m' (jump + 6) = wrap64 hook_addr /\
  Machine.bytes_at m' exit_addr 14 = pat /\
  (forall a, ~ jump <= a < jump + 14 -> ~ exit_addr <= a < exit_addr + 14 -> m' a = m a).
Proof.
  intros m'. subst m'. split; [|split; [|split]].
  - apply (bytes_at_ext _ jump [0xff; 0x25; 0; 0; 0; 0]).
    intros k Hk. cbn [length] in Hk. rewrite write_hook_at.
    destruct ((exit_addr <=? _) && _) eqn:E1;
      [apply andb_true_iff in E1; rewrite Z.leb_le, Z.ltb_lt in E1; lia|].
    destruct ((jump + 6 <=? _) && _) eqn:E2;
      [apply andb_true_iff in E2; rewrite Z.leb_le, Z.ltb_lt in E2; lia|].
    destruct ((jump <=? _) && _) eqn:E3;
      [|apply andb_false_iff in E3; rewrite Z.leb_gt, Z.ltb_ge in E3; lia].
    f_equal. lia.
  - apply load64_le_bytes64. intros k Hk. rewrite write_hook_at.
    destruct ((exit_addr <=? _) && _) eqn:E1;
      [apply andb_true_iff in E1; rewrite Z.leb_le, Z.ltb_lt in E1; lia|].
    destruct ((jump + 6 <=? _) && _) eqn:E2;
      [|apply andb_false_iff in E2; rewrite Z.leb_gt, Z.ltb_ge in E2; lia].
    f_equal. lia.
  - rewrite <- pat_length. apply bytes_at_ext. intros k Hk. rewrite write_hook_at.
    destruct ((exit_addr <=? _) && _) eqn:E1;
      [|apply andb_false_iff in E1; rewrite Z.leb_gt, Z.ltb_ge in E1; lia].
    f_equal. lia.
  - intros a H1 H2. rewrite write_hook_at.
    destruct ((exit_addr <=? _) && _) eqn:E1;
      [apply andb_true_iff in E1; rewrite Z.leb_le, Z.ltb_lt in E1; lia|].
    destruct ((jump + 6 <=? _) && _) eqn:E2;
      [apply andb_true_iff in E2; rewrite Z.leb_le, Z.ltb_lt in E2; lia|].
    destruct ((jump <=? _) && _) eqn:E3;
      [apply andb_true_iff in E3; rewrite Z.leb_le, Z.ltb_lt in E3; lia|].
    reflexivity.
Qed.

End Patch.

(** X12.  The installer, entered with no hook placed yet.  When no entry of
    the catalogue matches at any offset of the window, it reports that and
    leaves memory and [lb_jump_address] as they were.  When [pat], the entry
    [idx] of the catalogue, stands at offset [K] of the window and nothing
    matches before, it patches exactly two places: at the match it writes
    [ff 25 00 00 00 00] followed by the 64-bit address of the hook, so that
    the indirect jump lands in the hook; into the exit slot of the hook it
    copies [pat], the fourteen bytes that it overwrote; it keeps the address
    of the target function and the index [idx], the saved return address is
    the byte after the jump, and every other byte of memory is unchanged.
    The target function must lie above address 0 and below the end of the
    address space, and the exit slot outside the patched code. *)
Theorem install_stage_patch (e : env) (w : world) :
  let probe :=
    wrap64 (latebloom_hook_addr e +
            sext32 (load32 (memory w) (latebloom_hook_addr e - 4))) in
  let exit_addr := lb_hook_exit_addr e in
  let w' := install_stage e w in
  lb_jump_address (vars w) = 0 ->
  0 < probe ->
  probe + HOOK_WINDOW_SIZE + 14 <= 2 ^ 64 ->
  exit_addr + 14 <= probe \/ probe + HOOK_WINDOW_SIZE + 14 <= exit_addr ->
  ((forall K, 0 <= K < HOOK_WINDOW_SIZE -> Hook.no_match (memory w) (probe + K)) ->
   lb_jump_address (vars w') = 0 /\
   memory w' = memory w /\
   calls w' = calls w ++ [Printf MsgFirstTime []; Printf MsgPatternNotFound [];
                          IOSleep (4 * MILLISECONDS_PER_SECOND)])
  /\
  (forall (K : Z) (idx : nat) (pat : list byte),
      0 <= K < HOOK_WINDOW_SIZE ->
      nth_error Hook.BytePatterns idx = Some pat ->
      memcmp_eq (memory w) (probe + K) pat = true ->
      (forall K', 0 <= K' < K -> Hook.no_match (memory w) (probe + K')) ->
      ProbeAddress (vars w') = probe /\
      WhichPattern (vars w') = Z.of_nat idx /\
      lb_jump_address (vars w') = probe + K + 14 /\
      Machine.bytes_at (memory w') (probe + K) 6 = [0xff; 0x25; 0; 0; 0; 0] /\
      load64 (memory w') (probe + K + 6) = wrap64 (latebloom_hook_addr e) /\
      Machine.bytes_at (memory w') exit_addr 14 = pat /\
      Machine.bytes_at (memory w) (probe + K) 14 = pat /\
      (forall a, ~ probe + K <= a < probe + K + 14 ->
                 ~ exit_addr <= a < exit_addr + 14 ->
                 memory w' a = memory w a)).
Proof.
  intros probe exit_addr w' Hj Hp Hend Hapart. subst w'.
  unfold install_stage. rewrite Hj. cbn [Z.eqb say memory vars syms calls].
  fold probe. unfold Hook.pattern_scan. split.
  - intros Hnone.
    pose proof (scan_loop_none (memory w) (Z.to_nat HOOK_WINDOW_SIZE) probe
                  (WhichPattern (set_ProbeAddress probe (vars w)))) as H.
    destruct (Hook.scan_loop _ _ _ _ _) as [jump which]. cbn [fst] in H.
    rewrite H by (intros k Hk; apply Hnone; lia).
    cbn [Z.eqb memory vars calls lb_jump_address set_WhichPattern set_lb_jump_address].
    split; [reflexivity|]. split; [reflexivity|].
    rewrite <- app_assoc. reflexivity.
  - intros K idx pat HK Hnth Hm Hbefore.
    rewrite (scan_loop_first (memory w) (Z.to_nat HOOK_WINDOW_SIZE) probe
               (WhichPattern (set_ProbeAddress probe (vars w)))
               (Z.to_nat K) idx pat);
      try (rewrite Z2Nat.id by lia); try assumption; try lia;
      [|intros k Hk; apply Hbefore; lia].
    unfold HOOK_WINDOW_SIZE in *.
    destruct (probe + K =? 0) eqn:E; [apply Z.eqb_eq in E; lia|].
    rewrite Nat2Z.id, (nth_error_nth _ _ _ Hnth).
    pose proof (catalogue_lengths pat (nth_error_In _ _ Hnth)) as Hlen.
    destruct (write_hook_spec (memory w) (probe + K) (latebloom_hook_addr e)
                exit_addr pat ltac:(lia) ltac:(lia) Hlen ltac:(lia))
      as (W1 & W2 & W3 & W4).
    assert (Horig : Machine.bytes_at (memory w) (probe + K) 14 = pat).
    { rewrite <- Hlen. apply bytes_at_ext. intros k Hk.
      apply (proj1 (memcmp_eq_spec (memory w) pat _) Hm). exact Hk. }
    destruct (0 <=? MajorDev _); cbn [memory vars];
      (split; [reflexivity|]); (split; [reflexivity|]);
      (split; [apply wrap64_small; lia|]);
      (split; [exact W1|]); (split; [exact W2|]); (split; [exact W3|]);
      (split; [exact Horig | exact W4]).
Qed.

Lemma install_stage_patch_witness :
  let e := Machine.boot_env "" in
  let w := initial_world Machine.memory in
  let w' := install_stage e w in
  let pat := Hook.BytePattern115b2 in
  lb_jump_address (vars w) = 0 /\
  0 < 0x6000 /\
  0x6000 + HOOK_WINDOW_SIZE + 14 <= 2 ^ 64 /\
  (lb_hook_exit_addr e + 14 <= 0x6000 \/
   0x6000 + HOOK_WINDOW_SIZE + 14 <= lb_hook_exit_addr e) /\
  0 <= 5 < HOOK_WINDOW_SIZE /\
  nth_error Hook.BytePatterns 1 = Some pat /\
  memcmp_eq (memory w) (0x6000 + 5) pat = true /\
  (forall K', 0 <= K' < 5 -> Hook.no_match (memory w) (0x6000 + K')) /\
  (ProbeAddress (vars w') = 0x6000 /\
   WhichPattern (vars w') = Z.of_nat 1 /\
   lb_jump_address (vars w') = 0x6000 + 5 + 14 /\
   Machine.bytes_at (memory w') (0x6000 + 5) 6 = [0xff; 0x25; 0; 0; 0; 0] /\
   load64 (memory w') (0x6000 + 5 + 6) = wrap64 (latebloom_hook_addr e) /\
   Machine.bytes_at (memory w') (lb_hook_exit_addr e) 14 = pat /\
   Machine.bytes_at (memory w) (0x6000 + 5) 14 = pat /\
   (forall a, ~ 0x6000 + 5 <= a < 0x6000 + 5 + 14 ->
              ~ lb_hook_exit_addr e <= a < lb_hook_exit_addr e + 14 ->
              memory w' a = memory w a)).
Proof.
  intros e w w' pat.
  assert (P : wrap64 (latebloom_hook_addr e +
                      sext32 (load32 (memory w) (latebloom_hook_addr e - 4))) = 0x6000)
    by (vm_compute; reflexivity).
  assert (H1 : lb_jump_address (vars w) = 0) by reflexivity.
  assert (H2 : 0 < 0x6000) by lia.
  assert (H3 : 0x6000 + HOOK_WINDOW_SIZE + 14 <= 2 ^ 64)
    by (unfold HOOK_WINDOW_SIZE; lia).
  assert (H4 : lb_hook_exit_addr e + 14 <= 0x6000 \/
               0x6000 + HOOK_WINDOW_SIZE + 14 <= lb_hook_exit_addr e)
    by (right; vm_compute; discriminate).
  assert (H5 : 0 <= 5 < HOOK_WINDOW_SIZE) by (unfold HOOK_WINDOW_SIZE; lia).
  assert (H6 : nth_error Hook.BytePatterns 1 = Some pat) by reflexivity.
  assert (H7 : memcmp_eq (memory w) (0x6000 + 5) pat = true) by (vm_compute; reflexivity).
  assert (H8 : forall K', 0 <= K' < 5 -> Hook.no_match (memory w) (0x6000 + K')).
  { intros K' HK q Hq.
    assert (HK' : K' = 0 \/ K' = 1 \/ K' = 2 \/ K' = 3 \/ K' = 4) by lia.
    destruct Hq as [<-|[<-|[<-|[]]]];
      destruct HK' as [->|[->|[->|[->| ->]]]]; vm_compute; reflexivity. }
  pose proof (install_stage_patch e w) as H. cbv zeta in H. rewrite P in H.
  split; [exact H1|]. split; [exact H2|]. split; [exact H3|]. split; [exact H4|].
  split; [exact H5|]. split; [exact H6|]. split; [exact H7|]. split; [exact H8|].
  exact (proj2 (H H1 H2 H3 H4) 5 1%nat pat H5 H6 H7 H8).
Defined.

(** ** [latebloom_start] as a whole *)

Section StartStages.

Import Start.

Lemma ParseConfig_install (bootargs : list byte) (st : statics) (t : trace) :
  same_install st (Keys.state_of (Config.ParseConfig bootargs st t)).
Proof.
  assert (H : Keys.same_rest st (Keys.state_of (Config.ParseConfig bootargs st t))).
  { unfold Config.ParseConfig.
    pose proof (scan_rest bootargs st t) as H.
    destruct (Config.scan bootargs st t) as [st1 t1|st1 t1]; cbn [Keys.state_of] in *.
    - pose proof (defaults_rest st1 t1) as Hd.
      destruct (Config.defaults st1 t1) as [st2 t2]. cbn [fst Keys.state_of] in *.
      exact (same_rest_trans _ _ _ H Hd).
    - exact H. }
  unfold Keys.same_rest in H. unfold same_install. intuition congruence.
Qed.

(** The first stage writes no memory and leaves the installer's variables. *)
Lemma config_stage_frame (fuel : nat) (e : env) (w : world) (f : flow) :
  config_stage fuel e w = Some f ->
  memory (landed f) = memory w /\ same_install (vars w) (vars (landed f)).
Proof.
  unfold config_stage. destruct (SleepValue (vars w) =? 0).
  - destruct (Klookup.SymbolLookup _ _ _ _ _) as [[[v ks] t]|]; [|discriminate].
    destruct (v =? 0).
    + intros [= <-]. cbn. unfold same_install. cbn. repeat split.
    + cbn [vars syms memory calls].
      match goal with
      | |- context [Config.ParseConfig ?b ?st ?t] =>
          pose proof (ParseConfig_install b st t) as H;
          destruct (Config.ParseConfig b st t) as [st' t'|st' t']
      end; cbn [Keys.state_of] in H; intros [= <-]; cbn [landed memory vars];
        (split; [reflexivity|]); unfold same_install in *; cbn in H; exact H.
  - intros [= <-]. cbn [landed]. split; [reflexivity|].
    unfold same_install. repeat split.
Qed.

(** Where the first stage goes on, the Phase 1 delay is set. *)
Lemma config_stage_delay (fuel : nat) (e : env) (w w' : world) :
  Config.ranged (vars w) ->
  config_stage fuel e w = Some (inr w') ->
  SleepValue (vars w') <> 0.
Proof.
  intros Hr. unfold config_stage. destruct (SleepValue (vars w) =? 0) eqn:E.
  - destruct (Klookup.SymbolLookup _ _ _ _ _) as [[[v ks] t]|]; [|discriminate].
    destruct (v =? 0); [discriminate|].
    cbn [vars syms memory calls]. unfold Config.ParseConfig.
    match goal with
    | |- context [Config.scan ?b ?st ?t] =>
        assert (Hr0 : Config.ranged st) by exact Hr;
        destruct (Config.scan b st t) as [st1 t1|st1 t1] eqn:Hscan
    end; [|discriminate].
    pose proof (scan_ranged _ _ _ _ _ Hr0 Hscan) as Hr1.
    destruct (Config.defaults st1 t1) as [st2 t2] eqn:Hd. intros [= <-]. cbn [vars].
    destruct (defaults_spec _ _ _ _ Hr1 Hd) as (HS & _).
    destruct Hr1 as (R1 & _). unfold DEFAULT_SLEEP in *.
    destruct (SleepValue st1 =? 0) eqn:E1; rewrite ?Z.eqb_neq in *; lia.
  - intros [= <-]. apply Z.eqb_neq in E. exact E.
Qed.

(** The installer changes none of the variables of the parser. *)
Lemma install_stage_config (e : env) (w : world) :
  SleepValue (vars (install_stage e w)) = SleepValue (vars w).
Proof.
  unfold install_stage. destruct (lb_jump_address (vars w) =? 0); [|reflexivity].
  cbn [say vars memory syms calls].
  destruct (Hook.pattern_scan _ _ _) as [jump which].
  destruct (jump =? 0); [reflexivity|].
  destruct (0 <=? MajorDev _); reflexivity.
Qed.

End StartStages.

(** X13.  The hook is placed once.  After a call of [latebloom_start] that
    has placed it ([lb_jump_address] is no longer 0; the call was entered
    with no hook placed and the variables of the parser within its ranges,
    as at load time), a further call on Big Sur or later prints its first
    message, clears [CurrentThread] and returns: it does not read the
    boot-args again, looks up no symbol, does not scan and writes no
    memory. *)
Theorem latebloom_start_again (fuel : nat) (e : env) (w w1 : world)
    (fuel' : nat) (e' : env) :
  Config.ranged (vars w) ->
  lb_jump_address (vars w) = 0 ->
  latebloom_start fuel e w = Some w1 ->
  lb_jump_address (vars w1) <> 0 ->
  BIGSUR_XNU_MAJOR_VERSION <= Klookup.version_major (kern e') ->
  latebloom_start fuel' e' w1 =
    Some (mkWorld (set_CurrentThread 0 (vars w1)) (syms w1) (memory w1)
            (calls w1 ++ [Printf MsgStarting []])).
Proof.
  intros Hr Hj Hrun Hplaced Hv.
  assert (Hs : SleepValue (vars w1) <> 0).
  { revert Hrun. unfold latebloom_start.
    destruct (Klookup.version_major (kern e) <? BIGSUR_XNU_MAJOR_VERSION).
    { intros [= <-]. cbn in Hplaced. contradiction. }
    cbn [say vars syms memory calls].
    match goal with
    | |- context [config_stage fuel e ?w0] =>
        assert (Hr0 : Config.ranged (vars w0)) by exact Hr;
        assert (Hj0 : lb_jump_address (vars w0) = 0) by exact Hj;
        pose proof (config_stage_frame fuel e w0) as Hf;
        pose proof (config_stage_delay fuel e w0) as Hd;
        destruct (config_stage fuel e w0) as [[wa|wb]|]
    end; [| |discriminate].
    - intros [= <-]. destruct (Hf _ eq_refl) as (_ & Hi & _).
      cbn [Start.landed] in Hi. congruence.
    - intros [= <-]. rewrite install_stage_config. exact (Hd wb Hr0 eq_refl). }
  unfold latebloom_start.
  destruct (Klookup.version_major (kern e') <? BIGSUR_XNU_MAJOR_VERSION) eqn:E;
    [apply Z.ltb_lt in E; lia|].
  unfold config_stage, install_stage. cbn [say vars syms memory calls].
  assert (E1 : (SleepValue (set_CurrentThread 0 (vars w1)) =? 0) = false)
    by (apply Z.eqb_neq; exact Hs).
  assert (E2 : (lb_jump_address (set_CurrentThread 0 (vars w1)) =? 0) = false)
    by (apply Z.eqb_neq; exact Hplaced).
  rewrite E1. cbn [vars]. rewrite E2. reflexivity.
Qed.

Lemma latebloom_start_again_witness :
  let e := Machine.boot_env "lbloom=90,20" in
  let w := initial_world Machine.memory in
  Config.ranged (vars w) /\
  lb_jump_address (vars w) = 0 /\
  BIGSUR_XNU_MAJOR_VERSION <= Klookup.version_major (kern e) /\
  exists w1,
    latebloom_start 3 e w = Some w1 /\
    lb_jump_address (vars w1) <> 0 /\
    latebloom_start 0 e w1 =
      Some (mkWorld (set_CurrentThread 0 (vars w1)) (syms w1) (memory w1)
              (calls w1 ++ [Printf MsgStarting []])).
Proof.
  intros e w.
  assert (H1 : Config.ranged (vars w)) by exact initial_ranged.
  assert (H2 : lb_jump_address (vars w) = 0) by reflexivity.
  assert (H3 : BIGSUR_XNU_MAJOR_VERSION <= Klookup.version_major (kern e))
    by (vm_compute; discriminate).
  assert (E : option_map (fun w' => lb_jump_address (vars w')) (latebloom_start 3 e w)
              = Some (Machine.probe + 5 + 14)) by (vm_compute; reflexivity).
  split; [exact H1|]. split; [exact H2|]. split; [exact H3|].
  destruct (latebloom_start 3 e w) as [w1|] eqn:Hrun; [|discriminate E].
  cbn [option_map] in E. injection E as E.
  assert (H4 : lb_jump_address (vars w1) <> 0)
    by (rewrite E; vm_compute; discriminate).
  exists w1. split; [reflexivity|]. split; [exact H4|].
  exact (latebloom_start_again 3 e w w1 0 e H1 H2 Hrun H4 H3).
Defined.

Section Disabled.

Import Config.




End Disabled.



Section LookupFails.

Import Klookup.

Variables (k : kernel) (m : mem) (st : ksyms).

(** Where [SymbolLookup] looks for the header of the kernel. *)
Variable MachHeader : Z.
Hypothesis header_at :
  MachHeader = wrap64 (wrap64 (printf_addr k - unslide k (printf_addr k)) + KERNEL_BASE).

Hypothesis unresolved : SymbolTable st = 0 \/ StringTable st = 0 \/ NameList st = 0.
Hypothesis bad_magic : load32 m (MachHeader + off_magic) <> MH_MAGIC_64.

Lemma SymbolLookup_bad_magic (fuel : nat) (Symbol : list byte) :
  SymbolLookup fuel k m st Symbol =
    Some (0, st, [Unslide (printf_addr k); Printf MsgBadMagic []; IOLog MsgBadMagic]).
Proof.
  unfold SymbolLookup.
  assert (E : (SymbolTable st =? 0) || (StringTable st =? 0) || (NameList st =? 0) = true).
  { destruct unresolved as [H|[H|H]]; rewrite H; cbn [Z.eqb orb];
      rewrite ?orb_true_r; reflexivity. }
  rewrite E. unfold resolve. rewrite <- header_at.
  apply Z.eqb_neq in bad_magic. rewrite bad_magic. reflexivity.
Qed.

Lemma lookups_bad_magic_run (fuel : nat) (names : list (list byte)) :
  lookups fuel k m st names =
    Some (map (fun _ => 0) names, st,
          flat_map (fun _ => [Unslide (printf_addr k); Printf MsgBadMagic [];
                              IOLog MsgBadMagic]) names).
Proof.
  induction names as [|name names IH]; cbn [lookups map flat_map]; [reflexivity|].
  rewrite SymbolLookup_bad_magic, IH. reflexivity.
Qed.

End LookupFails.

(** X15.  A resolution that fails is not remembered.  While the statics are
    not all set and the header found through the slide of [printf] does not
    carry the magic number, every call of [SymbolLookup] goes through the
    unslide call again, reports the bad header and returns [NULL], leaving
    the statics as they are; no walk of the load commands is started (the
    result does not depend on the fuel). *)
Theorem lookups_bad_magic (k : Klookup.kernel) (m : mem) (st : Klookup.ksyms)
    (fuel : nat) (names : list (list byte)) :
  Klookup.SymbolTable st = 0 \/ Klookup.StringTable st = 0 \/ Klookup.NameList st = 0 ->
  load32 m (wrap64 (wrap64 (Klookup.printf_addr k
                            - Klookup.unslide k (Klookup.printf_addr k))
                    + Klookup.KERNEL_BASE) + Klookup.off_magic)
    <> Klookup.MH_MAGIC_64 ->
  exists t,
    Klookup.lookups fuel k m st names = Some (map (fun _ => 0) names, st, t) /\
    Klookup.resolutions t = length names /\
    Forall (fun ev => ev = Unslide (Klookup.printf_addr k) \/
                      ev = Printf MsgBadMagic [] \/ ev = IOLog MsgBadMagic) t.
Proof.
  intros Hu Hm. eexists.
  split; [exact (lookups_bad_magic_run k m st _ eq_refl Hu Hm fuel names)|].
  split.
  - induction names as [|name names IH]; [reflexivity|].
    cbn [flat_map length]. rewrite resolutions_app, IH. reflexivity.
  - induction names as [|name names IH]; cbn [flat_map]; [constructor|].
    cbn [app]. constructor; [left; reflexivity|].
    constructor; [right; left; reflexivity|].
    constructor; [right; right; reflexivity | exact IH].
Qed.

Lemma lookups_bad_magic_witness :
  let k := Klookup.mkKernel 20 0x4800 (fun a => a) in
  let names := [str "_PE_boot_args"; str "_printf"] in
  (Klookup.SymbolTable Klookup.initial_ksyms = 0 \/
   Klookup.StringTable Klookup.initial_ksyms = 0 \/
   Klookup.NameList Klookup.initial_ksyms = 0) /\
  load32 Example.memory
    (wrap64 (wrap64 (Klookup.printf_addr k - Klookup.unslide k (Klookup.printf_addr k))
             + Klookup.KERNEL_BASE) + Klookup.off_magic)
    <> Klookup.MH_MAGIC_64 /\
  exists t,
    Klookup.lookups 0 k Example.memory Klookup.initial_ksyms names
      = Some (map (fun _ => 0) names, Klookup.initial_ksyms, t) /\
    Klookup.resolutions t = length names /\
    Forall (fun ev => ev = Unslide (Klookup.printf_addr k) \/
                      ev = Printf MsgBadMagic [] \/ ev = IOLog MsgBadMagic) t.
Proof.
  intros k names.
  assert (H1 : Klookup.SymbolTable Klookup.initial_ksyms = 0 \/
               Klookup.StringTable Klookup.initial_ksyms = 0 \/
               Klookup.NameList Klookup.initial_ksyms = 0) by (left; reflexivity).
  assert (H2 : load32 Example.memory
                 (wrap64 (wrap64 (Klookup.printf_addr k
                                  - Klookup.unslide k (Klookup.printf_addr k))
                          + Klookup.KERNEL_BASE) + Klookup.off_magic)
               <> Klookup.MH_MAGIC_64) by (vm_compute; discriminate).
  split; [exact H1|]. split; [exact H2|].
  exact (lookups_bad_magic k Example.memory Klookup.initial_ksyms 0 names H1 H2).
Defined.

(** X16.  When the kernel header cannot be found, [latebloom_start] gives
    up at its first symbol: the lookup of [_PE_boot_args] reports the bad
    header and returns [NULL], the function reports the failure, sleeps five
    seconds and returns, with [BootArgs] [NULL], no boot-args read, no
    pattern looked for and memory as it was. *)
Theorem latebloom_start_bad_magic (fuel : nat) (e : env) (w : world) :
  BIGSUR_XNU_MAJOR_VERSION <= Klookup.version_major (kern e) ->
  SleepValue (vars w) = 0 ->
  Klookup.SymbolTable (syms w) = 0 \/ Klookup.StringTable (syms w) = 0 \/
    Klookup.NameList (syms w) = 0 ->
  load32 (memory w)
    (wrap64 (wrap64 (Klookup.printf_addr (kern e)
                     - Klookup.unslide (kern e) (Klookup.printf_addr (kern e)))
             + Klookup.KERNEL_BASE) + Klookup.off_magic)
    <> Klookup.MH_MAGIC_64 ->
  latebloom_start fuel e w =
    Some (mkWorld (set_BootArgs 0 (set_CurrentThread 0 (vars w))) (syms w) (memory w)
            (calls w ++
             [Printf MsgStarting [];
              Unslide (Klookup.printf_addr (kern e));
              Printf MsgBadMagic []; IOLog MsgBadMagic;
              Printf MsgSymbolFailed []; IOSleep (5 * MILLISECONDS_PER_SECOND)])).
Proof.
  intros Hv Hs Hu Hm. unfold latebloom_start.
  destruct (Klookup.version_major (kern e) <? BIGSUR_XNU_MAJOR_VERSION) eqn:E;
    [apply Z.ltb_lt in E; lia|].
  unfold config_stage. cbn [say vars syms memory calls].
  change (SleepValue (set_CurrentThread 0 (vars w))) with (SleepValue (vars w)).
  rewrite Hs. cbn [Z.eqb].
  rewrite (SymbolLookup_bad_magic (kern e) (memory w) (syms w) _ eq_refl Hu Hm).
  cbn [Z.eqb]. unfold say. cbn [vars syms memory calls].
  rewrite <- !app_assoc. reflexivity.
Qed.

Lemma latebloom_start_bad_magic_witness :
  let e := mkEnv (Klookup.mkKernel 20 0x4800 (fun a => a)) 0x8000 (str "lbloom=90")
             Machine.hook_addr Machine.exit_addr 0x80010033 19 0 in
  let w := initial_world Machine.memory in
  BIGSUR_XNU_MAJOR_VERSION <= Klookup.version_major (kern e) /\
  SleepValue (vars w) = 0 /\
  (Klookup.SymbolTable (syms w) = 0 \/ Klookup.StringTable (syms w) = 0 \/
   Klookup.NameList (syms w) = 0) /\
  load32 (memory w)
    (wrap64 (wrap64 (Klookup.printf_addr (kern e)
                     - Klookup.unslide (kern e) (Klookup.printf_addr (kern e)))
             + Klookup.KERNEL_BASE) + Klookup.off_magic)
    <> Klookup.MH_MAGIC_64 /\
  latebloom_start 0 e w =
    Some (mkWorld (set_BootArgs 0 (set_CurrentThread 0 (vars w))) (syms w) (memory w)
            (calls w ++
             [Printf MsgStarting [];
              Unslide (Klookup.printf_addr (kern e));
              Printf MsgBadMagic []; IOLog MsgBadMagic;
              Printf MsgSymbolFailed []; IOSleep (5 * MILLISECONDS_PER_SECOND)])).
Proof.
  intros e w.
  assert (H1 : BIGSUR_XNU_MAJOR_VERSION <= Klookup.version_major (kern e))
    by (vm_compute; discriminate).
  assert (H2 : SleepValue (vars w) = 0) by reflexivity.
  assert (H3 : Klookup.SymbolTable (syms w) = 0 \/ Klookup.StringTable (syms w) = 0 \/
               Klookup.NameList (syms w) = 0) by (left; reflexivity).
  assert (H4 : load32 (memory w)
                 (wrap64 (wrap64 (Klookup.printf_addr (kern e)
                                  - Klookup.unslide (kern e) (Klookup.printf_addr (kern e)))
                          + Klookup.KERNEL_BASE) + Klookup.off_magic)
               <> Klookup.MH_MAGIC_64) by (vm_compute; discriminate).
  split; [exact H1|]. split; [exact H2|]. split; [exact H3|]. split; [exact H4|].
  exact (latebloom_start_bad_magic 0 e w H1 H2 H3 H4).
Defined.

(** ** The walks of the load commands *)

Section Walks.

Import Klookup.

Variable m : mem.

Lemma FindSegment64_found (MachHeader : Z) (name : list byte) (fuel : nat)
    (before : list load_command) (c : load_command) (after : list load_command) :
  image_at m MachHeader (before ++ c :: after) ->
  Forall (fun x => x <> 0) name ->
  (length (before ++ c :: after) < fuel)%nat ->
  Forall (fun x => ~ is_segment name x) before ->
  is_segment name c ->
  FindSegment64 fuel m MachHeader name =
    Some (MachHeader + sizeof_mach_header_64 + total_size before).
Proof.
  intros (Hh & Hend & Hsz & Hat & Hok) Hname Hfuel Hno Hseg.
  pose proof (total_size_nonneg _ Hok) as Hnn.
  unfold FindSegment64.
  rewrite wrap64_small by (unfold sizeof_mach_header_64 in *; lia).
  rewrite length_app in Hfuel.
  apply FindSegment64_loop_first
    with (cmds_end := MachHeader + sizeof_mach_header_64
                      + total_size (before ++ c :: after))
         (c := c) (after := after);
    try assumption; unfold sizeof_mach_header_64 in *; lia.
Qed.

Lemma FindSegment64_absent (MachHeader : Z) (name : list byte) (fuel : nat)
    (cmds : list load_command) :
  image_at m MachHeader cmds ->
  Forall (fun x => x <> 0) name ->
  (length cmds < fuel)%nat ->
  Forall (fun x => ~ is_segment name x) cmds ->
  FindSegment64 fuel m MachHeader name = Some 0.
Proof.
  intros (Hh & Hend & Hsz & Hat & Hok) Hname Hfuel Hno.
  pose proof (total_size_nonneg _ Hok) as Hnn.
  unfold FindSegment64.
  rewrite wrap64_small by (unfold sizeof_mach_header_64 in *; lia).
  apply FindSegment64_loop_none
    with (cmds_end := MachHeader + sizeof_mach_header_64 + total_size cmds) (cs := cmds);
    try assumption; unfold sizeof_mach_header_64 in *; lia.
Qed.

Variables (MachHeader cmds_end : Z).
Hypothesis header_ok : 0 <= MachHeader.
Hypothesis end_ok : cmds_end < 2 ^ 64.
Hypothesis sizeofcmds_ok :
  MachHeader + sizeof_mach_header_64 + load32 m (MachHeader + off_sizeofcmds) = cmds_end.
Hypothesis sizeofcmds_pos : 0 <= load32 m (MachHeader + off_sizeofcmds).

(** The walk for [LC_SYMTAB] from a command boundary [p] on, [c] being the
    first such command among the commands left. *)
Lemma symtab_loop_first (before : list load_command) (c : load_command)
    (after : list load_command) (p : Z) (fuel : nat) :
  0 <= p ->
  p + total_size (before ++ c :: after) = cmds_end ->
  commands_at m p (before ++ c :: after) ->
  Forall command_ok (before ++ c :: after) ->
  Forall (fun b => cmd b <> LC_SYMTAB) before ->
  cmd c = LC_SYMTAB ->
  (length before < fuel)%nat ->
  symtab_loop fuel m MachHeader p =
    Some (if sizeof_mach_header_64 <? cmdsize c + total_size after
          then p + total_size before else 0).
Proof.
  revert p fuel. induction before as [|b before IH];
    intros p fuel Hp Hend Hat Hok Hno Hc Hfuel;
    (destruct fuel as [|fuel]; [cbn in Hfuel; lia|]); cbn [symtab_loop];
    cbn [app] in Hend, Hat, Hok; cbn [commands_at] in Hat;
    destruct Hat as (Hcmd & Hsize & Hname & Hrest);
    rewrite total_size_cons in Hend; unfold sizeof_mach_header_64 in *;
    rewrite wrap64_small by lia.
  - change (total_size []) with 0.
    destruct (p <? _) eqn:E; destruct (32 <? _) eqn:E';
      rewrite ?Z.ltb_lt, ?Z.ltb_ge in *; try lia; [|reflexivity].
    rewrite Hcmd, Hc, Z.eqb_refl. f_equal. lia.
  - inversion Hok as [|? ? Hb Hok']; subst.
    inversion Hno as [|? ? Hn Hno']; subst.
    pose proof (total_size_nonneg _ Hok') as Hnn.
    apply Forall_app in Hok' as [Hbefore Hafter].
    pose proof (total_size_nonneg _ Hbefore).
    inversion Hafter as [|? ? Hc' Hafter']; subst.
    pose proof (total_size_nonneg _ Hafter').
    destruct Hb as [Hb _]. destruct Hc' as [Hc' _].
    unfold sizeof_load_command in *.
    rewrite total_size_app, total_size_cons in *.
    destruct (p <? _) eqn:E; rewrite ?Z.ltb_lt, ?Z.ltb_ge in *.
    + rewrite Hcmd. destruct (cmd b =? LC_SYMTAB) eqn:Eb;
        [apply Z.eqb_eq in Eb; contradiction|].
      rewrite Hsize. rewrite wrap64_small by lia.
      rewrite (IH (p + cmdsize b) fuel); try assumption; try lia.
      * destruct (32 <? _); f_equal; lia.
      * apply Forall_app. split; [assumption | constructor; [|assumption]].
        split; [unfold sizeof_load_command; lia|].
        intros Hs. rewrite Hc in Hs. discriminate Hs.
      * cbn in Hfuel. lia.
    + destruct (32 <? _) eqn:E'; rewrite ?Z.ltb_lt, ?Z.ltb_ge in *; [lia | reflexivity].
Qed.

(** The walk over commands of which none is [LC_SYMTAB]. *)
Lemma symtab_loop_none (cs : list load_command) (p : Z) (fuel : nat) :
  0 <= p ->
  p + total_size cs = cmds_end ->
  commands_at m p cs ->
  Forall command_ok cs ->
  Forall (fun b => cmd b <> LC_SYMTAB) cs ->
  (length cs < fuel)%nat ->
  symtab_loop fuel m MachHeader p = Some 0.
Proof.
  revert p fuel. induction cs as [|c cs IH]; intros p fuel Hp Hend Hat Hok Hno Hfuel;
    (destruct fuel as [|fuel]; [cbn in Hfuel; lia|]); cbn [symtab_loop];
    unfold sizeof_mach_header_64 in *; rewrite wrap64_small by lia.
  - change (total_size []) with 0 in Hend.
    destruct (p <? _) eqn:E; [apply Z.ltb_lt in E; lia | reflexivity].
  - destruct (p <? _) eqn:E; [|reflexivity].
    cbn [commands_at] in Hat. destruct Hat as (Hcmd & Hsize & Hname & Hrest).
    inversion Hok as [|? ? Hc Hok']; subst. inversion Hno as [|? ? Hn Hno']; subst.
    rewrite Hcmd. destruct (cmd c =? LC_SYMTAB) eqn:Ec;
      [apply Z.eqb_eq in Ec; contradiction|].
    rewrite Hsize. pose proof (total_size_nonneg cs Hok').
    destruct Hc as [Hc _]. unfold sizeof_load_command in *.
    rewrite total_size_cons in Hend.
    rewrite wrap64_small by lia.
    apply IH; try assumption; try lia. cbn in Hfuel. lia.
Qed.

End Walks.

(** X17.  The walk for [LC_SYMTAB] ends at [MachHeader + sizeofcmds], which
    is the size of the header (32 bytes) before the end of the load
    commands.  So for an image whose load commands fill [sizeofcmds] bytes
    the first [LC_SYMTAB] command is found when it and the commands behind
    it take more than 32 bytes, and is missed (the walk returns [NULL]) when
    it begins within the last 32 bytes, as a [symtab_command] of 24 bytes
    at the end of the commands does; without such a command the walk
    returns [NULL]. *)
Theorem symtab_loop_finds (m : mem) (MachHeader : Z)
    (cmds : list Klookup.load_command) (fuel : nat) :
  Klookup.image_at m MachHeader cmds ->
  (length cmds < fuel)%nat ->
  (forall before c after,
      cmds = before ++ c :: after ->
      Forall (fun b => Klookup.cmd b <> Klookup.LC_SYMTAB) before ->
      Klookup.cmd c = Klookup.LC_SYMTAB ->
      Klookup.symtab_loop fuel m MachHeader
        (wrap64 (MachHeader + Klookup.sizeof_mach_header_64)) =
        Some (if Klookup.sizeof_mach_header_64
                   <? Klookup.cmdsize c + Klookup.total_size after
              then MachHeader + Klookup.sizeof_mach_header_64 + Klookup.total_size before
              else 0))
  /\
  (Forall (fun b => Klookup.cmd b <> Klookup.LC_SYMTAB) cmds ->
   Klookup.symtab_loop fuel m MachHeader
     (wrap64 (MachHeader + Klookup.sizeof_mach_header_64)) = Some 0).
Proof.
  intros (Hh & Hend & Hsz & Hat & Hok) Hfuel.
  pose proof (total_size_nonneg cmds Hok) as Hnn.
  rewrite wrap64_small by (unfold Klookup.sizeof_mach_header_64 in *; lia).
  split.
  - intros before c after -> Hno Hc. rewrite length_app in Hfuel.
    apply symtab_loop_first
      with (cmds_end := MachHeader + Klookup.sizeof_mach_header_64
                        + Klookup.total_size (before ++ c :: after));
      try assumption; unfold Klookup.sizeof_mach_header_64 in *; lia.
  - intros Hno.
    apply symtab_loop_none
      with (cmds_end := MachHeader + Klookup.sizeof_mach_header_64
                        + Klookup.total_size cmds) (cs := cmds);
      try assumption; unfold Klookup.sizeof_mach_header_64 in *; lia.
Qed.

Lemma symtab_loop_finds_witness :
  Klookup.image_at Example.memory Example.base Example.commands /\
  (length Example.commands < 3)%nat /\
  Klookup.symtab_loop 3 Example.memory Example.base
    (wrap64 (Example.base + Klookup.sizeof_mach_header_64)) =
    Some (if Klookup.sizeof_mach_header_64 <? 24 + (72 + 0)
          then Example.base + Klookup.sizeof_mach_header_64 + 0 else 0).
Proof.
  pose proof example_image_at as Hi.
  assert (Hf : (length Example.commands < 3)%nat) by (cbn; lia).
  split; [exact Hi|]. split; [exact Hf|].
  apply (proj1 (symtab_loop_finds _ _ _ _ Hi Hf) []
           (Klookup.mkCommand Klookup.LC_SYMTAB 24 [])
           [Klookup.mkCommand Klookup.LC_SEGMENT_64 72 (str "__LINKEDIT")]).
  - reflexivity.
  - constructor.
  - reflexivity.
Defined.

Section Stuck.

Import Klookup.

Variables (m : mem) (MachHeader : Z) (name : list byte).



End Stuck.



(** ** The first call of [SymbolLookup] *)

Section FirstCall.

Import Klookup Resolve.

Lemma prelink_name_ok : Forall (fun x => x <> 0) LB_SEG_PRELINK_TEXT.
Proof. apply (nonzero_bytes "__PRELINK_TEXT"). vm_compute. reflexivity. Qed.

Lemma linkedit_name_ok : Forall (fun x => x <> 0) SEG_LINKEDIT.
Proof. apply (nonzero_bytes "__LINKEDIT"). vm_compute. reflexivity. Qed.

Variables (k : kernel) (m : mem) (fuel : nat).

Variable MachHeader : Z.
Hypothesis header_at :
  MachHeader = wrap64 (wrap64 (printf_addr k - unslide k (printf_addr k)) + KERNEL_BASE).

Variables (cmds0 : list load_command) (H : Z).
Hypothesis header_image : image_at m MachHeader cmds0.
Hypothesis header_fuel : (length cmds0 < fuel)%nat.
Hypothesis choice : header_choice k m MachHeader cmds0 H.

(** The step that selects the header to walk. *)
Lemma prelink_step :
  (if BIGSUR_XNU_MAJOR_VERSION <=? version_major k
   then
     match FindSegment64 fuel m MachHeader LB_SEG_PRELINK_TEXT with
     | None => None
     | Some LinkEdit =>
         Some (if LinkEdit =? 0 then MachHeader else load64 m (LinkEdit + off_vmaddr))
     end
   else Some MachHeader) = Some H.
Proof.
  unfold header_choice in choice.
  destruct (version_major k <? BIGSUR_XNU_MAJOR_VERSION) eqn:E.
  - apply Z.ltb_lt in E.
    destruct (BIGSUR_XNU_MAJOR_VERSION <=? version_major k) eqn:E';
      [apply Z.leb_le in E'; lia|]. rewrite choice. reflexivity.
  - apply Z.ltb_ge in E.
    destruct (BIGSUR_XNU_MAJOR_VERSION <=? version_major k) eqn:E';
      [|apply Z.leb_gt in E'; lia].
    destruct choice as [[Hno ->]|(before & p & after & Hc & Hno & Hseg & ->)].
    + rewrite (FindSegment64_absent m _ _ fuel cmds0 header_image prelink_name_ok
                 header_fuel Hno). reflexivity.
    + subst cmds0.
      rewrite (FindSegment64_found m _ _ fuel before p after header_image
                 prelink_name_ok header_fuel Hno Hseg).
      destruct header_image as (Hh & _ & _ & _ & Hok).
      apply Forall_app in Hok as [Hok _].
      pose proof (total_size_nonneg _ Hok).
      destruct (_ =? 0) eqn:E0; [|reflexivity].
      apply Z.eqb_eq in E0. unfold sizeof_mach_header_64 in *. lia.
Qed.

Variables (cmds b1 a1 b2 a2 : list load_command) (le sy : load_command).
Hypothesis image : image_at m H cmds.
Hypothesis image_fuel : (length cmds < fuel)%nat.
Hypothesis linkedit_at : cmds = b1 ++ le :: a1.
Hypothesis linkedit_first : Forall (fun c => ~ is_segment SEG_LINKEDIT c) b1.
Hypothesis linkedit_seg : is_segment SEG_LINKEDIT le.
Hypothesis symtab_at_cmd : cmds = b2 ++ sy :: a2.
Hypothesis symtab_first : Forall (fun c => cmd c <> LC_SYMTAB) b2.
Hypothesis symtab_cmd : cmd sy = LC_SYMTAB.
Hypothesis symtab_inside : sizeof_mach_header_64 < cmdsize sy + total_size a2.
Hypothesis magic_ok : load32 m (MachHeader + off_magic) = MH_MAGIC_64.

Lemma resolve_image (st : ksyms) :
  resolve fuel k m st =
    Some (inr (resolved m (H + sizeof_mach_header_64 + total_size b1)
                 (H + sizeof_mach_header_64 + total_size b2),
               [Unslide (printf_addr k)])).
Proof.
  unfold resolve. rewrite <- header_at, magic_ok, Z.eqb_refl. cbn [negb].
  rewrite prelink_step.
  assert (Hle : FindSegment64 fuel m H SEG_LINKEDIT =
                Some (H + sizeof_mach_header_64 + total_size b1)).
  { apply FindSegment64_found with (c := le) (after := a1); try assumption.
    - rewrite <- linkedit_at. exact image.
    - exact linkedit_name_ok.
    - rewrite <- linkedit_at. exact image_fuel. }
  rewrite Hle.
  destruct image as (Hh & Hend & Hsz & Hat & Hok).
  pose proof (total_size_nonneg _ Hok) as Hnn.
  assert (Hb1 : 0 <= total_size b1).
  { rewrite linkedit_at in Hok. apply Forall_app in Hok as [Hok1 _].
    exact (total_size_nonneg _ Hok1). }
  assert (Hb2 : 0 <= total_size b2).
  { rewrite symtab_at_cmd in Hok. apply Forall_app in Hok as [Hok1 _].
    exact (total_size_nonneg _ Hok1). }
  destruct (_ =? 0) eqn:E0;
    [apply Z.eqb_eq in E0; unfold sizeof_mach_header_64 in *; lia|].
  assert (Hsy : symtab_loop fuel m H (wrap64 (H + sizeof_mach_header_64)) =
                Some (H + sizeof_mach_header_64 + total_size b2)).
  { rewrite wrap64_small by (unfold sizeof_mach_header_64 in *; lia).
    rewrite (symtab_loop_first m H (H + sizeof_mach_header_64 + total_size cmds)
               Hh ltac:(unfold sizeof_mach_header_64 in *; lia)
               ltac:(unfold sizeof_mach_header_64 in *; lia)
               ltac:(unfold sizeof_mach_header_64 in *; lia)
               b2 sy a2 (H + sizeof_mach_header_64) fuel).
    - apply Z.ltb_lt in symtab_inside. rewrite symtab_inside. reflexivity.
    - unfold sizeof_mach_header_64. lia.
    - rewrite <- symtab_at_cmd. reflexivity.
    - rewrite <- symtab_at_cmd. exact Hat.
    - rewrite <- symtab_at_cmd. exact Hok.
    - exact symtab_first.
    - exact symtab_cmd.
    - rewrite symtab_at_cmd, length_app in image_fuel. lia. }
  rewrite Hsy.
  destruct (H + sizeof_mach_header_64 + total_size b2 =? 0) eqn:E1;
    [apply Z.eqb_eq in E1; unfold sizeof_mach_header_64 in *; lia|].
  reflexivity.
Qed.

End FirstCall.

(** X19.  The first call of [SymbolLookup] resolves the symbol table.  The
    statics not all being set, the header found through the slide of
    [printf] carrying the magic number, and the header walked (that header,
    or from Big Sur on the [vmaddr] of its [__PRELINK_TEXT] segment) being
    that of an image with a [__LINKEDIT] segment and an [LC_SYMTAB] command
    more than 32 bytes before the end of the commands, the call makes one
    unslide call, sets [SymbolTable] to the address of the first [LC_SYMTAB]
    command, [StringTable] and [NameList] to [vmaddr - fileoff] of the first
    [__LINKEDIT] segment plus [stroff] and [symoff], and then scans the
    name list with these statics. *)
Theorem SymbolLookup_first_call (k : Klookup.kernel) (m : mem) (fuel : nat)
    (st : Klookup.ksyms) (Symbol : list byte)
    (cmds0 : list Klookup.load_command) (H : Z)
    (cmds b1 a1 b2 a2 : list Klookup.load_command) (le sy : Klookup.load_command) :
  let MachHeader :=
    wrap64 (wrap64 (Klookup.printf_addr k - Klookup.unslide k (Klookup.printf_addr k))
            + Klookup.KERNEL_BASE) in
  let st' :=
    Resolve.resolved m (H + Klookup.sizeof_mach_header_64 + Klookup.total_size b1)
      (H + Klookup.sizeof_mach_header_64 + Klookup.total_size b2) in
  Klookup.SymbolTable st = 0 \/ Klookup.StringTable st = 0 \/ Klookup.NameList st = 0 ->
  load32 m (MachHeader + Klookup.off_magic) = Klookup.MH_MAGIC_64 ->
  Klookup.image_at m MachHeader cmds0 ->
  (length cmds0 < fuel)%nat ->
  Resolve.header_choice k m MachHeader cmds0 H ->
  Klookup.image_at m H cmds ->
  (length cmds < fuel)%nat ->
  cmds = b1 ++ le :: a1 ->
  Forall (fun c => ~ Klookup.is_segment Klookup.SEG_LINKEDIT c) b1 ->
  Klookup.is_segment Klookup.SEG_LINKEDIT le ->
  cmds = b2 ++ sy :: a2 ->
  Forall (fun c => Klookup.cmd c <> Klookup.LC_SYMTAB) b2 ->
  Klookup.cmd sy = Klookup.LC_SYMTAB ->
  Klookup.sizeof_mach_header_64 < Klookup.cmdsize sy + Klookup.total_size a2 ->
  Klookup.SymbolLookup fuel k m st Symbol =
    Some (fst (Klookup.lookup_scan m st' Symbol), st',
          Unslide (Klookup.printf_addr k) :: snd (Klookup.lookup_scan m st' Symbol)).
Proof.
  intros MachHeader st' Hu Hmagic Hi0 Hf0 Hch Hi Hf Hl1 Hl2 Hl3 Hs1 Hs2 Hs3 Hs4.
  unfold Klookup.SymbolLookup.
  assert (E : (Klookup.SymbolTable st =? 0) || (Klookup.StringTable st =? 0)
              || (Klookup.NameList st =? 0) = true).
  { destruct Hu as [Hu|[Hu|Hu]]; rewrite Hu; cbn [Z.eqb orb];
      rewrite ?orb_true_r; reflexivity. }
  rewrite E.
  rewrite (resolve_image k m fuel MachHeader eq_refl cmds0 H Hi0 Hf0 Hch cmds b1 a1 b2 a2 le sy
             Hi Hf Hl1 Hl2 Hl3 Hs1 Hs2 Hs3 Hs4 Hmagic st).
  fold st'. destruct (Klookup.lookup_scan m st' Symbol) as [a t]. reflexivity.
Qed.

Lemma SymbolLookup_first_call_witness :
  let k := Example.kernel in
  let m := Example.memory in
  let symtab := Klookup.mkCommand Klookup.LC_SYMTAB 24 [] in
  let linkedit := Klookup.mkCommand Klookup.LC_SEGMENT_64 72 (str "__LINKEDIT") in
  let MachHeader :=
    wrap64 (wrap64 (Klookup.printf_addr k - Klookup.unslide k (Klookup.printf_addr k))
            + Klookup.KERNEL_BASE) in
  let st' :=
    Resolve.resolved m
      (Example.base + Klookup.sizeof_mach_header_64 + Klookup.total_size [symtab])
      (Example.base + Klookup.sizeof_mach_header_64 + Klookup.total_size []) in
  (Klookup.SymbolTable Klookup.initial_ksyms = 0 \/
   Klookup.StringTable Klookup.initial_ksyms = 0 \/
   Klookup.NameList Klookup.initial_ksyms = 0) /\
  load32 m (MachHeader + Klookup.off_magic) = Klookup.MH_MAGIC_64 /\
  Klookup.image_at m MachHeader Example.commands /\
  (length Example.commands < 3)%nat /\
  Resolve.header_choice k m MachHeader Example.commands Example.base /\
  Klookup.image_at m Example.base Example.commands /\
  Example.commands = [symtab] ++ linkedit :: [] /\
  Forall (fun c => ~ Klookup.is_segment Klookup.SEG_LINKEDIT c) [symtab] /\
  Klookup.is_segment Klookup.SEG_LINKEDIT linkedit /\
  Example.commands = [] ++ symtab :: [linkedit] /\
  Forall (fun c => Klookup.cmd c <> Klookup.LC_SYMTAB) [] /\
  Klookup.cmd symtab = Klookup.LC_SYMTAB /\
  Klookup.sizeof_mach_header_64 < Klookup.cmdsize symtab + Klookup.total_size [linkedit] /\
  Klookup.SymbolLookup 3 k m Klookup.initial_ksyms (str "_PE_boot_args") =
    Some (fst (Klookup.lookup_scan m st' (str "_PE_boot_args")), st',
          Unslide (Klookup.printf_addr k)
            :: snd (Klookup.lookup_scan m st' (str "_PE_boot_args"))).
Proof.
  intros k m symtab linkedit MachHeader st'.
  assert (Hb : MachHeader = Example.base) by (vm_compute; reflexivity).
  assert (H1 : Klookup.SymbolTable Klookup.initial_ksyms = 0 \/
               Klookup.StringTable Klookup.initial_ksyms = 0 \/
               Klookup.NameList Klookup.initial_ksyms = 0) by (left; reflexivity).
  assert (H2 : load32 m (MachHeader + Klookup.off_magic) = Klookup.MH_MAGIC_64)
    by (vm_compute; reflexivity).
  assert (H6 : Klookup.image_at m Example.base Example.commands)
    by exact example_image_at.
  assert (H3 : Klookup.image_at m MachHeader Example.commands)
    by (rewrite Hb; exact H6).
  assert (H4 : (length Example.commands < 3)%nat) by (cbn; lia).
  assert (Hnp : Forall (fun c => ~ Klookup.is_segment Klookup.LB_SEG_PRELINK_TEXT c)
                  Example.commands).
  { constructor; [|constructor; [|constructor]]; intros [Hc Hn].
    - vm_compute in Hc. discriminate Hc.
    - vm_compute in Hn. discriminate Hn. }
  assert (H5 : Resolve.header_choice k m MachHeader Example.commands Example.base).
  { unfold Resolve.header_choice.
    change (Klookup.version_major k <? BIGSUR_XNU_MAJOR_VERSION) with false.
    left. split; [exact Hnp | symmetry; exact Hb]. }
  assert (H7 : Example.commands = [symtab] ++ linkedit :: []) by reflexivity.
  assert (H8 : Forall (fun c => ~ Klookup.is_segment Klookup.SEG_LINKEDIT c) [symtab]).
  { constructor; [|constructor]. intros [Hc _]. vm_compute in Hc. discriminate Hc. }
  assert (H9 : Klookup.is_segment Klookup.SEG_LINKEDIT linkedit) by (split; reflexivity).
  assert (H10 : Example.commands = [] ++ symtab :: [linkedit]) by reflexivity.
  assert (H11 : Forall (fun c => Klookup.cmd c <> Klookup.LC_SYMTAB) []) by constructor.
  assert (H12 : Klookup.cmd symtab = Klookup.LC_SYMTAB) by reflexivity.
  assert (H13 : Klookup.sizeof_mach_header_64
                < Klookup.cmdsize symtab + Klookup.total_size [linkedit])
    by (vm_compute; reflexivity).
  split; [exact H1|]. split; [exact H2|]. split; [exact H3|]. split; [exact H4|].
  split; [exact H5|]. split; [exact H6|]. split; [exact H7|]. split; [exact H8|].
  split; [exact H9|]. split; [exact H10|]. split; [exact H11|]. split; [exact H12|].
  split; [exact H13|].
  exact (SymbolLookup_first_call k m 3 Klookup.initial_ksyms (str "_PE_boot_args")
           Example.commands Example.base Example.commands [symtab] [] [] [linkedit]
           linkedit symtab H1 H2 H3 H4 H5 H6 H4 H7 H8 H9 H10 H11 H12 H13).
Defined.

(** ** Interrupts and write protection *)

Section Privileged.

Import Config Start.

Ltac quiet :=
  cbn [trace_of snd]; rewrite ?filter_app; cbn [filter privileged];
  rewrite ?app_nil_r; reflexivity.

Lemma lbloom_branch_quiet (ptr : list byte) (st : statics) (t : trace) :
  filter privileged (trace_of (lbloom_branch ptr st t)) = filter privileged t.
Proof.
  unfold lbloom_branch.
  destruct (digit_loop MAX_ARG_DIGITS ptr 0 0) as [lbval j].
  destruct (lbval =? 0); [quiet|].
  repeat match goal with
         | |- context [if ?b then _ else _] => destruct b
         | |- context [EXTRACT_LBLOOM_VALUE ?p ?k] =>
             destruct (EXTRACT_LBLOOM_VALUE p k) as [[? ?] ?]
         end; quiet.
Qed.

Lemma scan_step_quiet (s : list byte) (st : statics) (t : trace) :
  filter privileged (trace_of (scan_step s st t)) = filter privileged t.
Proof.
  unfold scan_step.
  destruct (BOOTARG_MATCH s "latebloom=").
  { destruct (latebloom_loop _ _ _ _) as [v j]. destruct (v <=? 0); quiet. }
  destruct (BOOTARG_MATCH s "lb_debug="); [quiet|].
  destruct (BOOTARG_MATCH s "lb_range="); [quiet|].
  destruct (BOOTARG_MATCH s "lb_delay2="); [quiet|].
  destruct (BOOTARG_MATCH s "lb_range2="); [quiet|].
  destruct (BOOTARG_MATCH s "lbloom="); [apply lbloom_branch_quiet | quiet].
Qed.

Lemma scan_quiet (s : list byte) (st : statics) (t : trace) :
  filter privileged (trace_of (scan s st t)) = filter privileged t.
Proof.
  revert st t. induction s as [|c rest IH]; intros st t; cbn [scan]; [reflexivity|].
  destruct (c =? 0); [reflexivity|].
  pose proof (scan_step_quiet (c :: rest) st t) as H.
  destruct (scan_step (c :: rest) st t) as [st1 t1|st1 t1]; cbn [trace_of] in H.
  - rewrite IH. exact H.
  - exact H.
Qed.

Lemma defaults_quiet (st : statics) (t : trace) :
  filter privileged (snd (defaults st t)) = filter privileged t.
Proof.
  unfold defaults.
  repeat (cbn [SleepValue lb_RandRange lb_AltSleepValue lb_AltRandRange
               set_SleepValue set_lb_RandRange set_lb_AltSleepValue
               set_lb_AltRandRange negb];
          match goal with
          | |- context [if ?b then _ else _] => destruct b
          end);
    quiet.
Qed.

Lemma ParseConfig_quiet (bootargs : list byte) (st : statics) (t : trace) :
  filter privileged (trace_of (ParseConfig bootargs st t)) = filter privileged t.
Proof.
  unfold ParseConfig.
  pose proof (scan_quiet bootargs st t) as H.
  destruct (scan bootargs st t) as [st1 t1|st1 t1]; cbn [trace_of] in *; [|exact H].
  pose proof (defaults_quiet st1 t1) as Hd.
  destruct (defaults st1 t1) as [st2 t2]. cbn [snd trace_of] in *. congruence.
Qed.

Lemma lookup_scan_quiet (m : mem) (st : Klookup.ksyms) (Symbol : list byte) :
  filter privileged (snd (Klookup.lookup_scan m st Symbol)) = [].
Proof. unfold Klookup.lookup_scan. cbn [snd]. destruct (_ =? 0); reflexivity. Qed.

Lemma resolve_quiet (fuel : nat) (k : Klookup.kernel) (m : mem) (st : Klookup.ksyms)
    (r : (Klookup.ksyms * trace) + (Klookup.ksyms * trace)) :
  Klookup.resolve fuel k m st = Some r ->
  filter privileged (match r with inl (_, t) | inr (_, t) => t end) = [].
Proof.
  unfold Klookup.resolve. intros H.
  repeat match type of H with
         | context [match ?x with _ => _ end] => destruct x
         end;
    try discriminate H; injection H as <-; reflexivity.
Qed.

Lemma SymbolLookup_quiet (fuel : nat) (k : Klookup.kernel) (m : mem)
    (st st' : Klookup.ksyms) (Symbol : list byte) (a : Z) (t : trace) :
  Klookup.SymbolLookup fuel k m st Symbol = Some (a, st', t) ->
  filter privileged t = [].
Proof.
  unfold Klookup.SymbolLookup.
  destruct ((Klookup.SymbolTable st =? 0) || (Klookup.StringTable st =? 0)
            || (Klookup.NameList st =? 0)).
  - destruct (Klookup.resolve fuel k m st) as [[[st1 t1]|[st1 t1]]|] eqn:E;
      try discriminate.
    + intros [= <- <- <-]. exact (resolve_quiet _ _ _ _ _ E).
    + pose proof (lookup_scan_quiet m st1 Symbol) as Hs.
      destruct (Klookup.lookup_scan m st1 Symbol) as [a1 t2]. cbn [snd] in Hs.
      intros [= <- <- <-]. rewrite filter_app, Hs.
      rewrite (resolve_quiet _ _ _ _ _ E). reflexivity.
  - pose proof (lookup_scan_quiet m st Symbol) as Hs.
    destruct (Klookup.lookup_scan m st Symbol) as [a1 t2]. cbn [snd] in Hs.
    intros [= <- <- <-]. exact Hs.
Qed.

Lemma config_stage_quiet (fuel : nat) (e : env) (w : world) (f : flow) :
  config_stage fuel e w = Some f ->
  filter privileged (calls (landed f)) = filter privileged (calls w).
Proof.
  unfold config_stage. destruct (SleepValue (vars w) =? 0); [|intros [= <-]; reflexivity].
  destruct (Klookup.SymbolLookup _ _ _ _ _) as [[[v ks] t]|] eqn:Hs; [|discriminate].
  pose proof (SymbolLookup_quiet _ _ _ _ _ _ _ _ Hs) as Hq.
  destruct (v =? 0).
  - intros [= <-]. cbn [landed say calls]. rewrite !filter_app, Hq. cbn. 
    rewrite !app_nil_r. reflexivity.
  - cbn [vars syms memory calls].
    match goal with
    | |- context [ParseConfig ?b ?s0 ?t0] =>
        pose proof (ParseConfig_quiet b s0 t0) as Hp;
        destruct (ParseConfig b s0 t0) as [st1 t1|st1 t1]
    end; cbn [trace_of] in Hp; intros [= <-]; cbn [landed calls];
      rewrite Hp, !filter_app, Hq; cbn; rewrite !app_nil_r; reflexivity.
Qed.

(** The installer turns interrupts off and write protection off and on
    again around the patch, or does neither. *)
Lemma install_stage_privileged (e : env) (w : world) :
  (filter privileged (calls (install_stage e w)) = filter privileged (calls w) /\
   memory (install_stage e w) = memory w) \/
  filter privileged (calls (install_stage e w)) =
    filter privileged (calls w) ++
    [Cli; WriteCR0 (Z.land (cr0 e) Hook.CR0_WP_MASK); WriteCR0 (cr0 e); Sti].
Proof.
  unfold install_stage.
  destruct (lb_jump_address (vars w) =? 0); [|left; split; reflexivity].
  cbn [say vars syms memory calls].
  destruct (Hook.pattern_scan _ _ _) as [jump which].
  destruct (jump =? 0).
  - left. cbn [calls memory]. rewrite !filter_app. cbn. rewrite !app_nil_r.
    split; reflexivity.
  - right. destruct (0 <=? MajorDev _); cbn [calls]; rewrite !filter_app; cbn;
      rewrite ?app_nil_r; reflexivity.
Qed.

End Privileged.

(** X20.  [latebloom_start] never leaves the processor changed.  In a call
    that returns, interrupts are turned off and [%cr0] is written either not
    at all, and then memory is as before, or exactly once in this order:
    [cli], [%cr0] with only the write-protect bit (bit 16) cleared, the
    original [%cr0], [sti]. *)
Theorem latebloom_start_restores_cr0 (fuel : nat) (e : env) (w w' : world) :
  latebloom_start fuel e w = Some w' ->
  ((filter Start.privileged (calls w') = filter Start.privileged (calls w) /\
    memory w' = memory w) \/
   filter Start.privileged (calls w') =
     filter Start.privileged (calls w) ++
     [Cli; WriteCR0 (Z.land (cr0 e) Hook.CR0_WP_MASK); WriteCR0 (cr0 e); Sti]) /\
  (forall n, 0 <= n < 64 ->
     Z.testbit (Z.land (cr0 e) Hook.CR0_WP_MASK) n =
       if n =? 16 then false else Z.testbit (cr0 e) n).
Proof.
  intros Hrun. split.
  - revert Hrun. unfold latebloom_start.
    destruct (Klookup.version_major (kern e) <? BIGSUR_XNU_MAJOR_VERSION).
    { intros [= <-]. left. cbn [say calls memory]. rewrite filter_app. cbn.
      rewrite app_nil_r. split; reflexivity. }
    cbn [say vars syms memory calls].
    match goal with
    | |- context [config_stage fuel e ?w0] =>
        pose proof (config_stage_quiet fuel e w0) as Hq;
        pose proof (config_stage_frame fuel e w0) as Hf;
        destruct (config_stage fuel e w0) as [[wa|wb]|]
    end; [| |discriminate].
    + intros [= <-]. left. specialize (Hq _ eq_refl). destruct (Hf _ eq_refl) as [Hm _].
      cbn [Start.landed calls memory] in *. rewrite Hq, filter_app. cbn.
      rewrite app_nil_r. split; [reflexivity | exact Hm].
    + intros [= <-]. specialize (Hq _ eq_refl). destruct (Hf _ eq_refl) as [Hm _].
      cbn [Start.landed calls memory] in *.
      assert (Hw : filter Start.privileged (calls wb) = filter Start.privileged (calls w)).
      { rewrite Hq, filter_app. cbn. apply app_nil_r. }
      destruct (install_stage_privileged e wb) as [[H1 H2]|H1].
      * left. split; congruence.
      * right. rewrite H1, Hw. reflexivity.
  - intros n Hn.
    assert (Hmask : Hook.CR0_WP_MASK = Z.ldiff (Z.ones 64) (2 ^ 16)) by reflexivity.
    rewrite Hmask, Z.land_spec, Z.ldiff_spec, Z.ones_spec_low by lia.
    rewrite Z.pow2_bits_eqb by lia. cbn [andb].
    rewrite (Z.eqb_sym n 16).
    destruct (16 =? n); cbn [negb]; [apply andb_false_r | apply andb_true_r].
Qed.

Lemma latebloom_start_restores_cr0_witness :
  let e := Machine.boot_env "lbloom=90,20" in
  let w := initial_world Machine.memory in
  exists w',
    latebloom_start 3 e w = Some w' /\
    ((filter Start.privileged (calls w') = filter Start.privileged (calls w) /\
      memory w' = memory w) \/
     filter Start.privileged (calls w') =
       filter Start.privileged (calls w) ++
       [Cli; WriteCR0 (Z.land (cr0 e) Hook.CR0_WP_MASK); WriteCR0 (cr0 e); Sti]) /\
    (forall n, 0 <= n < 64 ->
       Z.testbit (Z.land (cr0 e) Hook.CR0_WP_MASK) n =
         if n =? 16 then false else Z.testbit (cr0 e) n).
Proof.
  intros e w.
  assert (E : option_map (fun w' => lb_jump_address (vars w')) (latebloom_start 3 e w)
              = Some (Machine.probe + 5 + 14)) by (vm_compute; reflexivity).
  destruct (latebloom_start 3 e w) as [w1|] eqn:Hrun; [|discriminate E].
  exists w1. split; [reflexivity|].
  exact (latebloom_start_restores_cr0 3 e w w1 Hrun).
Defined.

(** ** The device node, from the installer to the hook *)

Lemma wrap32_idem (x : Z) : wrap32 (wrap32 x) = wrap32 x.
Proof. unfold wrap32. apply Z.mod_mod. lia. Qed.

(** X21.  The hook asks for the node of the device that the installer
    registered.  After the installer, entered with no hook placed, has
    placed the hook without getting a device node, a run of the hook on
    another thread than the first (thread [T]) calls
    [devfs_make_node] with the device number [makedev(MajorDev, 0)] that the
    installer used, permissions [0400].  When [cdevsw_add] failed, the
    installer asks for no node, but the hook still does, with [fBaseDev] as
    it was before. *)
Theorem hook_node_after_install (e : env) (w : world) (i : Trampoline.hook_input)
    (T : Z) :
  let w' := install_stage e w in
  let s := set_CurrentThread T (vars w') in
  lb_jump_address (vars w) = 0 ->
  lb_jump_address (vars w') <> 0 ->
  fDeviceNode (vars w') = 0 ->
  T <> 0 ->
  Trampoline.gs_thread i <> T ->
  filter Run.is_make_node (snd (Trampoline.latebloom_hook i s)) =
    [DevfsMakeNode
       (if 0 <=? cdevsw_add_result e
        then wrap32 (Z.shiftl (cdevsw_add_result e) 24)
        else wrap32 (fBaseDev (vars w))) 256] /\
  (0 <= cdevsw_add_result e ->
   exists t0,
     calls w' = t0 ++ [CdevswAdd STARTING_DEVSW_SLOT;
                       DevfsMakeNode (wrap32 (Z.shiftl (cdevsw_add_result e) 24)) 256]) /\
  (cdevsw_add_result e < 0 ->
   filter Run.is_make_node (calls w') = filter Run.is_make_node (calls w)).
Proof.
  intros w' s Hj Hplaced Hnode HT Hi.
  destruct (latebloom_hook_node i s) as [_ Hmk].
  assert (E1 : (CurrentThread s =? 0) = false) by (apply Z.eqb_neq; exact HT).
  assert (E2 : (CurrentThread s =? Trampoline.gs_thread i) = false)
    by (apply Z.eqb_neq; cbn [CurrentThread set_CurrentThread s]; congruence).
  assert (E3 : (fDeviceNode s =? 0) = true) by (apply Z.eqb_eq; exact Hnode).
  rewrite E1, E2, E3 in Hmk. cbn [negb andb] in Hmk. rewrite Hmk. clear Hmk E1 E2 E3.
  change (fBaseDev s) with (fBaseDev (vars w')).
  subst w'. clear s. revert Hplaced Hnode. unfold install_stage. rewrite Hj.
  cbn [Z.eqb say vars syms memory calls].
  destruct (Hook.pattern_scan _ _ _) as [jump which].
  destruct (jump =? 0) eqn:Ej.
  { apply Z.eqb_eq in Ej. subst jump.
    cbn [vars lb_jump_address set_WhichPattern set_lb_jump_address].
    intros H. contradiction. }
  cbn [MajorDev set_MajorDev].
  destruct (0 <=? cdevsw_add_result e) eqn:Ec; cbn [vars calls]; intros _ _.
  - apply Z.leb_le in Ec.
    cbn [fBaseDev set_fBaseDev set_fDeviceNode MajorDev set_MajorDev].
    split; [|split].
    + rewrite wrap32_idem. reflexivity.
    + intros _. eexists (calls w ++ [_; _; _; _; _; _]).
      rewrite <- !app_assoc. cbn [app]. reflexivity.
    + intros Hneg. lia.
  - apply Z.leb_gt in Ec.
    cbn [fBaseDev set_MajorDev set_lb_jump_address set_WhichPattern set_ProbeAddress].
    split; [|split].
    + reflexivity.
    + intros Hpos. lia.
    + intros _. rewrite !filter_app. cbn [filter Run.is_make_node].
      rewrite !app_nil_r. reflexivity.
Qed.

Lemma hook_node_after_install_witness :
  let e := Machine.boot_env "" in
  let w := initial_world Machine.memory in
  let i := Trampoline.Build_hook_input 9 1234567 8 0x55 in
  let w' := install_stage e w in
  let s := set_CurrentThread 7 (vars w') in
  lb_jump_address (vars w) = 0 /\
  lb_jump_address (vars w') <> 0 /\
  fDeviceNode (vars w') = 0 /\
  7 <> 0 /\
  Trampoline.gs_thread i <> 7 /\
  filter Run.is_make_node (snd (Trampoline.latebloom_hook i s)) =
    [DevfsMakeNode
       (if 0 <=? cdevsw_add_result e
        then wrap32 (Z.shiftl (cdevsw_add_result e) 24)
        else wrap32 (fBaseDev (vars w))) 256] /\
  (0 <= cdevsw_add_result e ->
   exists t0,
     calls w' = t0 ++ [CdevswAdd STARTING_DEVSW_SLOT;
                       DevfsMakeNode (wrap32 (Z.shiftl (cdevsw_add_result e) 24)) 256]) /\
  (cdevsw_add_result e < 0 ->
   filter Run.is_make_node (calls w') = filter Run.is_make_node (calls w)).
Proof.
  intros e w i w' s.
  assert (H1 : lb_jump_address (vars w) = 0) by reflexivity.
  assert (H2 : lb_jump_address (vars w') <> 0) by (vm_compute; discriminate).
  assert (H3 : fDeviceNode (vars w') = 0) by (vm_compute; reflexivity).
  assert (H4 : 7 <> 0) by lia.
  assert (H5 : Trampoline.gs_thread i <> 7) by (cbn; lia).
  split; [exact H1|]. split; [exact H2|]. split; [exact H3|]. split; [exact H4|].
  split; [exact H5|].
  exact (hook_node_after_install e w i 7 H1 H2 H3 H4 H5).
Defined.

(** ** The single keys *)

Section SingleKeys.

Import Config.

Variables (d rest : list byte).
Hypothesis d_field : field d.
Hypothesis d_end : field_end d rest.

Lemma ExtractArgValue_field : ExtractArgValue (d ++ rest) = number d.
Proof. unfold ExtractArgValue. rewrite digit_loop_field by assumption. reflexivity. Qed.

(** The loop of [latebloom=] over a field that is not empty. *)
Lemma latebloom_loop_field :
  d <> [] ->
  fst (latebloom_loop MAX_ARG_DIGITS (d ++ rest) 0 (-1)) = number d.
Proof.
  destruct d as [|c d'] eqn:Ed; [congruence|]. intros _.
  destruct d_field as [Hd Hlen]. inversion Hd as [|? ? Hc Hd']; subst.
  unfold MAX_ARG_DIGITS in *. rewrite latebloom_loop_first.
  change (char_at ((c :: d') ++ rest) 0) with c. rewrite Hc.
  cbn [length] in Hlen.
  change (digit_loop 3 ((c :: d') ++ rest) 1 (0 * 10 + (c - 48)))
    with (digit_loop 3 ([c] ++ d' ++ rest) (length [c]) (0 * 10 + (c - 48))).
  rewrite (digit_loop_run d' [c] rest 3 (0 * 10 + (c - 48)) Hd' ltac:(lia)).
  - reflexivity.
  - destruct d_end as [H|H]; [left; cbn [length] in H; unfold MAX_ARG_DIGITS in H; lia
                             | right; exact H].
Qed.

End SingleKeys.

(** X22.  Each of the single keys sets its own variable to the number
    behind it.  For a value [d] of at most four digits (possibly none, which
    reads as 0) that ends where [rest] begins, [lb_debug=], [lb_range=],
    [lb_delay2=] and [lb_range2=] set [lb_DebugLevel], [lb_RandRange],
    [lb_AltSleepValue] and [lb_AltRandRange] to that number and report it,
    and [latebloom=], for a number other than 0, sets [SleepValue] without a
    message; no other variable changes. *)
Theorem single_keys_set_their_variable (d rest : list byte) (st : statics) (t : trace) :
  Config.field d ->
  Config.field_end d rest ->
  let v := Config.number d in
  Config.scan_step (str "lb_debug=" ++ d ++ rest) st t =
    Config.Proceed (set_lb_DebugLevel v st) (t ++ [Printf MsgDebugSet [v]]) /\
  Config.scan_step (str "lb_range=" ++ d ++ rest) st t =
    Config.Proceed (set_lb_RandRange v st) (t ++ [Printf MsgRangeSet [v]]) /\
  Config.scan_step (str "lb_delay2=" ++ d ++ rest) st t =
    Config.Proceed (set_lb_AltSleepValue v st) (t ++ [Printf MsgDelay2Set [v]]) /\
  Config.scan_step (str "lb_range2=" ++ d ++ rest) st t =
    Config.Proceed (set_lb_AltRandRange v st) (t ++ [Printf MsgRange2Set [v]]) /\
  (v <> 0 ->
   Config.scan_step (str "latebloom=" ++ d ++ rest) st t =
     Config.Proceed (set_SleepValue v st) t).
Proof.
  intros Hf He v. subst v.
  pose proof (ExtractArgValue_field d rest Hf He) as Hx.
  split; [|split; [|split; [|split]]].
  - unfold Config.scan_step.
    change (Config.BOOTARG_MATCH (str "lb_debug=" ++ d ++ rest) "latebloom=") with false.
    change (Config.BOOTARG_MATCH (str "lb_debug=" ++ d ++ rest) "lb_debug=") with true.
    change (skipn (Config.arglen "lb_debug=") (str "lb_debug=" ++ d ++ rest))
      with (d ++ rest).
    cbv zeta. rewrite Hx. reflexivity.
  - unfold Config.scan_step.
    change (Config.BOOTARG_MATCH (str "lb_range=" ++ d ++ rest) "latebloom=") with false.
    change (Config.BOOTARG_MATCH (str "lb_range=" ++ d ++ rest) "lb_debug=") with false.
    change (Config.BOOTARG_MATCH (str "lb_range=" ++ d ++ rest) "lb_range=") with true.
    change (skipn (Config.arglen "lb_range=") (str "lb_range=" ++ d ++ rest))
      with (d ++ rest).
    cbv zeta. rewrite Hx. reflexivity.
  - unfold Config.scan_step.
    change (Config.BOOTARG_MATCH (str "lb_delay2=" ++ d ++ rest) "latebloom=") with false.
    change (Config.BOOTARG_MATCH (str "lb_delay2=" ++ d ++ rest) "lb_debug=") with false.
    change (Config.BOOTARG_MATCH (str "lb_delay2=" ++ d ++ rest) "lb_range=") with false.
    change (Config.BOOTARG_MATCH (str "lb_delay2=" ++ d ++ rest) "lb_delay2=") with true.
    change (skipn (Config.arglen "lb_delay2=") (str "lb_delay2=" ++ d ++ rest))
      with (d ++ rest).
    cbv zeta. rewrite Hx. reflexivity.
  - unfold Config.scan_step.
    change (Config.BOOTARG_MATCH (str "lb_range2=" ++ d ++ rest) "latebloom=") with false.
    change (Config.BOOTARG_MATCH (str "lb_range2=" ++ d ++ rest) "lb_debug=") with false.
    change (Config.BOOTARG_MATCH (str "lb_range2=" ++ d ++ rest) "lb_range=") with false.
    change (Config.BOOTARG_MATCH (str "lb_range2=" ++ d ++ rest) "lb_delay2=") with false.
    change (Config.BOOTARG_MATCH (str "lb_range2=" ++ d ++ rest) "lb_range2=") with true.
    change (skipn (Config.arglen "lb_range2=") (str "lb_range2=" ++ d ++ rest))
      with (d ++ rest).
    cbv zeta. rewrite Hx. reflexivity.
  - intros Hv. unfold Config.scan_step.
    change (Config.BOOTARG_MATCH (str "latebloom=" ++ d ++ rest) "latebloom=") with true.
    change (skipn (Config.arglen "latebloom=") (str "latebloom=" ++ d ++ rest))
      with (d ++ rest).
    cbv zeta.
    assert (Hd : d <> []) by (intros ->; apply Hv; reflexivity).
    pose proof (latebloom_loop_field d rest Hf He Hd) as Hl.
    destruct (Config.latebloom_loop _ _ _ _) as [lbval j]. cbn [fst] in Hl. subst lbval.
    assert (Hb : 0 <= Config.number d).
    { rewrite <- Hx. apply ExtractArgValue_bounds. }
    destruct (Config.number d <=? 0) eqn:E; [apply Z.leb_le in E; lia | reflexivity].
Qed.

Lemma single_keys_set_their_variable_witness :
  let d := str "200" in
  let rest := str " -v" in
  let v := Config.number d in
  Config.field d /\
  Config.field_end d rest /\
  Config.scan_step (str "lb_debug=" ++ d ++ rest) initial_statics [] =
    Config.Proceed (set_lb_DebugLevel v initial_statics) ([] ++ [Printf MsgDebugSet [v]]) /\
  Config.scan_step (str "lb_range=" ++ d ++ rest) initial_statics [] =
    Config.Proceed (set_lb_RandRange v initial_statics) ([] ++ [Printf MsgRangeSet [v]]) /\
  Config.scan_step (str "lb_delay2=" ++ d ++ rest) initial_statics [] =
    Config.Proceed (set_lb_AltSleepValue v initial_statics)
      ([] ++ [Printf MsgDelay2Set [v]]) /\
  Config.scan_step (str "lb_range2=" ++ d ++ rest) initial_statics [] =
    Config.Proceed (set_lb_AltRandRange v initial_statics)
      ([] ++ [Printf MsgRange2Set [v]]) /\
  (v <> 0 ->
   Config.scan_step (str "latebloom=" ++ d ++ rest) initial_statics [] =
     Config.Proceed (set_SleepValue v initial_statics) []).
Proof.
  intros d rest v.
  assert (H1 : Config.field d).
  { split; [|cbn; unfold MAX_ARG_DIGITS; lia].
    repeat constructor. }
  assert (H2 : Config.field_end d rest) by (right; reflexivity).
  split; [exact H1|]. split; [exact H2|].
  exact (single_keys_set_their_variable d rest initial_statics [] H1 H2).
Defined.

(** ** The end of the boot-args *)

Section BehindTheEnd.

Import Config.

Variable junk : list byte.

Lemma char_at_junk (p : list byte) (j : nat) :
  (j <= length p)%nat -> char_at (p ++ 0 :: junk) j = char_at p j.
Proof.
  intros Hj. unfold char_at.
  destruct (Nat.eq_dec j (length p)) as [->|Hne].
  - rewrite app_nth2, Nat.sub_diag by lia. cbn [nth].
    symmetry. apply nth_overflow. lia.
  - apply app_nth1. lia.
Qed.

Lemma is_digit_inside (p : list byte) (j : nat) :
  is_digit (char_at p j) = true -> (j < length p)%nat.
Proof.
  intros H. apply is_digit_range in H.
  destruct (Nat.lt_ge_cases j (length p)) as [Hlt|Hge]; [exact Hlt|].
  unfold char_at in H. rewrite nth_overflow in H by lia. lia.
Qed.

Lemma digit_loop_junk (n : nat) (p : list byte) (j : nat) (v : Z) :
  (j <= length p)%nat ->
  digit_loop n (p ++ 0 :: junk) j v = digit_loop n p j v /\
  (snd (digit_loop n p j v) <= length p)%nat.
Proof.
  revert j v. induction n as [|n IH]; intros j v Hj; cbn [digit_loop].
  - split; [reflexivity | exact Hj].
  - rewrite char_at_junk by exact Hj.
    destruct (is_digit (char_at p j)) eqn:E; [|split; [reflexivity | exact Hj]].
    apply IH. apply is_digit_inside in E. lia.
Qed.

Lemma latebloom_loop_junk (n : nat) (p : list byte) (j : nat) (v : Z) :
  (j <= length p)%nat ->
  latebloom_loop n (p ++ 0 :: junk) j v = latebloom_loop n p j v.
Proof.
  revert j v. induction n as [|n IH]; intros j v Hj; cbn [latebloom_loop].
  - reflexivity.
  - rewrite char_at_junk by exact Hj.
    destruct (is_digit (char_at p j)) eqn:E; [|reflexivity].
    apply IH. apply is_digit_inside in E. lia.
Qed.

Lemma ExtractArgValue_junk (p : list byte) :
  ExtractArgValue (p ++ 0 :: junk) = ExtractArgValue p.
Proof.
  unfold ExtractArgValue.
  rewrite (proj1 (digit_loop_junk MAX_ARG_DIGITS p 0 0 ltac:(lia))). reflexivity.
Qed.

Lemma strncmp_eq_junk (key u : list byte) :
  Forall (fun c => c <> 0) key ->
  strncmp_eq (u ++ 0 :: junk) key = strncmp_eq u key /\
  (strncmp_eq u key = true -> (length key <= length u)%nat).
Proof.
  revert u. induction key as [|c key IH]; intros u Hk; cbn [strncmp_eq length].
  - split; [reflexivity | lia].
  - inversion Hk as [|? ? Hc Hk']; subst. destruct u as [|x u]; cbn [app length].
    + split; [|discriminate].
      destruct (0 =? c) eqn:E; [apply Z.eqb_eq in E; congruence | reflexivity].
    + destruct (IH u Hk') as [H1 H2]. rewrite H1. split; [reflexivity|].
      intros H. apply andb_true_iff in H. destruct H as [_ H]. specialize (H2 H). lia.
Qed.

Lemma BOOTARG_MATCH_junk (u : list byte) (key : string) :
  forallb (fun c => negb (c =? 0)) (str key) = true ->
  BOOTARG_MATCH (u ++ 0 :: junk) key = BOOTARG_MATCH u key /\
  (BOOTARG_MATCH u key = true ->
   skipn (arglen key) (u ++ 0 :: junk) = skipn (arglen key) u ++ 0 :: junk).
Proof.
  intros Hk. apply nonzero_bytes in Hk. unfold BOOTARG_MATCH, arglen.
  destruct (strncmp_eq_junk (str key) u Hk) as [H1 H2].
  split; [exact H1|]. intros H. specialize (H2 H).
  rewrite skipn_app. replace (length (str key) - length u)%nat with 0%nat by lia.
  reflexivity.
Qed.

(** One field of the composite key. *)
Lemma EXTRACT_junk (p : list byte) (j : nat) :
  char_at p j = comma ->
  EXTRACT_LBLOOM_VALUE (p ++ 0 :: junk) j =
    (let '(p', j', v) := EXTRACT_LBLOOM_VALUE p j in (p' ++ 0 :: junk, j', v)) /\
  (snd (fst (EXTRACT_LBLOOM_VALUE p j))
   <= length (fst (fst (EXTRACT_LBLOOM_VALUE p j))))%nat.
Proof.
  intros Hc. unfold EXTRACT_LBLOOM_VALUE.
  assert (Hj : (j < length p)%nat).
  { destruct (Nat.lt_ge_cases j (length p)) as [Hlt|Hge]; [exact Hlt|].
    unfold char_at in Hc. rewrite nth_overflow in Hc by lia. discriminate Hc. }
  rewrite skipn_app. replace (S j - length p)%nat with 0%nat by lia.
  change (skipn 0 (0 :: junk)) with (0 :: junk).
  destruct (digit_loop_junk MAX_ARG_DIGITS (skipn (S j) p) 0 0 ltac:(lia)) as [H1 H2].
  rewrite H1. destruct (digit_loop MAX_ARG_DIGITS (skipn (S j) p) 0 0) as [v j'].
  cbn [fst snd] in *. split; [reflexivity | exact H2].
Qed.

Lemma lbloom_branch_junk (p : list byte) (st : statics) (t : trace) :
  lbloom_branch (p ++ 0 :: junk) st t = lbloom_branch p st t.
Proof.
  unfold lbloom_branch.
  destruct (digit_loop_junk MAX_ARG_DIGITS p 0 0 ltac:(lia)) as [H1 H2].
  rewrite H1. destruct (digit_loop MAX_ARG_DIGITS p 0 0) as [lbval j].
  cbn [snd] in H2. destruct (lbval =? 0); [reflexivity|].
  generalize (set_SleepValue lbval
                (set_lb_DebugLevel 0 (set_lb_RandRange 0 (set_SleepValue 0 st)))).
  clear H1 st. revert p j H2.
  assert (Step : forall (A : Type) (p : list byte) (j : nat) (s : statics)
                   (f : Z -> nat -> statics -> statics)
                   (k1 k2 : list byte * nat * statics -> A),
             (j <= length p)%nat ->
             (forall p' j' s', (j' <= length p')%nat ->
                               k1 (p' ++ 0 :: junk, j', s') = k2 (p', j', s')) ->
             k1 (if char_at (p ++ 0 :: junk) j =? comma
                 then let '(p', j', v) := EXTRACT_LBLOOM_VALUE (p ++ 0 :: junk) j in
                      (p', j', f v j' s)
                 else (p ++ 0 :: junk, j, s)) =
             k2 (if char_at p j =? comma
                 then let '(p', j', v) := EXTRACT_LBLOOM_VALUE p j in (p', j', f v j' s)
                 else (p, j, s))).
  { intros A p j s f k1 k2 Hj Hk. rewrite char_at_junk by exact Hj.
    destruct (char_at p j =? comma) eqn:E; [|apply Hk; exact Hj].
    apply Z.eqb_eq in E. destruct (EXTRACT_junk p j E) as [H1 H2]. rewrite H1.
    destruct (EXTRACT_LBLOOM_VALUE p j) as [[p' j'] v]. cbn [fst snd] in H2.
    apply Hk. exact H2. }
  intros p j Hj s0.
  apply (Step outcome p j s0 (fun v _ s => set_lb_RandRange v s)
           (fun x => let '(ptr, j, st) := x in _) (fun x => let '(ptr, j, st) := x in _) Hj).
  intros p1 j1 s1 Hj1.
  apply (Step outcome p1 j1 s1 (fun v _ s => set_lb_DebugLevel v s)
           (fun x => let '(ptr, j, st) := x in _) (fun x => let '(ptr, j, st) := x in _) Hj1).
  intros p2 j2 s2 Hj2.
  apply (Step outcome p2 j2 s2
           (fun v j' s => set_lb_AltSleepValue (if Nat.eqb j' 0 then SleepValue s else v) s)
           (fun x => let '(ptr, j, st) := x in _) (fun x => let '(ptr, j, st) := x in _) Hj2).
  intros p3 j3 s3 Hj3.
  apply (Step outcome p3 j3 s3 (fun v _ s => set_lb_AltRandRange v s)
           (fun x => let '(_, _, st) := x in _) (fun x => let '(_, _, st) := x in _) Hj3).
  intros p4 j4 s4 Hj4. reflexivity.
Qed.

End BehindTheEnd.

Section BehindTheEndScan.

Import Config.

Variable junk : list byte.

Lemma scan_step_junk (u : list byte) (st : statics) (t : trace) :
  scan_step (u ++ 0 :: junk) st t = scan_step u st t.
Proof.
  unfold scan_step.
  destruct (BOOTARG_MATCH_junk junk u "latebloom=" eq_refl) as [-> S1].
  destruct (BOOTARG_MATCH_junk junk u "lb_debug=" eq_refl) as [-> S2].
  destruct (BOOTARG_MATCH_junk junk u "lb_range=" eq_refl) as [-> S3].
  destruct (BOOTARG_MATCH_junk junk u "lb_delay2=" eq_refl) as [-> S4].
  destruct (BOOTARG_MATCH_junk junk u "lb_range2=" eq_refl) as [-> S5].
  destruct (BOOTARG_MATCH_junk junk u "lbloom=" eq_refl) as [-> S6].
  destruct (BOOTARG_MATCH u "latebloom=").
  { rewrite (S1 eq_refl), latebloom_loop_junk by lia. reflexivity. }
  destruct (BOOTARG_MATCH u "lb_debug=").
  { rewrite (S2 eq_refl), ExtractArgValue_junk. reflexivity. }
  destruct (BOOTARG_MATCH u "lb_range=").
  { rewrite (S3 eq_refl), ExtractArgValue_junk. reflexivity. }
  destruct (BOOTARG_MATCH u "lb_delay2=").
  { rewrite (S4 eq_refl), ExtractArgValue_junk. reflexivity. }
  destruct (BOOTARG_MATCH u "lb_range2=").
  { rewrite (S5 eq_refl), ExtractArgValue_junk. reflexivity. }
  destruct (BOOTARG_MATCH u "lbloom="); [|reflexivity].
  rewrite (S6 eq_refl). apply lbloom_branch_junk.
Qed.

End BehindTheEndScan.

(** X23.  The parser does not read behind the end of the boot-args: what
    stands behind the terminating NUL has no influence on the variables, the
    messages or the outcome.  (A key or a number cut off by the NUL is read
    as it stands before the NUL.) *)
Theorem ParseConfig_stops_at_nul (s junk : list byte) (st : statics) (t : trace) :
  Config.ParseConfig (s ++ 0 :: junk) st t = Config.ParseConfig s st t.
Proof.
  assert (Hscan : forall st t,
             Config.scan (s ++ 0 :: junk) st t = Config.scan s st t).
  { induction s as [|c s' IH]; intros st' t'; cbn [app Config.scan Z.eqb].
    - reflexivity.
    - destruct (c =? 0); [reflexivity|].
      change (c :: s' ++ 0 :: junk) with ((c :: s') ++ 0 :: junk).
      rewrite scan_step_junk.
      destruct (Config.scan_step (c :: s') st' t') as [st1 t1|st1 t1];
        [apply IH | reflexivity]. }
  unfold Config.ParseConfig. rewrite Hscan. reflexivity.
Qed.

(** ** What a result of [FindSegment64] means *)

Lemma FindSegment64_loop_sound (m : mem) (MachHeader : Z) (name : list byte)
    (fuel : nat) (p r : Z) :
  Klookup.FindSegment64_loop fuel m MachHeader name p = Some r ->
  r <> 0 ->
  r < wrap64 (MachHeader + load32 m (MachHeader + Klookup.off_sizeofcmds)) /\
  load32 m (r + Klookup.off_cmd) = Klookup.LC_SEGMENT_64 /\
  strcmp_eq m (r + Klookup.off_segname) name = true.
Proof.
  revert p. induction fuel as [|fuel IH]; intros p; cbn [Klookup.FindSegment64_loop];
    [discriminate|].
  destruct (p <? _) eqn:E; [|intros [= <-] H; contradiction].
  destruct ((load32 m (p + Klookup.off_cmd) =? Klookup.LC_SEGMENT_64)
            && strcmp_eq m (p + Klookup.off_segname) name) eqn:Et.
  - intros [= <-] _. apply andb_true_iff in Et. destruct Et as [E1 E2].
    apply Z.ltb_lt in E. apply Z.eqb_eq in E1. split; [exact E|]. split; assumption.
  - apply IH.
Qed.

(** X24.  Whatever memory holds, a result of [FindSegment64] other than
    [NULL] is the address of a command before [MachHeader + sizeofcmds]
    whose [cmd] is [LC_SEGMENT_64] and whose [segname] compares equal to the
    name looked for. *)
Theorem FindSegment64_sound (m : mem) (MachHeader : Z) (name : list byte)
    (fuel : nat) (r : Z) :
  Klookup.FindSegment64 fuel m MachHeader name = Some r ->
  r <> 0 ->
  r < wrap64 (MachHeader + load32 m (MachHeader + Klookup.off_sizeofcmds)) /\
  load32 m (r + Klookup.off_cmd) = Klookup.LC_SEGMENT_64 /\
  strcmp_eq m (r + Klookup.off_segname) name = true /\
  (forall j, (j < length name)%nat ->
             m (r + Klookup.off_segname + Z.of_nat j) = nth j name 0) /\
  m (r + Klookup.off_segname + Z.of_nat (length name)) = 0.
Proof.
  unfold Klookup.FindSegment64. intros Hr Hnz.
  destruct (FindSegment64_loop_sound _ _ _ _ _ _ Hr Hnz) as (H1 & H2 & H3).
  split; [exact H1|]. split; [exact H2|]. split; [exact H3|].
  clear Hr H1 H2. revert H3. generalize (r + Klookup.off_segname). clear.
  induction name as [|c name IH]; intros a H; cbn [strcmp_eq length] in *.
  - split; [intros j Hj; lia|]. apply Z.eqb_eq in H. rewrite Z.add_0_r. exact H.
  - apply andb_true_iff in H. destruct H as [Hc H]. apply Z.eqb_eq in Hc.
    destruct (IH _ H) as [H1 H2]. split.
    + intros [|j] Hj; cbn [nth].
      * rewrite Z.add_0_r. exact Hc.
      * replace (a + Z.of_nat (S j)) with (a + 1 + Z.of_nat j) by lia.
        apply H1. lia.
    + replace (a + Z.of_nat (S (length name))) with (a + 1 + Z.of_nat (length name))
        by lia. exact H2.
Qed.

Lemma FindSegment64_sound_witness :
  let m := Example.memory in
  let r := Example.base + 56 in
  Klookup.FindSegment64 3 m Example.base (str "__LINKEDIT") = Some r /\
  r <> 0 /\
  r < wrap64 (Example.base + load32 m (Example.base + Klookup.off_sizeofcmds)) /\
  load32 m (r + Klookup.off_cmd) = Klookup.LC_SEGMENT_64 /\
  strcmp_eq m (r + Klookup.off_segname) (str "__LINKEDIT") = true /\
  (forall j, (j < length (str "__LINKEDIT"))%nat ->
             m (r + Klookup.off_segname + Z.of_nat j) = nth j (str "__LINKEDIT") 0) /\
  m (r + Klookup.off_segname + Z.of_nat (length (str "__LINKEDIT"))) = 0.
Proof.
  intros m r.
  assert (H1 : Klookup.FindSegment64 3 m Example.base (str "__LINKEDIT") = Some r)
    by (vm_compute; reflexivity).
  assert (H2 : r <> 0) by (vm_compute; discriminate).
  split; [exact H1|]. split; [exact H2|].
  exact (FindSegment64_sound m Example.base (str "__LINKEDIT") 3 r H1 H2).
Defined.

(** ** From the boot-args to the sleeps *)

Section StartToHook.

Lemma ParseConfig_ranges_from (bootargs : list byte) (st0 st : statics) (t0 t : trace) :
  Config.ranged st0 ->
  Config.ParseConfig bootargs st0 t0 = Config.Proceed st t ->
  0 < SleepValue st <= 9999 /\ 0 <= lb_RandRange st <= SleepValue st /\
  0 <= lb_AltSleepValue st <= 9999 /\ 0 <= lb_AltRandRange st <= lb_AltSleepValue st.
Proof.
  intros Hr0. unfold Config.ParseConfig.
  destruct (Config.scan bootargs st0 t0) as [st1 t1|] eqn:Hscan; [|discriminate].
  destruct (Config.defaults st1 t1) as [st2 t2] eqn:Hd. intros [= <- <-].
  pose proof (scan_ranged _ _ _ _ _ Hr0 Hscan) as Hr.
  destruct (defaults_spec _ _ _ _ Hr Hd) as (HS & HAS & HR & HAR & _).
  destruct Hr as (R1 & R2 & R3 & R4). unfold DEFAULT_SLEEP in *.
  destruct (SleepValue st1 =? 0) eqn:E1;
    destruct (lb_AltSleepValue st1 =? -1) eqn:E2;
    destruct (lb_AltRandRange st1 =? -1) eqn:E3;
    rewrite ?Z.eqb_eq, ?Z.eqb_neq in *; lia.
Qed.

(** Where the first stage, entered without a delay, goes on, the parser has
    resolved the delays. *)
Lemma config_stage_ranges (fuel : nat) (e : env) (w w' : world) :
  Config.ranged (vars w) ->
  SleepValue (vars w) = 0 ->
  config_stage fuel e w = Some (inr w') ->
  0 < SleepValue (vars w') <= 9999 /\
  0 <= lb_RandRange (vars w') <= SleepValue (vars w') /\
  0 <= lb_AltSleepValue (vars w') <= 9999 /\
  0 <= lb_AltRandRange (vars w') <= lb_AltSleepValue (vars w').
Proof.
  intros Hr Hs. unfold config_stage. rewrite Hs. cbn [Z.eqb].
  destruct (Klookup.SymbolLookup _ _ _ _ _) as [[[v ks] t]|]; [|discriminate].
  destruct (v =? 0); [discriminate|].
  cbn [vars syms memory calls].
  match goal with
  | |- context [Config.ParseConfig ?b ?st ?t0] =>
      assert (Hr0 : Config.ranged st) by exact Hr;
      pose proof (ParseConfig_ranges_from b st) as Hp;
      destruct (Config.ParseConfig b st t0) as [st1 t1|st1 t1] eqn:E
  end; [|discriminate].
  intros [= <-]. cbn [vars]. exact (Hp st1 _ t1 Hr0 E).
Qed.

(** The installer changes none of the delays. *)
Lemma install_stage_delays (e : env) (w : world) :
  SleepValue (vars (install_stage e w)) = SleepValue (vars w) /\
  lb_RandRange (vars (install_stage e w)) = lb_RandRange (vars w) /\
  lb_AltSleepValue (vars (install_stage e w)) = lb_AltSleepValue (vars w) /\
  lb_AltRandRange (vars (install_stage e w)) = lb_AltRandRange (vars w).
Proof.
  unfold install_stage.
  destruct (lb_jump_address (vars w) =? 0); [|repeat split].
  cbn [say vars memory syms calls].
  destruct (Hook.pattern_scan _ _ _) as [jump which].
  destruct (jump =? 0); [split; [|split; [|split]]; reflexivity|].
  destruct (0 <=? MajorDev _); split; [|split; [|split]| |split; [|split]]; reflexivity.
Qed.

(** The delay computed from a base of at most four digits and a range not
    above it. *)
Lemma hook_delay_bounds (B R tsc1 tsc2 : Z) :
  0 <= R <= B -> B <= 9999 ->
  B - R <= Trampoline.hook_delay B R tsc1 tsc2 <= B + R /\
  0 <= Trampoline.hook_delay B R tsc1 tsc2.
Proof.
  intros HRB HB. destruct (Z.eq_dec R 0) as [->|Hnz].
  - unfold Trampoline.hook_delay. change (wrap32 0 =? 0) with true. cbv iota.
    rewrite wrap32_small by lia. lia.
  - pose proof (offset_range B R ltac:(lia) tsc1).
    destruct (Z.eq_dec (Z.land (Trampoline.rdtsc_eax tsc2) 1) 0) as [E|E].
    + rewrite hook_delay_even by (try assumption; lia). lia.
    + rewrite hook_delay_odd by (try assumption; lia). lia.
Qed.

End StartToHook.

(** X10.  From the boot-args to the sleeps.  After a call of
    [latebloom_start] that has read the boot-args and placed the hook
    (entered, as at load time, with no delay set, no hook placed and the
    variables of the parser within its ranges), the delays are resolved: the
    Phase 1 delay is between 1 and 9999 ms, the Phase 2 delay at most 9999 ms
    and each range at most its delay.  In every state that differs from the
    one the call left only in the three variables the hook writes, every
    sleep of a run of the hook is for a delay within the range around the
    delay of one of the two phases, never negative and at most 2 * 9999 ms. *)
Theorem parsed_delays_bound_every_sleep (fuel : nat) (e : env) (w w1 : world)
    (s : statics) (i : Trampoline.hook_input) (ms : Z) :
  Config.ranged (vars w) ->
  SleepValue (vars w) = 0 ->
  lb_jump_address (vars w) = 0 ->
  latebloom_start fuel e w = Some w1 ->
  lb_jump_address (vars w1) <> 0 ->
  Run.same_config (vars w1) s ->
  In (IOSleep ms) (snd (Trampoline.latebloom_hook i s)) ->
  let st := vars w1 in
  (0 < SleepValue st <= 9999 /\ 0 <= lb_RandRange st <= SleepValue st /\
   0 <= lb_AltSleepValue st <= 9999 /\ 0 <= lb_AltRandRange st <= lb_AltSleepValue st) /\
  0 <= ms <= 2 * 9999 /\
  (SleepValue st - lb_RandRange st <= ms <= SleepValue st + lb_RandRange st \/
   lb_AltSleepValue st - lb_AltRandRange st <= ms
     <= lb_AltSleepValue st + lb_AltRandRange st).
Proof.
  intros Hr Hs Hj Hrun Hplaced Hsame Hin st. subst st.
  assert (Hb : 0 < SleepValue (vars w1) <= 9999 /\
               0 <= lb_RandRange (vars w1) <= SleepValue (vars w1) /\
               0 <= lb_AltSleepValue (vars w1) <= 9999 /\
               0 <= lb_AltRandRange (vars w1) <= lb_AltSleepValue (vars w1)).
  { revert Hrun. unfold latebloom_start.
    destruct (Klookup.version_major (kern e) <? BIGSUR_XNU_MAJOR_VERSION).
    { intros [= <-]. cbn in Hplaced. contradiction. }
    cbn [say vars syms memory calls].
    match goal with
    | |- context [config_stage fuel e ?w0] =>
        assert (Hr0 : Config.ranged (vars w0)) by exact Hr;
        assert (Hs0 : SleepValue (vars w0) = 0) by exact Hs;
        assert (Hj0 : lb_jump_address (vars w0) = 0) by exact Hj;
        pose proof (config_stage_frame fuel e w0) as Hf;
        pose proof (config_stage_ranges fuel e w0) as Hd;
        destruct (config_stage fuel e w0) as [[wa|wb]|]
    end; [| |discriminate].
    - intros [= <-]. destruct (Hf _ eq_refl) as (_ & Hi & _).
      cbn [Start.landed] in Hi. congruence.
    - intros [= <-]. destruct (install_stage_delays e wb) as (-> & -> & -> & ->).
      exact (Hd wb Hr0 Hs0 eq_refl). }
  split; [exact Hb|].
  destruct Hb as (B1 & B2 & B3 & B4).
  destruct Hsame as (_ & _ & _ & _ & HS & _ & HR & HAS & HAR & _).
  apply latebloom_hook_sleeps in Hin. rewrite HS, HR, HAS, HAR in Hin.
  pose proof (hook_delay_bounds (SleepValue (vars w1)) (lb_RandRange (vars w1))
                (Trampoline.tsc1 i) (Trampoline.tsc2 i) ltac:(lia) ltac:(lia)) as H1.
  pose proof (hook_delay_bounds (lb_AltSleepValue (vars w1)) (lb_AltRandRange (vars w1))
                (Trampoline.tsc1 i) (Trampoline.tsc2 i) ltac:(lia) ltac:(lia)) as H2.
  destruct Hin as [-> | ->]; split; try lia.
Qed.

Lemma parsed_delays_bound_every_sleep_witness :
  let e := Machine.boot_env "lbloom=90,20,1,30,5" in
  let w := initial_world Machine.memory in
  let i := Trampoline.Build_hook_input 7 1234567 8 0 in
  Config.ranged (vars w) /\
  SleepValue (vars w) = 0 /\
  lb_jump_address (vars w) = 0 /\
  exists w1,
    latebloom_start 3 e w = Some w1 /\
    lb_jump_address (vars w1) = Machine.probe + 5 + 14 /\
    lb_jump_address (vars w1) <> 0 /\
    Run.same_config (vars w1) (set_CurrentThread 7 (vars w1)) /\
    In (IOSleep 97) (snd (Trampoline.latebloom_hook i (set_CurrentThread 7 (vars w1)))) /\
    0 <= 97 <= 2 * 9999.
Proof.
  intros e w i.
  assert (H1 : Config.ranged (vars w)) by exact initial_ranged.
  assert (H2 : SleepValue (vars w) = 0) by reflexivity.
  assert (H3 : lb_jump_address (vars w) = 0) by reflexivity.
  split; [exact H1|]. split; [exact H2|]. split; [exact H3|].
  assert (E4 : option_map (fun w1 => lb_jump_address (vars w1)) (latebloom_start 3 e w)
               = Some (Machine.probe + 5 + 14)) by (vm_compute; reflexivity).
  assert (E7 : option_map
                 (fun w1 => Trampoline.hook_delay (SleepValue (vars w1))
                              (lb_RandRange (vars w1)) 1234567 8)
                 (latebloom_start 3 e w)
               = Some 97) by (vm_compute; reflexivity).
  destruct (latebloom_start 3 e w) as [w1|] eqn:Hrun; [|discriminate E4].
  cbn [option_map] in E4, E7. injection E4 as H4. injection E7 as E7.
  assert (H5 : lb_jump_address (vars w1) <> 0) by (rewrite H4; vm_compute; discriminate).
  assert (H6 : Run.same_config (vars w1) (set_CurrentThread 7 (vars w1))).
  { unfold Run.same_config. cbn.
    split; [|split; [|split; [|split; [|split; [|split; [|split; [|split; [|split;
      [|split]]]]]]]]]; reflexivity. }
  assert (H7 : In (IOSleep 97)
                 (snd (Trampoline.latebloom_hook i (set_CurrentThread 7 (vars w1))))).
  { destruct (latebloom_hook_phase1 i (set_CurrentThread 7 (vars w1)))
      as (s' & t & Eh); [left; reflexivity|].
    rewrite Eh. cbn [snd]. left. f_equal. exact E7. }
  exists w1. split; [reflexivity|]. split; [exact H4|]. split; [exact H5|].
  split; [exact H6|]. split; [exact H7|].
  exact (proj1 (proj2 (parsed_delays_bound_every_sleep 3 e w w1 _ i 97
                         H1 H2 H3 Hrun H5 H6 H7))).
Defined.
